(** * PDF417 detector (zxing/pdf417/detector/Detector.cpp)

    A shallow embedding of the PDF417 symbol locator: guard-pattern search
    over image rows, the fixed-point variance score, the sixteen-slot vertex
    vector, wide-bar tracing, line intersection, dimension estimation and the
    sampling call.

    Conventions of the embedding:
    - [int], [long] and [size_t] values are integers in [Z]; every C++
      operation whose result could leave the type's range is written with the
      corresponding wrap ([to_int], [to_long], [to_size_t]), two's
      complement as on the x86-64 target;
    - [float] is IEEE-754 binary32 ([SpecFloat] at precision 24, emax 128),
      [double] is binary64; expressions are evaluated in their declared type;
    - a [std::vector<Ref<ResultPoint> >] is a [list (option ResultPoint)],
      [None] being the null [Ref];
    - loops whose trip count is not a known bound take a fuel argument and
      report its exhaustion as a separate outcome. *)

From Stdlib Require Import ZArith Bool Lia String.
From Stdlib Require Import Floats.SpecFloat.
From stdpp Require Import base list.

Local Open Scope Z_scope.

(** ** Machine integers *)

Module MachineInt.

Definition INT_MAX : Z := 2147483647.
Definition INT_MIN : Z := -2147483648.

(** Conversion to a 32-bit [int]. *)
Definition to_int (z : Z) : Z := (z + 2 ^ 31) mod 2 ^ 32 - 2 ^ 31.

(** Conversion to a 64-bit [long]. *)
Definition to_long (z : Z) : Z := (z + 2 ^ 63) mod 2 ^ 64 - 2 ^ 63.

(** Conversion to a 64-bit [size_t]. *)
Definition to_size_t (z : Z) : Z := z mod 2 ^ 64.

End MachineInt.
Export MachineInt.

(** ** Single and double precision floating point *)

Module F32.

Definition prec : Z := 24.
Definition emax : Z := 128.

Definition add := SFadd prec emax.
Definition sub := SFsub prec emax.
Definition mul := SFmul prec emax.
Definition div := SFdiv prec emax.
Definition sqrt := SFsqrt prec emax.
Definition abs := SFabs.
Definition ltb := SFltb.
Definition eqb := SFeqb.

(** [(float) z] for an integer [z]. *)
Definition of_int (z : Z) : spec_float := binary_normalize prec emax z 0 false.

(** The decimal literal [n / 10^d] written with an [f] suffix: the nearest
    binary32 value (both operands are exact, the quotient is rounded once). *)
Definition of_decimal (n : Z) (d : Z) : spec_float :=
  div (of_int n) (of_int (10 ^ d)).

Definition infinity : spec_float := S754_infinity false.

(** [(int) f]: truncation toward zero. A value that does not fit (or a NaN)
    is undefined in C++; the x86 conversion instruction yields [INT_MIN]. *)
Definition to_int (f : spec_float) : Z :=
  match f with
  | S754_zero _ => 0
  | S754_finite s m e =>
      let mag := match e with
                 | Zneg p => Z.shiftr (Zpos m) (Zpos p)
                 | _ => Z.shiftl (Zpos m) e
                 end in
      let v := if s then - mag else mag in
      if (INT_MIN <=? v) && (v <=? INT_MAX) then v else INT_MIN
  | _ => INT_MIN
  end.

(** [std::max(a, b)]: [(a < b) ? b : a]. *)
Definition max (a b : spec_float) : spec_float := if ltb a b then b else a.

End F32.

Module F64.

Definition prec : Z := 53.
Definition emax : Z := 1024.

(** Promotion of a [float] to [double] (exact). *)
Definition of_float (f : spec_float) : spec_float :=
  match f with
  | S754_finite s m e => binary_normalize prec emax (cond_Zopp s (Zpos m)) e s
  | _ => f
  end.

Definition of_int (z : Z) : spec_float := binary_normalize prec emax z 0 false.

(** The decimal literal [n * 10^-d] for [n] and [10^d] below [2^53]. *)
Definition of_decimal (n : Z) (d : Z) : spec_float :=
  SFdiv prec emax (of_int n) (of_int (10 ^ d)).

Definition ltb := SFltb.

End F64.

Abbreviation float := spec_float.

(** ** The binary image *)

(** [BitMatrix] is declared in zxing/common/BitMatrix.h; the detector uses its
    dimensions and the pixel test [get(x, y)] ([true] is black). *)
Record BitMatrix : Type := mkBitMatrix {
  getWidth : Z;
  getHeight : Z;
  get : Z -> Z -> bool
}.

Definition inBounds (matrix : BitMatrix) (x y : Z) : bool :=
  (0 <=? x) && (x <? getWidth matrix) && (0 <=? y) && (y <? getHeight matrix).

Record ResultPoint : Type := mkResultPoint { getX : float; getY : float }.

Module Detector.

(** ** Constants *)

(** [(int) ((1 << 8) * 0.42f)] and [(int) ((1 << 8) * 0.8f)]. *)
Definition MAX_AVG_VARIANCE : Z :=
  F32.to_int (F32.mul (F32.of_int (Z.shiftl 1 8)) (F32.of_decimal 42 2)).
Definition MAX_INDIVIDUAL_VARIANCE : Z :=
  F32.to_int (F32.mul (F32.of_int (Z.shiftl 1 8)) (F32.of_decimal 8 1)).

Definition START_PATTERN : list Z := [8; 1; 1; 1; 1; 1; 1; 3].
Definition START_PATTERN_REVERSE : list Z := [3; 1; 1; 1; 1; 1; 1; 8].
Definition STOP_PATTERN : list Z := [7; 1; 1; 3; 1; 1; 1; 2; 1].
Definition STOP_PATTERN_REVERSE : list Z := [1; 2; 1; 1; 1; 3; 1; 1; 7].

Definition SIZEOF_START_PATTERN : nat := length START_PATTERN.
Definition SIZEOF_START_PATTERN_REVERSE : nat := length START_PATTERN_REVERSE.
Definition SIZEOF_STOP_PATTERN : nat := length STOP_PATTERN.
Definition SIZEOF_STOP_PATTERN_REVERSE : nat := length STOP_PATTERN_REVERSE.
Definition COUNT_VERTICES : nat := 16.

(** ** patternMatchVariance *)

(** Array read [a[i]] of an [int] array; past the end the C++ read is
    undefined, the model yields 0. *)
Definition elem (a : list Z) (i : nat) : Z := default 0 (a !! i).

(** First loop: [total += counters[i]; patternLength += pattern[i]], both
    accumulators being [size_t]. *)
Fixpoint sumLoop (pattern : list Z) (counters : list Z) (i : nat)
    (total patternLength : Z) : Z * Z :=
  match counters with
  | [] => (total, patternLength)
  | c :: rest =>
      sumLoop pattern rest (S i)
        (to_size_t (total + to_size_t c))
        (to_size_t (patternLength + to_size_t (elem pattern i)))
  end.

(** [int unitBarWidth = (total << 8) / patternLength]. *)
Definition unitBarWidth (total patternLength : Z) : Z :=
  to_int (to_size_t (Z.shiftl total 8) / patternLength).

(** [maxIndividualVariance = (maxIndividualVariance * unitBarWidth) >> 8]. *)
Definition scaledCap (maxIndividualVariance unitBarWidth : Z) : Z :=
  Z.shiftr (to_int (maxIndividualVariance * unitBarWidth)) 8.

(** Body of the second loop for one element: the element's variance. *)
Definition variance (c p unitBarWidth : Z) : Z :=
  let counter := to_int (Z.shiftl c 8) in
  let scaledPattern := to_int (p * unitBarWidth) in
  if counter >? scaledPattern
  then to_int (counter - scaledPattern)
  else to_int (scaledPattern - counter).

(** Second loop; [None] is the early [return INT_MAX]. *)
Fixpoint varianceLoop (pattern : list Z) (unitBarWidth maxIndividualVariance : Z)
    (counters : list Z) (x : nat) (totalVariance : Z) : option Z :=
  match counters with
  | [] => Some totalVariance
  | c :: rest =>
      let v := variance c (elem pattern x) unitBarWidth in
      if v >? maxIndividualVariance then None
      else varianceLoop pattern unitBarWidth maxIndividualVariance rest (S x)
             (to_int (totalVariance + v))
  end.

Definition patternMatchVariance (counters pattern : list Z)
    (maxIndividualVariance : Z) : Z :=
  let '(total, patternLength) := sumLoop pattern counters 0 0 0 in
  if total <? patternLength then INT_MAX
  else
    let unitBarWidth := unitBarWidth total patternLength in
    let maxIndividualVariance := scaledCap maxIndividualVariance unitBarWidth in
    match varianceLoop pattern unitBarWidth maxIndividualVariance counters 0 0 with
    | None => INT_MAX
    | Some totalVariance => to_int (to_size_t totalVariance / total)
    end.

(** ** findGuardPattern *)

(** The loop-carried variables of the pixel scan. *)
Record GuardScan : Type := mkGuardScan {
  counters : list Z;
  counterPosition : nat;
  patternStart : Z;
  isWhite : bool
}.

(** [for (i = 0; i < patternLength - 2; ++i) counters[i] = counters[i + 2]]. *)
Fixpoint shiftLoop (n : nat) (i : nat) (counters : list Z) : list Z :=
  match n with
  | O => counters
  | S n' => shiftLoop n' (S i) (<[i := elem counters (i + 2)]> counters)
  end.

(** The test that accepts a full window. *)
Definition windowMatches (counters pattern : list Z) : bool :=
  patternMatchVariance counters pattern MAX_INDIVIDUAL_VARIANCE <? MAX_AVG_VARIANCE.

(** One iteration of the pixel loop at column [x]: either the matched span
    [(patternStart, x)] is returned or the scan state is updated. *)
Definition guardStep (matrix : BitMatrix) (row : Z) (pattern : list Z)
    (patternLength : nat) (x : Z) (st : GuardScan) : (Z * Z) + GuardScan :=
  let pixel := get matrix x row in
  if xorb pixel (isWhite st) then
    inr (mkGuardScan
           (<[counterPosition st := to_int (elem (counters st) (counterPosition st) + 1)]>
              (counters st))
           (counterPosition st) (patternStart st) (isWhite st))
  else if Nat.eqb (counterPosition st) (patternLength - 1) then
    if windowMatches (counters st) pattern then
      inl (to_int (patternStart st), to_int x)
    else
      let patternStart' :=
        to_size_t (patternStart st
                   + to_size_t (to_int (elem (counters st) 0 + elem (counters st) 1))) in
      let shifted := shiftLoop (patternLength - 2) 0 (counters st) in
      let cleared := <[(patternLength - 1)%nat := 0]> (<[(patternLength - 2)%nat := 0]> shifted) in
      let counterPosition' := (counterPosition st - 1)%nat in
      inr (mkGuardScan (<[counterPosition' := 1]> cleared) counterPosition'
             patternStart' (negb (isWhite st)))
  else
    let counterPosition' := S (counterPosition st) in
    inr (mkGuardScan (<[counterPosition' := 1]> (counters st)) counterPosition'
           (patternStart st) (negb (isWhite st))).

(** [for (size_t x = column; x < column + width; x++)], [n] iterations left. *)
Fixpoint guardLoop (matrix : BitMatrix) (row : Z) (pattern : list Z)
    (patternLength : nat) (n : nat) (x : Z) (st : GuardScan)
    : option (Z * Z) * list Z :=
  match n with
  | O => (None, counters st)
  | S n' =>
      match guardStep matrix row pattern patternLength x st with
      | inl loc => (Some loc, counters st)
      | inr st' => guardLoop matrix row pattern patternLength n' (x + 1) st'
      end
  end.

(** The scratch array [counters] is passed in by the caller and shared by all
    its scans: the function returns the located span together with the array
    as it leaves it. It begins by overwriting every slot with 0. *)
Definition findGuardPattern (matrix : BitMatrix) (column row width : Z)
    (whiteFirst : bool) (pattern : list Z) (patternSize : nat)
    (counters : list Z) : option (Z * Z) * list Z :=
  let counters := replicate (length counters) 0 in
  guardLoop matrix row pattern patternSize (Z.to_nat width) column
    (mkGuardScan counters 0 column whiteFirst).

(** ** Outcomes of a call *)

(** A call returns, throws [NotFoundException(what)], runs into undefined
    behaviour (a null [Ref] dereferenced, a vector indexed past its size), or
    is cut off because the fuel given to one of its loops ran out. *)
Inductive outcome (A : Type) : Type :=
| Return (a : A)
| Throw (what : string)
| Fault
| OutOfFuel.
Arguments Return {A} a.
Arguments Throw {A} what.
Arguments Fault {A}.
Arguments OutOfFuel {A}.

#[global] Instance outcome_ret : MRet outcome := @Return.
#[global] Instance outcome_bind : MBind outcome := fun A B f m =>
  match m with
  | Return a => f a
  | Throw what => Throw what
  | Fault => Fault
  | OutOfFuel => OutOfFuel
  end.

(** ** The vertex vector *)

Abbreviation Vertices := (list (option ResultPoint)).

Definition point (x y : Z) : option ResultPoint :=
  Some (mkResultPoint (F32.of_int x) (F32.of_int y)).

(** [vertices[i]->...]: the point in slot [i]. *)
Definition vertex (v : Vertices) (i : nat) : outcome ResultPoint :=
  match v !! i with
  | Some (Some p) => Return p
  | _ => Fault
  end.

(** ** Row scans of findVertices and findVertices180 *)

Inductive rowScan : Type :=
| RowFuel
| RowNone (counters : list Z)
| RowHit (loc : Z * Z) (i : Z) (counters : list Z).

Section RowLoops.
Variable matrix : BitMatrix.
Variables height rowStep : Z.
Variables column width : Z.
Variable whiteFirst : bool.
Variable pattern : list Z.
Variable patternSize : nat.

(** [for (size_t i = 0; i < height; i += rowStep)]. *)
Fixpoint rowsDown (fuel : nat) (counters : list Z) (i : Z) : rowScan :=
  match fuel with
  | O => RowFuel
  | S fuel' =>
      if i <? height then
        match findGuardPattern matrix column i width whiteFirst pattern
                patternSize counters with
        | (Some loc, counters') => RowHit loc i counters'
        | (None, counters') => rowsDown fuel' counters' (to_size_t (i + rowStep))
        end
      else RowNone counters
  end.

(** [for (T i = height - 1; i > 0; i -= rowStep)] for a signed type [T]
    ([long] in findVertices, [int] in findVertices180); [conv] converts to
    [T]. The subtraction is carried out in [size_t]. *)
Fixpoint rowsUp (conv : Z -> Z) (fuel : nat) (counters : list Z) (i : Z) : rowScan :=
  match fuel with
  | O => RowFuel
  | S fuel' =>
      if i >? 0 then
        match findGuardPattern matrix column (to_size_t i) width whiteFirst
                pattern patternSize counters with
        | (Some loc, counters') => RowHit loc i counters'
        | (None, counters') =>
            rowsUp conv fuel' counters' (conv (to_size_t (to_size_t i - rowStep)))
        end
      else RowNone counters
  end.
End RowLoops.

(** [result[a] = new ResultPoint((float) xa, (float) i);
     result[b] = new ResultPoint((float) xb, (float) i);] *)
Definition store2 (a b : nat) (xa xb : Z) (i : Z) (result : Vertices) : Vertices :=
  <[b := point xb i]> (<[a := point xa i]> result).

(** What a finished row scan does to [result] and [found]: on a hit, [place]
    stores the two new points. *)
Definition afterScan (scan : rowScan)
    (place : Z * Z -> Z -> Vertices -> Vertices) (result : Vertices)
    : outcome (Vertices * bool * list Z) :=
  match scan with
  | RowFuel => OutOfFuel
  | RowNone counters => Return (result, false, counters)
  | RowHit loc i counters => Return (place loc i result, true, counters)
  end.

Definition findVertices (fuel : nat) (matrix : BitMatrix) (rowStep : Z)
    : outcome Vertices :=
  let height := to_size_t (getHeight matrix) in
  let width := to_size_t (getWidth matrix) in
  let result : Vertices := replicate COUNT_VERTICES None in
  let counters := replicate SIZEOF_START_PATTERN 0 in
  (* Top Left *)
  '(result, found, counters) ←
    afterScan
      (rowsDown matrix height rowStep 0 width false START_PATTERN
         SIZEOF_START_PATTERN fuel counters 0)
      (fun loc i => store2 0 4 (loc.1) (loc.2) i)
      result;
  (* Bottom left *)
  '(result, found, counters) ←
    (if found : bool then
       afterScan
         (rowsUp matrix rowStep 0 width false START_PATTERN SIZEOF_START_PATTERN
            to_long fuel counters (to_long (to_size_t (height - 1))))
         (fun loc i => store2 1 5 (loc.1) (loc.2) i)
         result
     else Return (result, found, counters));
  let counters := replicate SIZEOF_STOP_PATTERN 0 in
  (* Top right *)
  '(result, found, counters) ←
    (if found : bool then
       afterScan
         (rowsDown matrix height rowStep 0 width false STOP_PATTERN
            SIZEOF_STOP_PATTERN fuel counters 0)
         (fun loc i => store2 2 6 (loc.2) (loc.1) i)
         result
     else Return (result, found, counters));
  (* Bottom right *)
  '(result, found, counters) ←
    (if found : bool then
       afterScan
         (rowsUp matrix rowStep 0 width false STOP_PATTERN SIZEOF_STOP_PATTERN
            to_long fuel counters (to_long (to_size_t (height - 1))))
         (fun loc i => store2 3 7 (loc.2) (loc.1) i)
         result
     else Return (result, found, counters));
  (* Do not return partial results: result.clear() *)
  Return (if found : bool then result else []).

Definition findVertices180 (fuel : nat) (matrix : BitMatrix) (rowStep : Z)
    : outcome Vertices :=
  let height := to_size_t (getHeight matrix) in
  let width := to_size_t (getWidth matrix) in
  let halfWidth := Z.shiftr width 1 in
  let result : Vertices := replicate COUNT_VERTICES None in
  let counters := replicate SIZEOF_START_PATTERN_REVERSE 0 in
  (* Top Left *)
  '(result, found, counters) ←
    afterScan
      (rowsUp matrix rowStep halfWidth halfWidth true START_PATTERN_REVERSE
         SIZEOF_START_PATTERN_REVERSE to_int fuel counters
         (to_int (to_size_t (height - 1))))
      (fun loc i => store2 0 4 (loc.2) (loc.1) i)
      result;
  (* Bottom Left *)
  '(result, found, counters) ←
    (if found : bool then
       afterScan
         (rowsDown matrix height rowStep halfWidth halfWidth true
            START_PATTERN_REVERSE SIZEOF_START_PATTERN_REVERSE fuel counters 0)
         (fun loc i => store2 1 5 (loc.2) (loc.1) i)
         result
     else Return (result, found, counters));
  let counters := replicate SIZEOF_STOP_PATTERN_REVERSE 0 in
  (* Top Right *)
  '(result, found, counters) ←
    (if found : bool then
       afterScan
         (rowsUp matrix rowStep 0 halfWidth false STOP_PATTERN_REVERSE
            SIZEOF_STOP_PATTERN_REVERSE to_int fuel counters
            (to_int (to_size_t (height - 1))))
         (fun loc i => store2 2 6 (loc.1) (loc.2) i)
         result
     else Return (result, found, counters));
  (* Bottom Right *)
  '(result, found, counters) ←
    (if found : bool then
       afterScan
         (rowsDown matrix height rowStep 0 halfWidth false STOP_PATTERN_REVERSE
            SIZEOF_STOP_PATTERN_REVERSE fuel counters 0)
         (fun loc i => store2 3 7 (loc.1) (loc.2) i)
         result
     else Return (result, found, counters));
  (* Do not return partial results: result.clear() *)
  Return (if found : bool then result else []).

(** ** Rounding *)

(** [(int) (d + 0.5f)]. *)
Definition round (d : float) : Z := F32.to_int (F32.add d (F32.of_decimal 5 1)).

(** ** findWideBarTopBottom *)

(** The search for the thin bar to the right:
    [for (; nextBarX < matrix->getWidth(); nextBarX++)
       if (!matrix->get(nextBarX - 1, y) && matrix->get(nextBarX, y)) break;]
    with [n] bounding the remaining iterations. The second component lists the
    pixel coordinates read, in order. [getWidth()] is unsigned, so is the
    comparison. *)
Fixpoint nextBarLoop (matrix : BitMatrix) (y : Z) (n : nat) (nextBarX : Z)
    (reads : list (Z * Z)) : Z * list (Z * Z) :=
  match n with
  | O => (nextBarX, reads)
  | S n' =>
      if to_size_t nextBarX <? to_size_t (getWidth matrix) then
        let left := to_int (nextBarX - 1) in
        if get matrix left y then
          nextBarLoop matrix y n' (to_int (nextBarX + 1)) (reads ++ [(left, y)])
        else if get matrix nextBarX y then
          (nextBarX, reads ++ [(left, y); (nextBarX, y)])
        else
          nextBarLoop matrix y n' (to_int (nextBarX + 1))
            (reads ++ [(left, y); (nextBarX, y)])
      else (nextBarX, reads)
  end.

(** The tracing loop [while (!isEnd)]: returns the final [(x, y)], or [None]
    when the fuel runs out, and the pixel coordinates read. *)
Fixpoint wideBarLoop (matrix : BitMatrix) (rowStep yStart nextBarX : Z)
    (fuel : nat) (x y : Z) (reads : list (Z * Z))
    : option (Z * Z) * list (Z * Z) :=
  match fuel with
  | O => (None, reads)
  | S fuel' =>
      if get matrix x y then
        (* If the thin bar to the right ended, stop as well *)
        let ahead := to_int (x + nextBarX) in
        let ahead1 := to_int (to_int (x + nextBarX) + 1) in
        let '(isEnd, reads) :=
          if get matrix ahead y
          then (false, reads ++ [(x, y); (ahead, y)])
          else (negb (get matrix ahead1 y),
                reads ++ [(x, y); (ahead, y); (ahead1, y)]) in
        let y := to_int (y + rowStep) in
        let isEnd :=
          if (y <=? 0) || (y >=? to_int (to_int (getHeight matrix) - 1))
          then true else isEnd in
        if isEnd then (Some (x, y), reads)
        else wideBarLoop matrix rowStep yStart nextBarX fuel' x y reads
      else
        (* Look sidewise whether black bar continues? *)
        let reads := reads ++ [(x, y)] in
        if x >? 0 then
          if get matrix (to_int (x - 1)) y then
            wideBarLoop matrix rowStep yStart nextBarX fuel' (to_int (x - 1)) y
              (reads ++ [(to_int (x - 1), y)])
          else if x <? to_int (to_int (getWidth matrix) - 1) then
            if get matrix (to_int (x + 1)) y then
              wideBarLoop matrix rowStep yStart nextBarX fuel' (to_int (x + 1)) y
                (reads ++ [(to_int (x - 1), y); (to_int (x + 1), y)])
            else
              (Some (x, if y =? yStart then y else to_int (y - rowStep)),
               reads ++ [(to_int (x - 1), y); (to_int (x + 1), y)])
          else
            (Some (x, if y =? yStart then y else to_int (y - rowStep)),
             reads ++ [(to_int (x - 1), y)])
        else if x <? to_int (to_int (getWidth matrix) - 1) then
          if get matrix (to_int (x + 1)) y then
            wideBarLoop matrix rowStep yStart nextBarX fuel' (to_int (x + 1)) y
              (reads ++ [(to_int (x + 1), y)])
          else
            (Some (x, if y =? yStart then y else to_int (y - rowStep)),
             reads ++ [(to_int (x + 1), y)])
        else
          (Some (x, if y =? yStart then y else to_int (y - rowStep)), reads)
  end.

(** The call returns the updated vector and the list of pixel coordinates it
    passed to [matrix->get], in order. *)
Definition findWideBarTopBottom (fuel : nat) (matrix : BitMatrix)
    (vertices : Vertices) (offsetVertice : nat)
    (startWideBar lenWideBar lenPattern rowStep : Z)
    : outcome Vertices * list (Z * Z) :=
  match vertex vertices offsetVertice, vertex vertices (offsetVertice + 4) with
  | Return verticeStart, Return verticeEnd =>
      (* Start horizontally at the middle of the bar. *)
      let endWideBar := to_int (startWideBar + lenWideBar) in
      let barDiff := F32.sub (getX verticeEnd) (getX verticeStart) in
      let barStart :=
        F32.add (getX verticeStart)
          (F32.div (F32.mul barDiff (F32.of_int startWideBar)) (F32.of_int lenPattern)) in
      let barEnd :=
        F32.add (getX verticeStart)
          (F32.div (F32.mul barDiff (F32.of_int endWideBar)) (F32.of_int lenPattern)) in
      let x := round (F32.div (F32.add barStart barEnd) (F32.of_int 2)) in
      (* Start vertically between the preliminary vertices. *)
      let yStart := round (getY verticeStart) in
      let y := yStart in
      (* Find offset of thin bar to the right as additional safeguard. *)
      let nextBarX := F32.to_int (F32.add (F32.max barStart barEnd) (F32.of_int 1)) in
      let '(nextBarX, reads) :=
        nextBarLoop matrix y (Z.to_nat (to_size_t (getWidth matrix) - nextBarX))
          nextBarX [] in
      let nextBarX := to_int (nextBarX - x) in
      match wideBarLoop matrix rowStep yStart nextBarX fuel x y reads with
      | (None, reads) => (OutOfFuel, reads)
      | (Some (x, y), reads) =>
          if decide (offsetVertice + 8 < length vertices)%nat
          then (Return (<[(offsetVertice + 8)%nat := point x y]> vertices), reads)
          else (Fault, reads)
      end
  | _, _ => (Fault, [])
  end.

(** ** Line intersection *)

Record Point : Type := mkPoint { px : float; py : float }.
Record Line : Type := mkLine { start : Point; end_ : Point }.

Definition intersection (a b : Line) : Point :=
  let dxa := F32.sub (px (start a)) (px (end_ a)) in
  let dxb := F32.sub (px (start b)) (px (end_ b)) in
  let dya := F32.sub (py (start a)) (py (end_ a)) in
  let dyb := F32.sub (py (start b)) (py (end_ b)) in
  let p := F32.sub (F32.mul (px (start a)) (py (end_ a)))
                   (F32.mul (py (start a)) (px (end_ a))) in
  let q := F32.sub (F32.mul (px (start b)) (py (end_ b)))
                   (F32.mul (py (start b)) (px (end_ b))) in
  let denom := F32.sub (F32.mul dxa dyb) (F32.mul dya dxb) in
  (* Lines don't intersect (replaces "denom == 0"); 1e-12 is a double *)
  if F64.ltb (F64.of_float (F32.abs denom)) (F64.of_decimal 1 12) then
    mkPoint F32.infinity F32.infinity
  else
    let x := F32.div (F32.sub (F32.mul p dxb) (F32.mul dxa q)) denom in
    let y := F32.div (F32.sub (F32.mul p dyb) (F32.mul dya q)) denom in
    mkPoint x y.

Definition parallelLines : string :=
  "PDF:Detector: cannot find the crossing of parallel lines!".
Definition outOfRegion : string :=
  "PDF:Detector: crossing points out of region!".

(** The part of findCrossingPoint after the four points are fetched. *)
Definition crossingOf (matrix : BitMatrix) (p1 p2 p3 p4 : Point) : outcome Point :=
  let result := intersection (mkLine p1 p2) (mkLine p3 p4) in
  if F32.eqb (px result) F32.infinity || F32.eqb (py result) F32.infinity then
    Throw parallelLines
  else
    let x := round (px result) in
    let y := round (py result) in
    if (x <? 0) || (x >=? to_int (getWidth matrix))
       || (y <? 0) || (y >=? to_int (getHeight matrix))
    then Throw outOfRegion
    else Return result.

Definition pointOf (v : ResultPoint) : Point := mkPoint (getX v) (getY v).

Definition findCrossingPoint (vertices : Vertices)
    (idxResult idxLineA1 idxLineA2 idxLineB1 idxLineB2 : nat)
    (matrix : BitMatrix) : outcome Vertices :=
  a1 ← vertex vertices idxLineA1;
  a2 ← vertex vertices idxLineA2;
  b1 ← vertex vertices idxLineB1;
  b2 ← vertex vertices idxLineB2;
  result ← crossingOf matrix (pointOf a1) (pointOf a2) (pointOf b1) (pointOf b2);
  if decide (idxResult < length vertices)%nat
  then Return (<[idxResult := Some (mkResultPoint (px result) (py result))]> vertices)
  else Fault.

(** ** correctVertices *)

Definition notEnoughGuardPatterns : string :=
  "Cannot find enough PDF417 guard patterns!".

(** [std::abs(a->getY() - b->getY()) < 20.0]: the difference and its absolute
    value are [float], the comparison is made in [double]. *)
Definition isLow (a b : ResultPoint) : bool :=
  F64.ltb (F64.of_float (F32.abs (F32.sub (getY a) (getY b)))) (F64.of_int 20).

(** The [else] branch: four wide-bar traces, then four crossing points. *)
Definition traceAndCross (fuel : nat) (matrix : BitMatrix) (vertices : Vertices)
    (upsideDown : bool) : outcome Vertices :=
  vertices ← (findWideBarTopBottom fuel matrix vertices 0 0 8 17
                (if upsideDown then 1 else -1)).1;
  vertices ← (findWideBarTopBottom fuel matrix vertices 1 0 8 17
                (if upsideDown then -1 else 1)).1;
  vertices ← (findWideBarTopBottom fuel matrix vertices 2 11 7 18
                (if upsideDown then 1 else -1)).1;
  vertices ← (findWideBarTopBottom fuel matrix vertices 3 11 7 18
                (if upsideDown then -1 else 1)).1;
  vertices ← findCrossingPoint vertices 12 4 5 8 10 matrix;
  vertices ← findCrossingPoint vertices 13 4 5 9 11 matrix;
  vertices ← findCrossingPoint vertices 14 6 7 8 10 matrix;
  findCrossingPoint vertices 15 6 7 9 11 matrix.

Definition correctVertices (fuel : nat) (matrix : BitMatrix) (vertices : Vertices)
    (upsideDown : bool) : outcome Vertices :=
  v4 ← vertex vertices 4;
  v5 ← vertex vertices 5;
  let isLowLeft := isLow v4 v5 in
  v6 ← vertex vertices 6;
  v7 ← vertex vertices 7;
  let isLowRight := isLow v6 v7 in
  if isLowLeft || isLowRight then Throw notEnoughGuardPatterns
  else traceAndCross fuel matrix vertices upsideDown.

(** ** Calls to the collaborators, and the call log *)

(** [BinaryBitmap] (zxing/BinaryBitmap.h): the detector only asks it for the
    black matrix. *)
Record BinaryBitmap : Type := mkBinaryBitmap { getBlackMatrix : BitMatrix }.

Record DetectorResult : Type := mkDetectorResult {
  getBits : BitMatrix;
  getPoints : list ResultPoint
}.

(** The four corners of a quadrilateral, in the order of the arguments of
    [PerspectiveTransform::quadrilateralToQuadrilateral]. *)
Record Quad : Type := mkQuad {
  qx0 : float; qy0 : float;
  qx1 : float; qy1 : float;
  qx2 : float; qy2 : float;
  qx3 : float; qy3 : float
}.

(** The calls [detect] makes, recorded in the order it makes them. *)
Inductive Call : Type :=
| CallFindVertices (rowStep : Z)
| CallFindVertices180 (rowStep : Z)
| CallCorrectVertices (upsideDown : bool)
| CallQuadrilateralToQuadrilateral (from to : Quad)
| CallSampleGrid (dimensionX dimensionY : Z)
| CallLinesSampler (dimension : Z).

(** A computation that logs its calls. *)
Definition Run (A : Type) : Type := list Call * outcome A.

#[global] Instance Run_ret : MRet Run := fun A a => ([], Return a).
#[global] Instance Run_bind : MBind Run := fun A B f m =>
  match m with
  | (log, Return a) => let '(log', r) := f a in (log ++ log', r)
  | (log, Throw what) => (log, Throw what)
  | (log, Fault) => (log, Fault)
  | (log, OutOfFuel) => (log, OutOfFuel)
  end.

Definition call {A : Type} (c : Call) (o : outcome A) : Run A := ([c], o).
Definition lift {A : Type} (o : outcome A) : Run A := ([], o).

Section Collaborators.

(** [ResultPoint::distance] (zxing/ResultPoint.h). *)
Variable distance : ResultPoint -> ResultPoint -> float.

(** [PerspectiveTransform] and its factory (zxing/common). *)
Variable PerspectiveTransform : Type.
Variable quadrilateralToQuadrilateral : Quad -> Quad -> PerspectiveTransform.

(** [GridSampler::getInstance().sampleGrid(image, dimensionX, dimensionY,
    transform)]. *)
Variable sampleGrid : BitMatrix -> Z -> Z -> PerspectiveTransform -> outcome BitMatrix.

(** [LinesSampler(linesMatrix, dimension).sample()]. *)
Variable linesSampler : BitMatrix -> Z -> outcome BitMatrix.

Definition computeModuleWidth (vertices : Vertices) : outcome float :=
  v0 ← vertex vertices 0; v4 ← vertex vertices 4;
  let pixels1 := distance v0 v4 in
  v1 ← vertex vertices 1; v5 ← vertex vertices 5;
  let pixels2 := distance v1 v5 in
  let moduleWidth1 :=
    F32.div (F32.add pixels1 pixels2) (F32.mul (F32.of_int 17) (F32.of_int 2)) in
  v6 ← vertex vertices 6; v2 ← vertex vertices 2;
  let pixels3 := distance v6 v2 in
  v7 ← vertex vertices 7; v3 ← vertex vertices 3;
  let pixels4 := distance v7 v3 in
  let moduleWidth2 :=
    F32.div (F32.add pixels3 pixels4) (F32.mul (F32.of_int 18) (F32.of_int 2)) in
  Return (F32.div (F32.add moduleWidth1 moduleWidth2) (F32.of_int 2)).

Definition computeDimension (topLeft topRight bottomLeft bottomRight : ResultPoint)
    (moduleWidth : float) : Z :=
  let topRowDimension := round (F32.div (distance topLeft topRight) moduleWidth) in
  let bottomRowDimension :=
    round (F32.div (distance bottomLeft bottomRight) moduleWidth) in
  to_int
    (Z.quot
       (to_int (Z.shiftr (to_int (topRowDimension + bottomRowDimension)) 1 + 8))
       17
     * 17).

Definition computeYDimension (topLeft topRight bottomLeft bottomRight : ResultPoint)
    (moduleWidth : float) : Z :=
  let leftColumnDimension := round (F32.div (distance topLeft bottomLeft) moduleWidth) in
  let rightColumnDimension :=
    round (F32.div (distance topRight bottomRight) moduleWidth) in
  Z.shiftr (to_int (leftColumnDimension + rightColumnDimension)) 1.

(** Note the order of the two dimension parameters in the signature:
    [sampleLines(vertices, int dimensionY, int dimension)]. *)
Definition sampleLines (image : BinaryBitmap) (vertices : Vertices)
    (dimensionY dimension : Z) : Run BitMatrix :=
  let sampleDimensionX := to_int (dimension * 8) in
  let sampleDimensionY := to_int (dimensionY * 4) in
  v12 ← lift (vertex vertices 12);
  v14 ← lift (vertex vertices 14);
  v13 ← lift (vertex vertices 13);
  v15 ← lift (vertex vertices 15);
  let from :=
    mkQuad (F32.of_int 0) (F32.of_int 0)
           (F32.of_int sampleDimensionX) (F32.of_int 0)
           (F32.of_int 0) (F32.of_int sampleDimensionY)
           (F32.of_int sampleDimensionX) (F32.of_int sampleDimensionY) in
  let to :=
    mkQuad (getX v12) (getY v12) (getX v14) (getY v14)
           (getX v13) (getY v13) (getX v15) (getY v15) in
  transform ← call (CallQuadrilateralToQuadrilateral from to)
                (Return (quadrilateralToQuadrilateral from to));
  call (CallSampleGrid sampleDimensionX sampleDimensionY)
    (sampleGrid (getBlackMatrix image) sampleDimensionX sampleDimensionY transform).

Definition noVerticesFound : string := "No vertices found.".
Definition badModuleWidth : string := "Bad module width.".
Definition badDimension : string := "Bad dimension.".

(** Fuel handed to the row scans and to the wide-bar traces of one
    detection. *)
Definition scanFuel (matrix : BitMatrix) : nat := S (Z.to_nat (getHeight matrix)).
Definition traceFuel (matrix : BitMatrix) : nat :=
  (2 * Z.to_nat (getHeight matrix) + 4)%nat.

(** The second half of detect: everything it does once the vertex vector
    is complete. *)
Definition measureAndSample (image : BinaryBitmap) (vertices : Vertices)
    : Run DetectorResult :=
  moduleWidth ← lift (computeModuleWidth vertices);
  if F32.ltb moduleWidth (F32.of_int 1) then lift (Throw badModuleWidth)
  else
    v12 ← lift (vertex vertices 12);
    v14 ← lift (vertex vertices 14);
    v13 ← lift (vertex vertices 13);
    v15 ← lift (vertex vertices 15);
    let dimension := computeDimension v12 v14 v13 v15 moduleWidth in
    if dimension <? 1 then lift (Throw badDimension)
    else
      let yDimension :=
        Z.max (computeYDimension v12 v14 v13 v15 moduleWidth) dimension in
      (* Deskew and sample lines from image. *)
      linesMatrix ← sampleLines image vertices dimension yDimension;
      linesGrid ← call (CallLinesSampler dimension) (linesSampler linesMatrix dimension);
      let points :=
        [ mkResultPoint (F32.of_int 0) (F32.of_int (getHeight linesMatrix));
          mkResultPoint (F32.of_int 0) (F32.of_int 0);
          mkResultPoint (F32.of_int (getWidth linesMatrix)) (F32.of_int 0);
          mkResultPoint (F32.of_int (getWidth linesMatrix))
                        (F32.of_int (getHeight linesMatrix)) ] in
      mret (mkDetectorResult linesGrid points).

(** The first half of detect: the vertex search in both orientations and
    the correction of what it found. *)
Definition locateVertices (matrix : BitMatrix) : Run Vertices :=
  (* Try to find the vertices assuming the image is upright. *)
  let rowStep := 8 in
  vertices ← call (CallFindVertices rowStep)
               (findVertices (scanFuel matrix) matrix rowStep);
  if decide (vertices = []) then
    (* Maybe the image is rotated 180 degrees? *)
    vertices ← call (CallFindVertices180 rowStep)
                 (findVertices180 (scanFuel matrix) matrix rowStep);
    if decide (vertices ≠ []) then
      call (CallCorrectVertices true)
        (correctVertices (traceFuel matrix) matrix vertices true)
    else mret vertices
  else
    call (CallCorrectVertices false)
      (correctVertices (traceFuel matrix) matrix vertices false).

Definition detect (image : BinaryBitmap) : Run DetectorResult :=
  (* Fetch the 1 bit matrix once up front. *)
  let matrix := getBlackMatrix image in
  vertices ← locateVertices matrix;
  if decide (vertices = []) then lift (Throw noVerticesFound)
  else measureAndSample image vertices.

End Collaborators.

(** [ResultPoint::distance] as zxing's [MathUtils::distance] computes it:
    [sqrt(xDiff * xDiff + yDiff * yDiff)] in single precision. Used only to
    run the functions above on concrete points. *)
Definition euclidean (a b : ResultPoint) : float :=
  let xDiff := F32.sub (getX a) (getX b) in
  let yDiff := F32.sub (getY a) (getY b) in
  F32.sqrt (F32.add (F32.mul xDiff xDiff) (F32.mul yDiff yDiff)).

End Detector.

Import Detector.

(** * Specification-side definitions *)

(** ** The variance score in exact arithmetic *)

Definition sumZ (l : list Z) : Z := foldr Z.add 0 l.

(** Per-element deviations [|256 c - p u|] of the counters from the pattern
    at the scaled module width [u]. *)
Definition deviations (u : Z) (cs pattern : list Z) : list Z :=
  zip_with (fun c p => Z.abs (256 * c - p * u)) cs pattern.

(** The score as the specification words it, over unbounded integers. *)
Definition score (cs pattern : list Z) (maxIndividualVariance : Z) : Z :=
  let total := sumZ cs in
  let patternLength := sumZ pattern in
  if total <? patternLength then INT_MAX
  else
    let u := 256 * total / patternLength in
    let cap := maxIndividualVariance * u / 256 in
    let devs := deviations u cs pattern in
    if forallb (fun v => v <=? cap) devs then sumZ devs / total else INT_MAX.

(** Inputs on which no intermediate value leaves its C++ type: as many
    pattern elements as counters, counters non-negative, pattern elements
    positive, both totals below [2^15]. *)
Definition wellSized (cs pattern : list Z) : bool :=
  Nat.eqb (length pattern) (length cs)
  && forallb (fun c => 0 <=? c) cs
  && forallb (fun p => 0 <? p) pattern
  && (0 <? sumZ pattern)
  && (sumZ cs <? 2 ^ 15) && (sumZ pattern <? 2 ^ 15).

(** ** Vertex sets *)

Definition populated (v : Vertices) (i : nat) : Prop :=
  exists p, v !! i = Some (Some p).

(** Either the cleared vector, or sixteen slots of which 0-7 hold a point. *)
Definition allOrNone (v : Vertices) : Prop :=
  v = [] \/ (length v = COUNT_VERTICES /\ forall i, (i < 8)%nat -> populated v i).

(** What a row scan found, the scratch array left aside: [None] when the fuel
    ran out, [Some None] when no sampled row matched, [Some (Some (loc, i))]
    for a match [loc] in row [i]. *)
Definition scanKind (s : rowScan) : option (option (Z * Z * Z)) :=
  match s with
  | RowFuel => None
  | RowNone _ => Some None
  | RowHit loc i _ => Some (Some (loc, i))
  end.

(** The scratch array a finished scan hands back. *)
Definition scanCounters (s : rowScan) : option (list Z) :=
  match s with
  | RowFuel => None
  | RowNone cs => Some cs
  | RowHit _ _ cs => Some cs
  end.

Definition missed (s : rowScan) : Prop := scanKind s = Some None.

(** The four scans of findVertices, each started on a zeroed scratch array. *)
Section UprightScans.
Variable fuel : nat.
Variable matrix : BitMatrix.
Variable rowStep : Z.
Let height := to_size_t (getHeight matrix).
Let width := to_size_t (getWidth matrix).

Definition topLeftScan : rowScan :=
  rowsDown matrix height rowStep 0 width false START_PATTERN SIZEOF_START_PATTERN
    fuel (replicate SIZEOF_START_PATTERN 0) 0.
Definition bottomLeftScan : rowScan :=
  rowsUp matrix rowStep 0 width false START_PATTERN SIZEOF_START_PATTERN to_long
    fuel (replicate SIZEOF_START_PATTERN 0) (to_long (to_size_t (height - 1))).
Definition topRightScan : rowScan :=
  rowsDown matrix height rowStep 0 width false STOP_PATTERN SIZEOF_STOP_PATTERN
    fuel (replicate SIZEOF_STOP_PATTERN 0) 0.
Definition bottomRightScan : rowScan :=
  rowsUp matrix rowStep 0 width false STOP_PATTERN SIZEOF_STOP_PATTERN to_long
    fuel (replicate SIZEOF_STOP_PATTERN 0) (to_long (to_size_t (height - 1))).
End UprightScans.

(** The four scans of findVertices180, likewise. *)
Section RotatedScans.
Variable fuel : nat.
Variable matrix : BitMatrix.
Variable rowStep : Z.
Let height := to_size_t (getHeight matrix).
Let halfWidth := Z.shiftr (to_size_t (getWidth matrix)) 1.

Definition topLeftScan180 : rowScan :=
  rowsUp matrix rowStep halfWidth halfWidth true START_PATTERN_REVERSE
    SIZEOF_START_PATTERN_REVERSE to_int fuel
    (replicate SIZEOF_START_PATTERN_REVERSE 0) (to_int (to_size_t (height - 1))).
Definition bottomLeftScan180 : rowScan :=
  rowsDown matrix height rowStep halfWidth halfWidth true START_PATTERN_REVERSE
    SIZEOF_START_PATTERN_REVERSE fuel (replicate SIZEOF_START_PATTERN_REVERSE 0) 0.
Definition topRightScan180 : rowScan :=
  rowsUp matrix rowStep 0 halfWidth false STOP_PATTERN_REVERSE
    SIZEOF_STOP_PATTERN_REVERSE to_int fuel
    (replicate SIZEOF_STOP_PATTERN_REVERSE 0) (to_int (to_size_t (height - 1))).
Definition bottomRightScan180 : rowScan :=
  rowsDown matrix height rowStep 0 halfWidth false STOP_PATTERN_REVERSE
    SIZEOF_STOP_PATTERN_REVERSE fuel (replicate SIZEOF_STOP_PATTERN_REVERSE 0) 0.
End RotatedScans.

(** The vertex vector determined by what four scans found, [place1] to
    [place4] storing the points of a match. *)
Definition fourScans (k1 k2 k3 k4 : option (option (Z * Z * Z)))
    (place1 place2 place3 place4 : Z * Z -> Z -> Vertices -> Vertices)
    : outcome Vertices :=
  match k1, k2, k3, k4 with
  | None, _, _, _ => OutOfFuel
  | Some None, _, _, _ => Return []
  | Some (Some _), None, _, _ => OutOfFuel
  | Some (Some _), Some None, _, _ => Return []
  | Some (Some _), Some (Some _), None, _ => OutOfFuel
  | Some (Some _), Some (Some _), Some None, _ => Return []
  | Some (Some _), Some (Some _), Some (Some _), None => OutOfFuel
  | Some (Some _), Some (Some _), Some (Some _), Some None => Return []
  | Some (Some (loc1, i1)), Some (Some (loc2, i2)),
    Some (Some (loc3, i3)), Some (Some (loc4, i4)) =>
      Return (place4 loc4 i4 (place3 loc3 i3 (place2 loc2 i2
                (place1 loc1 i1 (replicate COUNT_VERTICES None)))))
  end.

(** The calls made once the vertex vector is complete. *)
Definition samplingCall (c : Call) : Prop :=
  match c with
  | CallQuadrilateralToQuadrilateral _ _ | CallSampleGrid _ _ | CallLinesSampler _ => True
  | _ => False
  end.

(** A [BitMatrix] as its constructor admits it: both dimensions at least 1
    and within [int]. *)
Definition validMatrix (matrix : BitMatrix) : Prop :=
  1 <= getWidth matrix < 2 ^ 31 /\ 1 <= getHeight matrix < 2 ^ 31.

(** Rows left before a wide-bar trace stepping by [rowStep] reaches the
    first or the last row. *)
Definition rowsAhead (matrix : BitMatrix) (rowStep : Z) (y : Z) : nat :=
  Z.to_nat (if rowStep >? 0 then getHeight matrix - 1 - y else y).

(** A point with integer coordinates. *)
Definition pt (x y : Z) : Point := mkPoint (F32.of_int x) (F32.of_int y).

(** The first eight slots hold points inside the image. *)
Definition cornersInside (matrix : BitMatrix) (v : Vertices) : bool :=
  forallb
    (fun slot =>
       match slot with
       | Some p => inBounds matrix (F32.to_int (getX p)) (F32.to_int (getY p))
       | None => false
       end)
    (take 8 v).

(** ** Integer-valued floats *)

(** [m * 2^n] on positive mantissas. *)
Definition shl (m : positive) (n : Z) : positive :=
  match n with
  | Zpos p => Pos.iter xO m p
  | _ => m
  end.

(** The canonical representation of a non-zero integer of at most [prec]
    bits. *)
Definition canon (prec : Z) (s : bool) (m : positive) : spec_float :=
  S754_finite s (shl m (prec - Zpos (digits2_pos m))) (Zpos (digits2_pos m) - prec).

(** A vertex vector whose left corner pairs lie only 12 rows apart. *)
Definition closeCorners : Vertices :=
  [point 4 8; point 4 20; point 73 8; point 73 31;
   point 21 8; point 21 20; point 55 8; point 55 31]
  ++ replicate 8 None.

(** ** A synthetic symbol *)

(** Pixels of a row given by its run lengths, starting with [black]. *)
Fixpoint runs (black : bool) (lengths : list nat) : list bool :=
  match lengths with
  | [] => []
  | n :: rest => replicate n black ++ runs (negb black) rest
  end.

(** One row at one pixel per module: quiet zone, start pattern, two
    codewords, stop pattern, quiet zone (77 pixels). *)
Definition symbolRow : list bool :=
  runs false [4; 8; 1; 1; 1; 1; 1; 1; 3;  3; 1; 1; 1; 1; 1; 4; 5;
              5; 2; 1; 3; 1; 1; 2; 2;  7; 1; 1; 3; 1; 1; 1; 2; 1;  4]%nat.

(** A 77 x 40 image: the row above in rows 2-37, white elsewhere. Outside
    its bounds the pixel test answers white. *)
Definition uprightSymbol : BitMatrix :=
  mkBitMatrix 77 40
    (fun x y =>
       if (2 <=? y) && (y <? 38) && (0 <=? x)
       then default false (symbolRow !! Z.to_nat x) else false).

(** The same image turned by 180 degrees. *)
Definition rotatedSymbol : BitMatrix :=
  mkBitMatrix 77 40
    (fun x y =>
       if inBounds uprightSymbol x y
       then get uprightSymbol (76 - x) (39 - y) else false).

Definition blankImage : BitMatrix := mkBitMatrix 64 48 (fun _ _ => false).

(** Stand-ins for the collaborators when the detector is run on the images
    above: the transform is the pair of quadrilaterals it was built from, the
    grid sampler returns a blank grid of the requested size, the lines
    sampler returns its input. *)
Definition quadPair (from to : Quad) : Quad * Quad := (from, to).
Definition blankGrid (image : BitMatrix) (dimensionX dimensionY : Z)
    (transform : Quad * Quad) : outcome BitMatrix :=
  Return (mkBitMatrix dimensionX dimensionY (fun _ _ => false)).
Definition sameLines (linesMatrix : BitMatrix) (dimension : Z) : outcome BitMatrix :=
  Return linesMatrix.

Definition detectWithStandIns (matrix : BitMatrix) : Run DetectorResult :=
  detect euclidean (Quad * Quad) quadPair blankGrid sameLines (mkBinaryBitmap matrix).


(** ** The guard-pattern scan *)

(** What holds of the scan state before column [x] is examined: the window
    has [patternLength] non-negative counters, those after the current one are
    0, and the counted pixels are exactly those from [patternStart] to
    [x - 1]. *)
Definition scanInv (column : Z) (patternLength : nat) (x : Z) (st : GuardScan) : Prop :=
  length (counters st) = patternLength
  /\ (counterPosition st < patternLength)%nat
  /\ Forall (fun c => 0 <= c) (counters st)
  /\ (forall i, (counterPosition st < i)%nat -> elem (counters st) i = 0)
  /\ column <= patternStart st
  /\ patternStart st + sumZ (counters st) = x.

(** Pixels [x, x + c0), [x + c0, x + c0 + c1), ... of [row] are runs of
    alternating colour, the first of colour [colour]. *)
Fixpoint runsAt (matrix : BitMatrix) (row x : Z) (colour : bool) (cs : list Z) : Prop :=
  match cs with
  | [] => True
  | c :: rest =>
      (forall k, x <= k < x + c -> get matrix k row = colour)
      /\ runsAt matrix row (x + c) (negb colour) rest
  end.

(** The counted runs are runs of the image: the window up to the current
    counter encodes the pixels from [patternStart], run 0 being of the colour
    the scan begins with, and every run after the first is non-empty. *)
Definition runInv (matrix : BitMatrix) (row : Z) (whiteFirst : bool)
    (st : GuardScan) : Prop :=
  isWhite st = xorb whiteFirst (Nat.odd (counterPosition st))
  /\ runsAt matrix row (patternStart st) (negb whiteFirst)
       (take (S (counterPosition st)) (counters st))
  /\ (forall i, (1 <= i <= counterPosition st)%nat -> 1 <= elem (counters st) i).

(** What a located span satisfies. *)
Definition spanFacts (matrix : BitMatrix) (row column : Z) (whiteFirst : bool)
    (L : nat) (s e : Z) (window : list Z) : Prop :=
  column <= s
  /\ s + sumZ window = e
  /\ length window = L
  /\ Forall (fun c => 0 <= c) window
  /\ (forall i, (1 <= i < L)%nat -> 1 <= elem window i)
  /\ get matrix e row = xorb whiteFirst (Nat.odd (L - 1))
  /\ runsAt matrix row s (negb whiteFirst) window.

(** ** Where the vertices lie *)

(** A span [(s, e)] of at least [total] pixels inside columns [lo .. hi - 1]. *)
Definition spanOf (total lo hi : Z) (loc : Z * Z) : Prop :=
  lo <= loc.1 /\ loc.1 + total <= loc.2 /\ loc.2 < hi.

(** Rows the top-down loops sample: the multiples of [rowStep] below the
    height. Rows the bottom-up loops sample: those a multiple of [rowStep]
    above the last row, row 0 excluded. *)
Definition sampledDown (matrix : BitMatrix) (rowStep i : Z) : Prop :=
  0 <= i < getHeight matrix /\ i mod rowStep = 0.
Definition sampledUp (matrix : BitMatrix) (rowStep i : Z) : Prop :=
  0 < i < getHeight matrix /\ (getHeight matrix - 1 - i) mod rowStep = 0.

(** ** The corrected vertex vector *)

(** The point rounds to a pixel of the image. *)
Definition roundsInside (matrix : BitMatrix) (p : ResultPoint) : Prop :=
  inBounds matrix (round (getX p)) (round (getY p)) = true.

(** Sixteen slots of which the first eight hold a point: what the vertex
    searches hand to correctVertices. *)
Definition eightFound (v : Vertices) : Prop :=
  length v = COUNT_VERTICES /\ forall i, (i < 8)%nat -> populated v i.

(** The messages of the exceptions the detector itself throws. *)
Definition detectorMessages : list string :=
  [noVerticesFound; notEnoughGuardPatterns; parallelLines; outOfRegion;
   badModuleWidth; badDimension].

(** An outcome with its result forgotten: how the call ended. *)
Definition ending {A : Type} (o : outcome A) : outcome unit :=
  match o with
  | Return _ => Return tt
  | Throw what => Throw what
  | Fault => Fault
  | OutOfFuel => OutOfFuel
  end.

(** The ways a detection may end: with a result, with one of the detector's
    own exceptions, or the way a call to one of the two samplers ended. *)
Definition ownEnding {PerspectiveTransform : Type}
    (sampleGrid : BitMatrix -> Z -> Z -> PerspectiveTransform -> outcome BitMatrix)
    (linesSampler : BitMatrix -> Z -> outcome BitMatrix)
    (matrix : BitMatrix) (e : outcome unit) : Prop :=
  e = Return tt
  \/ (exists what, what ∈ detectorMessages /\ e = Throw what)
  \/ (exists x y t, e = ending (sampleGrid matrix x y t))
  \/ (exists m d, e = ending (linesSampler m d)).

(** ** More synthetic images *)

(** The upright symbol cropped to the 17 columns of its start pattern. *)
Definition startOnly : BitMatrix :=
  mkBitMatrix 17 40 (fun x y => get uprightSymbol (x + 4) y).

(** An all-black image. *)
Definition blackImage : BitMatrix := mkBitMatrix 40 30 (fun _ _ => true).

(** Twenty rows out of the middle of the upright symbol. *)
Definition lowImage : BitMatrix :=
  mkBitMatrix 77 20 (fun x y => get uprightSymbol x (y + 10)).

(** ** The wide-bar trace *)

(** A pixel read in one of the image's rows. *)
Definition rowInside (matrix : BitMatrix) (xy : Z * Z) : Prop :=
  0 <= xy.2 < getHeight matrix.

(** Row [y] lies on the side of [yStart] towards which [rowStep] points, at
    most one row beyond the image. *)
Definition tracedTo (matrix : BitMatrix) (rowStep yStart y : Z) : Prop :=
  -1 <= y <= getHeight matrix
  /\ (rowStep = 1 -> yStart <= y) /\ (rowStep = -1 -> y <= yStart).

(** ** The result of a detection *)

(** The corners of a sampled grid in the order detect lists them. *)
Definition cornersOf (linesMatrix : BitMatrix) : list ResultPoint :=
  [ mkResultPoint (F32.of_int 0) (F32.of_int (getHeight linesMatrix));
    mkResultPoint (F32.of_int 0) (F32.of_int 0);
    mkResultPoint (F32.of_int (getWidth linesMatrix)) (F32.of_int 0);
    mkResultPoint (F32.of_int (getWidth linesMatrix))
                  (F32.of_int (getHeight linesMatrix)) ].

(** ** Parallel lines *)

(** A float that is a number: zero or finite. *)
Definition finiteValue (f : float) : bool :=
  match f with
  | S754_zero _ | S754_finite _ _ _ => true
  | _ => false
  end.

(** ** The windows a guard-pattern scan can examine *)

(** Like [runsAt], with every run closed: non-negative in length and
    followed by a pixel of the other colour. *)
Fixpoint runsClosed (matrix : BitMatrix) (row x : Z) (colour : bool) (cs : list Z)
    : Prop :=
  match cs with
  | [] => True
  | c :: rest =>
      0 <= c
      /\ (forall k, x <= k < x + c -> get matrix k row = colour)
      /\ get matrix (x + c) row = negb colour
      /\ runsClosed matrix row (x + c) (negb colour) rest
  end.

(** A candidate window of a scan of columns [column .. column + width - 1]:
    [L] closed runs from column [s], the first of the colour the scan counts
    first, the pixel that closes the last run still inside the scanned
    columns; [s] is the first scanned column or the first pixel of a run of
    that colour. *)
Definition candidate (matrix : BitMatrix) (row column width : Z) (whiteFirst : bool)
    (L : nat) (s : Z) (w : list Z) : Prop :=
  length w = L
  /\ column <= s /\ s + sumZ w < column + width
  /\ runsClosed matrix row s (negb whiteFirst) w
  /\ (s = column
      \/ (get matrix (s - 1) row = whiteFirst /\ get matrix s row = negb whiteFirst)).

(** No candidate window left of column [s] passes the variance test. *)
Definition noneBefore (matrix : BitMatrix) (row column width : Z) (whiteFirst : bool)
    (pattern : list Z) (L : nat) (s : Z) : Prop :=
  forall s' w', candidate matrix row column width whiteFirst L s' w' -> s' < s ->
    windowMatches w' pattern = false.

(** ** Rows in which a guard pattern is found *)

(** findGuardPattern finds [pattern] in row [i], scanning [width] columns
    from [column]. *)
Definition foundIn (matrix : BitMatrix) (column width : Z) (whiteFirst : bool)
    (pattern : list Z) (i : Z) : Prop :=
  (findGuardPattern matrix column i width whiteFirst pattern (length pattern)
     (replicate (length pattern) 0)).1 <> None.

(** ** What the corner correction stores *)

(** The wide-bar trace between slots [offsetVertice] and [offsetVertice + 4]
    of [v] ends at pixel [(x, y)], which it stores in slot
    [offsetVertice + 8]. *)
Definition tracedEnd (fuel : nat) (matrix : BitMatrix) (v : Vertices)
    (offsetVertice : nat) (startWideBar lenWideBar lenPattern rowStep x y : Z)
    : Prop :=
  (findWideBarTopBottom fuel matrix v offsetVertice startWideBar lenWideBar
     lenPattern rowStep).1
  = Return (<[(offsetVertice + 8)%nat := point x y]> v).

(** A crossing point as a vertex slot holds it. *)
Definition crossing (c : Point) : option ResultPoint :=
  Some (mkResultPoint (px c) (py c)).

(** [v'] is [v] with slots 8 to 15 filled by the correction: slots 8 to 11
    hold the ends of the traces of the wide bars of the start pattern (slots
    0 and 1, bar at modules 0 to 8 of 17) and of the stop pattern (slots 2
    and 3, bar at modules 11 to 18 of 18), the traces from the upper corners
    running upwards and those from the lower corners downwards in an upright
    symbol, the other way round in one upside down; slots 12 to 15 hold the
    crossings of the left codeword edge (4, 5) and of the right codeword edge
    (6, 7) with the line through the upper trace ends (8, 10) and with the
    line through the lower ones (9, 11). *)
Definition tracedAndCrossed (fuel : nat) (matrix : BitMatrix) (v : Vertices)
    (upsideDown : bool) (v' : Vertices) : Prop :=
  exists p4 p5 p6 p7 x8 y8 x9 y9 x10 y10 x11 y11 c12 c13 c14 c15,
    v !! 4%nat = Some (Some p4) /\ v !! 5%nat = Some (Some p5)
    /\ v !! 6%nat = Some (Some p6) /\ v !! 7%nat = Some (Some p7)
    /\ tracedEnd fuel matrix v 0 0 8 17 (if upsideDown then 1 else -1) x8 y8
    /\ tracedEnd fuel matrix v 1 0 8 17 (if upsideDown then -1 else 1) x9 y9
    /\ tracedEnd fuel matrix v 2 11 7 18 (if upsideDown then 1 else -1) x10 y10
    /\ tracedEnd fuel matrix v 3 11 7 18 (if upsideDown then -1 else 1) x11 y11
    /\ crossingOf matrix (pointOf p4) (pointOf p5) (pt x8 y8) (pt x10 y10)
       = Return c12
    /\ crossingOf matrix (pointOf p4) (pointOf p5) (pt x9 y9) (pt x11 y11)
       = Return c13
    /\ crossingOf matrix (pointOf p6) (pointOf p7) (pt x8 y8) (pt x10 y10)
       = Return c14
    /\ crossingOf matrix (pointOf p6) (pointOf p7) (pt x9 y9) (pt x11 y11)
       = Return c15
    /\ v' = take 8 v
            ++ [point x8 y8; point x9 y9; point x10 y10; point x11 y11;
                crossing c12; crossing c13; crossing c14; crossing c15].


(** ** The row dimension as the specification words it *)




(** ** An image that differs from [rotatedSymbol] outside its bounds only *)




(** * Lemmas and theorems *)

(** ** Machine integers *)

Lemma to_int_small (z : Z) : - 2 ^ 31 <= z < 2 ^ 31 -> to_int z = z.
Proof. intros H. unfold to_int. rewrite Z.mod_small by lia. lia. Qed.

Lemma to_long_small (z : Z) : - 2 ^ 63 <= z < 2 ^ 63 -> to_long z = z.
Proof. intros H. unfold to_long. rewrite Z.mod_small by lia. lia. Qed.

Lemma to_size_t_small (z : Z) : 0 <= z < 2 ^ 64 -> to_size_t z = z.
Proof. intros H. unfold to_size_t. now rewrite Z.mod_small. Qed.

Lemma to_int_range (z : Z) : INT_MIN <= to_int z <= INT_MAX.
Proof.
  unfold to_int, INT_MIN, INT_MAX.
  pose proof (Z.mod_pos_bound (z + 2 ^ 31) (2 ^ 32) ltac:(lia)). lia.
Qed.

(** ** The variance score *)

Lemma sumZ_nonneg (l : list Z) :
  forallb (fun c => 0 <=? c) l = true -> 0 <= sumZ l.
Proof.
  induction l as [|a l IH]; simpl; [lia|].
  intros [Ha Hl]%andb_true_iff. specialize (IH Hl). lia.
Qed.

Lemma forallb_pos_nonneg (l : list Z) :
  forallb (fun p => 0 <? p) l = true -> forallb (fun c => 0 <=? c) l = true.
Proof.
  induction l as [|a l IH]; simpl; [done|].
  intros [Ha Hl]%andb_true_iff. rewrite IH by done. 
  apply andb_true_iff; split; [lia|done].
Qed.

Lemma sumLoop_exact (pattern : list Z) :
  forall (cs ps : list Z) (i : nat) (total patternLength : Z),
    drop i pattern = ps ->
    length ps = length cs ->
    forallb (fun c => 0 <=? c) cs = true ->
    forallb (fun c => 0 <=? c) ps = true ->
    0 <= total -> 0 <= patternLength ->
    total + sumZ cs < 2 ^ 64 ->
    patternLength + sumZ ps < 2 ^ 64 ->
    sumLoop pattern cs i total patternLength
    = (total + sumZ cs, patternLength + sumZ ps).
Proof.
  intros cs; induction cs as [|c cs IH]; intros ps i total pl Hd Hlen Hc Hp Ht Hpl Hb1 Hb2.
  - destruct ps; [|done]. simpl. f_equal; lia.
  - destruct ps as [|p ps]; [done|].
    simpl in Hc, Hp, Hb1, Hb2, Hlen.
    apply andb_true_iff in Hc as [Hc Hcs]. apply andb_true_iff in Hp as [Hp Hps].
    pose proof (sumZ_nonneg _ Hcs). pose proof (sumZ_nonneg _ Hps).
    assert (He : elem pattern i = p).
    { unfold elem. rewrite <- (Nat.add_0_r i), <- lookup_drop, Hd. done. }
    cbn [sumLoop]. rewrite He.
    rewrite (to_size_t_small c) by lia. rewrite (to_size_t_small p) by lia.
    rewrite (to_size_t_small (total + c)) by lia.
    rewrite (to_size_t_small (pl + p)) by lia.
    assert (Hd' : drop (S i) pattern = ps).
    { replace (S i) with (i + 1)%nat by lia. rewrite <- drop_drop, Hd. done. }
    rewrite (IH ps (S i) _ _ Hd'); simpl; try done; try lia.
    f_equal; lia.
Qed.

Lemma variance_exact (c p u : Z) :
  0 <= c -> 256 * c < 2 ^ 31 -> 0 <= p * u < 2 ^ 31 ->
  variance c p u = Z.abs (256 * c - p * u).
Proof.
  intros Hc Hc' Hpu. unfold variance.
  rewrite Z.shiftl_mul_pow2 by lia. change (2 ^ 8) with 256.
  rewrite (to_int_small (c * 256)) by lia.
  rewrite (to_int_small (p * u)) by lia.
  destruct (Z.gtb_spec (c * 256) (p * u)); rewrite to_int_small; lia.
Qed.

Lemma deviations_sum_bound (u : Z) (cs ps : list Z) :
  0 <= u ->
  forallb (fun c => 0 <=? c) cs = true ->
  forallb (fun c => 0 <=? c) ps = true ->
  0 <= sumZ (deviations u cs ps) <= 256 * sumZ cs + u * sumZ ps.
Proof.
  intros Hu. revert ps. induction cs as [|c cs IH]; intros [|p ps] Hc Hp.
  - simpl. lia.
  - pose proof (sumZ_nonneg _ Hp) as Hs. unfold deviations, sumZ in *. simpl in *. nia.
  - pose proof (sumZ_nonneg _ Hc) as Hs. unfold deviations, sumZ in *. simpl in *. nia.
  - simpl in Hc, Hp.
    apply andb_true_iff in Hc as [Hc Hcs]. apply andb_true_iff in Hp as [Hp Hps].
    specialize (IH ps Hcs Hps). unfold deviations, sumZ in *. simpl in *. nia.
Qed.

Lemma varianceLoop_exact (pattern : list Z) (u cap : Z) :
  forall (cs ps : list Z) (x : nat) (tv : Z),
    drop x pattern = ps ->
    Forall2 (fun c p => 0 <= c /\ 256 * c < 2 ^ 31 /\ 0 <= p * u < 2 ^ 31) cs ps ->
    0 <= tv ->
    tv + sumZ (deviations u cs ps) < 2 ^ 31 ->
    varianceLoop pattern u cap cs x tv
    = if forallb (fun v => v <=? cap) (deviations u cs ps)
      then Some (tv + sumZ (deviations u cs ps)) else None.
Proof.
  intros cs; induction cs as [|c cs IH]; intros ps x tv Hd HF Htv Hsum.
  - inversion HF; subst. simpl. f_equal; lia.
  - destruct ps as [|p ps']; [inversion HF|].
    apply Forall2_cons in HF as [(Hc & Hc' & Hpu) HF'].
    assert (He : elem pattern x = p).
    { unfold elem. rewrite <- (Nat.add_0_r x), <- lookup_drop, Hd. done. }
    assert (Hd' : drop (S x) pattern = ps').
    { replace (S x) with (x + 1)%nat by lia. rewrite <- drop_drop, Hd. done. }
    cbn [varianceLoop]. rewrite He, variance_exact by done.
    unfold deviations in *. cbn [zip_with forallb foldr sumZ] in *.
    set (v := Z.abs (256 * c - p * u)) in *.
    assert (0 <= sumZ (zip_with (fun c p => Z.abs (256 * c - p * u)) cs ps')).
    { clear. revert ps'. induction cs as [|a cs IH]; intros [|b ps'];
        cbn [zip_with foldr sumZ]; try lia.
      specialize (IH ps'). unfold sumZ in IH. lia. }
    unfold sumZ in *.
    rewrite Z.gtb_ltb.
    destruct (Z.ltb_spec cap v) as [Hgt|Hle], (Z.leb_spec v cap) as [Hle'|Hgt']; try lia.
    + done.
    + cbn [andb].
      rewrite (to_int_small (tv + v)) by lia.
      rewrite (IH ps' (S x)); try done; try lia.
      replace (tv + v + foldr Z.add 0 (zip_with (fun c p => Z.abs (256 * c - p * u)) cs ps'))
        with (tv + (v + foldr Z.add 0 (zip_with (fun c p => Z.abs (256 * c - p * u)) cs ps')))
        by lia.
      done.
Qed.

Lemma elem_le_sum (l : list Z) :
  forallb (fun c => 0 <=? c) l = true -> Forall (fun c => 0 <= c <= sumZ l) l.
Proof.
  induction l as [|a l IH]; simpl; [constructor|].
  intros [Ha Hl]%andb_true_iff. pose proof (sumZ_nonneg _ Hl).
  constructor; [lia|]. eapply Forall_impl; [exact (IH Hl)|]. simpl. intros; lia.
Qed.

Lemma Forall2_of_Forall {A B} (P : A -> Prop) (Q : B -> Prop) (l : list A) (k : list B) :
  length k = length l -> Forall P l -> Forall Q k ->
  Forall2 (fun a b => P a /\ Q b) l k.
Proof.
  revert k. induction l as [|a l IH]; intros [|b k] Hlen HP HQ; try done.
  apply Forall_cons in HP as [? ?]. apply Forall_cons in HQ as [? ?].
  constructor; [done|]. apply IH; auto.
Qed.

Lemma wellSized_facts (cs pattern : list Z) :
  wellSized cs pattern = true ->
  length pattern = length cs
  /\ forallb (fun c => 0 <=? c) cs = true
  /\ forallb (fun p => 0 <? p) pattern = true
  /\ 0 < sumZ pattern < 2 ^ 15 /\ 0 <= sumZ cs < 2 ^ 15.
Proof.
  unfold wellSized. rewrite !andb_true_iff.
  intros [[[[[H1 H2] H3] H4] H5] H6].
  apply Nat.eqb_eq in H1. pose proof (sumZ_nonneg _ H2). repeat split; try done; lia.
Qed.

(** On well-sized inputs the C++ arithmetic computes the exact score. *)
Lemma patternMatchVariance_exact (cs pattern : list Z) (maxIndividualVariance : Z) :
  wellSized cs pattern = true ->
  0 <= maxIndividualVariance <= 256 ->
  patternMatchVariance cs pattern maxIndividualVariance
  = score cs pattern maxIndividualVariance.
Proof.
  intros (Hlen & Hc & Hp & HP & HT)%wellSized_facts Hmiv.
  pose proof (forallb_pos_nonneg _ Hp) as Hp0.
  unfold patternMatchVariance, score.
  rewrite (sumLoop_exact pattern cs pattern 0 0 0); try done; try lia.
  rewrite !Z.add_0_l.
  destruct (Z.ltb_spec (sumZ cs) (sumZ pattern)) as [|Hle]; [done|].
  set (T := sumZ cs) in *. set (P := sumZ pattern) in *.
  assert (Hu : unitBarWidth T P = 256 * T / P).
  { unfold unitBarWidth. rewrite Z.shiftl_mul_pow2 by lia. change (2 ^ 8) with 256.
    rewrite to_size_t_small by lia.
    assert (0 <= T * 256 / P <= T * 256).
    { split; [apply Z.div_pos; lia|]. apply Z.div_le_upper_bound; nia. }
    rewrite to_int_small by lia. f_equal; lia. }
  rewrite Hu. set (u := 256 * T / P).
  assert (Hu0 : 0 <= u) by (apply Z.div_pos; lia).
  assert (HPu : P * u <= 256 * T) by (apply Z.mul_div_le; lia).
  assert (Hcap : scaledCap maxIndividualVariance u = maxIndividualVariance * u / 256).
  { unfold scaledCap. rewrite to_int_small by nia. rewrite Z.shiftr_div_pow2 by lia. done. }
  rewrite Hcap.
  pose proof (deviations_sum_bound u cs pattern Hu0 Hc Hp0) as Hdev.
  fold T P in Hdev.
  rewrite (varianceLoop_exact pattern u _ cs pattern 0 0); try done; try lia.
  - rewrite Z.add_0_l.
    destruct (forallb _ (deviations u cs pattern)); [|done].
    rewrite to_size_t_small by lia.
    assert (0 <= sumZ (deviations u cs pattern) / T <= sumZ (deviations u cs pattern)).
    { split; [apply Z.div_pos; lia|]. apply Z.div_le_upper_bound; nia. }
    rewrite to_int_small; lia.
  - pose proof (elem_le_sum _ Hc) as Fc. pose proof (elem_le_sum _ Hp0) as Fp.
    fold T in Fc. fold P in Fp.
    eapply Forall2_impl; [apply (Forall2_of_Forall _ _ _ _ Hlen Fc Fp)|].
    simpl. intros c p [Hc1 Hp1]. repeat split; try nia.
Qed.

Lemma constants_value : MAX_INDIVIDUAL_VARIANCE = 204 /\ MAX_AVG_VARIANCE = 107.
Proof. split; vm_compute; reflexivity. Qed.

Lemma capped_iff (cap : Z) (l : list Z) :
  forallb (fun v => v <=? cap) l = true <-> (forall v, v ∈ l -> v <= cap).
Proof.
  rewrite forallb_forall. split; intros H v Hv.
  - apply list_elem_of_In, H in Hv. lia.
  - apply list_elem_of_In, H in Hv. lia.
Qed.

Lemma guardStep_match (matrix : BitMatrix) (row : Z) (pattern : list Z)
    (patternLength : nat) (x : Z) (st : GuardScan) :
  (exists loc, guardStep matrix row pattern patternLength x st = inl loc)
  <-> (xorb (get matrix x row) (isWhite st) = false
       /\ counterPosition st = (patternLength - 1)%nat
       /\ patternMatchVariance (counters st) pattern MAX_INDIVIDUAL_VARIANCE
          < MAX_AVG_VARIANCE).
Proof.
  unfold guardStep, windowMatches.
  destruct (xorb _ _); [split; [intros [? ?]; done | intros [? _]; done]|].
  destruct (Nat.eqb_spec (counterPosition st) (patternLength - 1)) as [E|E].
  - destruct (Z.ltb_spec (patternMatchVariance (counters st) pattern MAX_INDIVIDUAL_VARIANCE)
                MAX_AVG_VARIANCE).
    + split; [done | intros _; eauto].
    + split; [intros [? ?]; done | intros (_ & _ & ?); lia].
  - split; [intros [? ?]; done | intros (_ & ? & _); done].
Qed.

(** The three outcomes of the score on well-sized inputs. *)
Lemma score_cases (cs pattern : list Z) :
  wellSized cs pattern = true ->
  let total := sumZ cs in
  let patternLength := sumZ pattern in
  let u := 256 * total / patternLength in
  let cap := MAX_INDIVIDUAL_VARIANCE * u / 256 in
  let devs := deviations u cs pattern in
  let result := patternMatchVariance cs pattern MAX_INDIVIDUAL_VARIANCE in
  (total < patternLength -> result = INT_MAX)
  /\ (patternLength <= total -> (exists v, v ∈ devs /\ cap < v) -> result = INT_MAX)
  /\ (patternLength <= total -> (forall v, v ∈ devs -> v <= cap) ->
      result = sumZ devs / total).
Proof.
  intros Hw total patternLength u cap devs result.
  destruct constants_value as [E1 E2].
  assert (Hr : result = score cs pattern MAX_INDIVIDUAL_VARIANCE).
  { apply patternMatchVariance_exact; [done | rewrite E1; lia]. }
  unfold score in Hr. fold total patternLength u cap devs in Hr.
  split; [|split].
  - intros Hlt. rewrite Hr. destruct (Z.ltb_spec total patternLength); [done | lia].
  - intros Hle (v & Hv & Hcap). rewrite Hr.
    destruct (Z.ltb_spec total patternLength); [done|].
    destruct (forallb (fun v => v <=? cap) devs) eqn:Hall; [|done].
    rewrite capped_iff in Hall. specialize (Hall v Hv). lia.
  - intros Hle Hall. rewrite Hr.
    destruct (Z.ltb_spec total patternLength); [lia|].
    apply capped_iff in Hall. rewrite Hall. done.
Qed.

Lemma sumZ_scale (k : Z) (l : list Z) : sumZ (map (Z.mul k) l) = k * sumZ l.
Proof. induction l as [|a l IH]; unfold sumZ in *; simpl; [lia|]. rewrite IH. lia. Qed.

Lemma deviations_scale (k u : Z) (cs ps : list Z) :
  0 <= k ->
  deviations (k * u) (map (Z.mul k) cs) ps = map (Z.mul k) (deviations u cs ps).
Proof.
  intros Hk. unfold deviations. revert ps.
  induction cs as [|c cs IH]; intros [|p ps]; simpl; try done.
  rewrite IH. f_equal.
  replace (256 * (k * c) - p * (k * u)) with (k * (256 * c - p * u)) by lia.
  rewrite Z.abs_mul. lia.
Qed.

Lemma nonneg_unscale (k : Z) (l : list Z) :
  0 < k ->
  forallb (fun c => 0 <=? c) (map (Z.mul k) l) = true ->
  forallb (fun c => 0 <=? c) l = true.
Proof.
  intros Hk. induction l as [|a l IH]; simpl; [done|].
  intros [Ha Hl]%andb_true_iff. rewrite IH by done.
  apply andb_true_iff; split; [|done]. apply Z.leb_le. apply Z.leb_le in Ha. nia.
Qed.

Lemma wellSized_unscale (k : Z) (cs pattern : list Z) :
  0 < k -> wellSized (map (Z.mul k) cs) pattern = true -> wellSized cs pattern = true.
Proof.
  intros Hk Hw. pose proof (wellSized_facts _ _ Hw) as (Hlen & Hc & Hp & HP & HT).
  rewrite length_map in Hlen. rewrite sumZ_scale in HT.
  apply nonneg_unscale in Hc; [|done]. pose proof (sumZ_nonneg _ Hc).
  unfold wellSized. rewrite Hc, Hp, Hlen, Nat.eqb_refl. simpl.
  repeat (apply andb_true_iff; split); try lia; apply Z.ltb_lt; nia.
Qed.

Lemma capped_scale (k cap' cap : Z) (l : list Z) :
  0 < k -> k * cap <= cap' ->
  forallb (fun v => v <=? cap) l = true ->
  forallb (fun v => v <=? cap') (map (Z.mul k) l) = true.
Proof.
  intros Hk Hcap. induction l as [|a l IH]; simpl; [done|].
  intros [Ha Hl]%andb_true_iff. rewrite IH by done.
  apply andb_true_iff; split; [|done]. apply Z.leb_le. apply Z.leb_le in Ha. nia.
Qed.

(** ** The scratch array of the row scans *)

Lemma shiftLoop_length (n i : nat) (cs : list Z) :
  length (shiftLoop n i cs) = length cs.
Proof.
  revert i cs. induction n as [|n IH]; intros i cs; simpl; [done|].
  rewrite IH, length_insert. done.
Qed.

Lemma guardStep_length (matrix : BitMatrix) (row : Z) (pattern : list Z)
    (patternLength : nat) (x : Z) (st st' : GuardScan) :
  guardStep matrix row pattern patternLength x st = inr st' ->
  length (counters st') = length (counters st).
Proof.
  unfold guardStep.
  destruct (xorb _ _); [intros [= <-]; simpl; by rewrite length_insert|].
  destruct (Nat.eqb _ _).
  - destruct (windowMatches _ _); [done|].
    intros [= <-]. simpl. by rewrite !length_insert, shiftLoop_length.
  - intros [= <-]. simpl. by rewrite length_insert.
Qed.

Lemma guardLoop_length (matrix : BitMatrix) (row : Z) (pattern : list Z)
    (patternLength : nat) (n : nat) (x : Z) (st : GuardScan) :
  length (guardLoop matrix row pattern patternLength n x st).2 = length (counters st).
Proof.
  revert x st. induction n as [|n IH]; intros x st; simpl; [done|].
  destruct (guardStep _ _ _ _ _ _) as [loc|st'] eqn:E; [done|].
  rewrite IH. eauto using guardStep_length.
Qed.

Lemma findGuardPattern_length (matrix : BitMatrix) (column row width : Z)
    (whiteFirst : bool) (pattern : list Z) (patternSize : nat) (cs : list Z) :
  length (findGuardPattern matrix column row width whiteFirst pattern patternSize cs).2
  = length cs.
Proof. unfold findGuardPattern. rewrite guardLoop_length. simpl. apply length_replicate. Qed.

(** The array is overwritten on entry: only its size matters. *)
Lemma findGuardPattern_scratch (matrix : BitMatrix) (column row width : Z)
    (whiteFirst : bool) (pattern : list Z) (patternSize : nat) (cs1 cs2 : list Z) :
  length cs1 = length cs2 ->
  findGuardPattern matrix column row width whiteFirst pattern patternSize cs1
  = findGuardPattern matrix column row width whiteFirst pattern patternSize cs2.
Proof. intros E. unfold findGuardPattern. by rewrite E. Qed.

Section RowLoopFacts.
Variable matrix : BitMatrix.
Variables height rowStep column width : Z.
Variable whiteFirst : bool.
Variable pattern : list Z.
Variable patternSize : nat.

Local Abbreviation down := (rowsDown matrix height rowStep column width whiteFirst
                          pattern patternSize).
Local Abbreviation up := (rowsUp matrix rowStep column width whiteFirst
                        pattern patternSize).

Lemma rowsDown_kind (fuel : nat) (cs1 cs2 : list Z) (i : Z) :
  length cs1 = length cs2 ->
  scanKind (down fuel cs1 i) = scanKind (down fuel cs2 i).
Proof.
  intros E. destruct fuel as [|fuel]; simpl; [done|].
  rewrite (findGuardPattern_scratch _ _ _ _ _ _ _ cs1 cs2 E).
  destruct (i <? height); [|done].
  destruct (findGuardPattern _ _ _ _ _ _ _ _) as [[loc|] cs']; done.
Qed.

Lemma rowsUp_kind (conv : Z -> Z) (fuel : nat) (cs1 cs2 : list Z) (i : Z) :
  length cs1 = length cs2 ->
  scanKind (up conv fuel cs1 i) = scanKind (up conv fuel cs2 i).
Proof.
  intros E. destruct fuel as [|fuel]; simpl; [done|].
  rewrite (findGuardPattern_scratch _ _ _ _ _ _ _ cs1 cs2 E).
  destruct (i >? 0); [|done].
  destruct (findGuardPattern _ _ _ _ _ _ _ _) as [[loc|] cs']; done.
Qed.

Lemma rowsDown_length (fuel : nat) (cs : list Z) (i : Z) :
  forall cs', scanCounters (down fuel cs i) = Some cs' -> length cs' = length cs.
Proof.
  revert cs i. induction fuel as [|fuel IH]; intros cs i cs'; simpl; [done|].
  destruct (i <? height); [|by intros [= <-]].
  pose proof (findGuardPattern_length matrix column i width whiteFirst pattern
                patternSize cs) as Hl.
  destruct (findGuardPattern _ _ _ _ _ _ _ _) as [[loc|] cs1]; simpl in *.
  - by intros [= <-].
  - intros H. apply IH in H. lia.
Qed.

Lemma rowsUp_length (conv : Z -> Z) (fuel : nat) (cs : list Z) (i : Z) :
  forall cs', scanCounters (up conv fuel cs i) = Some cs' -> length cs' = length cs.
Proof.
  revert cs i. induction fuel as [|fuel IH]; intros cs i cs'; simpl; [done|].
  destruct (i >? 0); [|by intros [= <-]].
  pose proof (findGuardPattern_length matrix column (to_size_t i) width whiteFirst
                pattern patternSize cs) as Hl.
  destruct (findGuardPattern _ _ _ _ _ _ _ _) as [[loc|] cs1]; simpl in *.
  - by intros [= <-].
  - intros H. apply IH in H. lia.
Qed.

(** With a positive step below [2^31] and a height within [int], a scan
    given more fuel than rows left finishes. *)
Lemma rowsDown_finishes (fuel : nat) (cs : list Z) (i : Z) :
  0 < rowStep < 2 ^ 31 -> 0 <= height < 2 ^ 31 -> 0 <= i ->
  (Z.to_nat (height - i) < fuel)%nat ->
  scanKind (down fuel cs i) <> None.
Proof.
  intros Hs Hh. revert cs i. induction fuel as [|fuel IH]; intros cs i Hi Hf; [lia|].
  simpl. destruct (Z.ltb_spec i height); [|done].
  destruct (findGuardPattern _ _ _ _ _ _ _ _) as [[loc|] cs1]; [done|].
  rewrite to_size_t_small by lia. apply IH; lia.
Qed.

Lemma rowsUp_finishes (conv : Z -> Z) (fuel : nat) (cs : list Z) (i : Z) :
  (forall z, - 2 ^ 31 <= z < 2 ^ 31 -> conv (to_size_t z) = z) ->
  0 < rowStep < 2 ^ 31 -> i < 2 ^ 31 ->
  (Z.to_nat i < fuel)%nat ->
  scanKind (up conv fuel cs i) <> None.
Proof.
  intros Hconv Hs. revert cs i. induction fuel as [|fuel IH]; intros cs i Hi Hf; [lia|].
  simpl. destruct (Z.gtb_spec i 0); [|done].
  destruct (findGuardPattern _ _ _ _ _ _ _ _) as [[loc|] cs1]; [done|].
  rewrite (to_size_t_small i) by lia.
  rewrite Hconv by lia. apply IH; lia.
Qed.
(** A match of a downward scan: the row it reports is one of the sampled
    rows, and findGuardPattern matches there. *)
Lemma rowsDown_hit (fuel : nat) (cs : list Z) (i0 : Z) (loc : Z * Z) (i : Z) :
  0 < rowStep < 2 ^ 31 -> 0 <= height < 2 ^ 31 -> 0 <= i0 ->
  scanKind (down fuel cs i0) = Some (Some (loc, i)) ->
  i0 <= i < height /\ (i - i0) mod rowStep = 0
  /\ (findGuardPattern matrix column i width whiteFirst pattern patternSize
        (replicate (length cs) 0)).1 = Some loc.
Proof.
  intros Hs Hh. revert cs i0. induction fuel as [|fuel IH]; intros cs i0 Hi0; [done|].
  simpl. destruct (Z.ltb_spec i0 height); [|done].
  rewrite (findGuardPattern_scratch _ _ _ _ _ _ _ cs (replicate (length cs) 0))
    by (by rewrite length_replicate).
  pose proof (findGuardPattern_length matrix column i0 width whiteFirst pattern
                patternSize (replicate (length cs) 0)) as Hl.
  destruct (findGuardPattern _ _ _ _ _ _ _ _) as [[loc'|] cs1] eqn:E; simpl.
  - intros [= -> ->]. rewrite E, Z.sub_diag, Z.mod_0_l by lia. by repeat split; try lia.
  - rewrite to_size_t_small by lia. intros H1. apply IH in H1; [|lia].
    simpl in Hl. rewrite length_replicate in Hl. rewrite Hl in H1.
    destruct H1 as (H1 & H2 & H3). split; [lia|]. split; [|done].
    replace (i - i0) with (i - (i0 + rowStep) + 1 * rowStep) by lia.
    rewrite Z.mod_add by lia. done.
Qed.
End RowLoopFacts.

Lemma to_long_round_trip (z : Z) : - 2 ^ 31 <= z < 2 ^ 31 -> to_long (to_size_t z) = z.
Proof.
  intros H. unfold to_long, to_size_t.
  rewrite Zplus_mod_idemp_l. rewrite Z.mod_small by lia. lia.
Qed.

Lemma to_int_round_trip (z : Z) : - 2 ^ 31 <= z < 2 ^ 31 -> to_int (to_size_t z) = z.
Proof.
  intros H. unfold to_int, to_size_t.
  assert (E : (z mod 2 ^ 64 + 2 ^ 31) mod 2 ^ 32 = (z + 2 ^ 31) mod 2 ^ 32).
  { destruct (Z.lt_ge_cases z 0).
    - rewrite <- (Z.mod_add z 1 (2 ^ 64)) by lia.
      rewrite (Z.mod_small (z + 1 * 2 ^ 64)) by lia.
      replace (z + 1 * 2 ^ 64 + 2 ^ 31) with (z + 2 ^ 31 + 2 ^ 32 * 2 ^ 32) by lia.
      apply Z.mod_add. lia.
    - rewrite (Z.mod_small z) by lia. done. }
  rewrite E, Z.mod_small by lia. lia.
Qed.

(** ** The two vertex searches in closed form *)

(** findVertices is determined by what its four scans find when each starts
    on a zeroed scratch array: reusing the array between scans changes
    nothing. *)
Lemma findVertices_closed (fuel : nat) (matrix : BitMatrix) (rowStep : Z) :
  findVertices fuel matrix rowStep
  = fourScans (scanKind (topLeftScan fuel matrix rowStep))
      (scanKind (bottomLeftScan fuel matrix rowStep))
      (scanKind (topRightScan fuel matrix rowStep))
      (scanKind (bottomRightScan fuel matrix rowStep))
      (fun loc i => store2 0 4 (loc.1) (loc.2) i)
      (fun loc i => store2 1 5 (loc.1) (loc.2) i)
      (fun loc i => store2 2 6 (loc.2) (loc.1) i)
      (fun loc i => store2 3 7 (loc.2) (loc.1) i).
Proof.
  unfold findVertices, topLeftScan, bottomLeftScan, topRightScan, bottomRightScan.
  set (height := to_size_t (getHeight matrix)).
  set (width := to_size_t (getWidth matrix)).
  destruct (rowsDown matrix height rowStep 0 width false START_PATTERN _ fuel _ 0)
    as [|cs1|loc1 i1 cs1] eqn:E1; [done | done |].
  assert (L1 : length cs1 = length (replicate SIZEOF_START_PATTERN 0)).
  { eapply rowsDown_length. rewrite E1. done. }
  cbn [afterScan scanKind mbind outcome_bind fourScans].
  rewrite <- (rowsUp_kind matrix rowStep 0 width false START_PATTERN
                SIZEOF_START_PATTERN to_long fuel _ _ _ L1).
  destruct (rowsUp matrix rowStep 0 width false START_PATTERN _ to_long fuel cs1 _)
    as [|cs2|loc2 i2 cs2] eqn:E2; [by destruct loc1 | by destruct loc1 |].
  cbn [afterScan scanKind mbind outcome_bind fourScans].
  destruct (rowsDown matrix height rowStep 0 width false STOP_PATTERN _ fuel _ 0)
    as [|cs3|loc3 i3 cs3] eqn:E3; [by destruct loc1, loc2 | by destruct loc1, loc2 |].
  assert (L3 : length cs3 = length (replicate SIZEOF_STOP_PATTERN 0)).
  { eapply rowsDown_length. rewrite E3. done. }
  cbn [afterScan scanKind mbind outcome_bind fourScans].
  rewrite <- (rowsUp_kind matrix rowStep 0 width false STOP_PATTERN
                SIZEOF_STOP_PATTERN to_long fuel _ _ _ L3).
  destruct (rowsUp matrix rowStep 0 width false STOP_PATTERN _ to_long fuel cs3 _)
    as [|cs4|loc4 i4 cs4] eqn:E4;
    by destruct loc1, loc2, loc3, loc4 || by destruct loc1, loc2, loc3.
Qed.

Lemma findVertices180_closed (fuel : nat) (matrix : BitMatrix) (rowStep : Z) :
  findVertices180 fuel matrix rowStep
  = fourScans (scanKind (topLeftScan180 fuel matrix rowStep))
      (scanKind (bottomLeftScan180 fuel matrix rowStep))
      (scanKind (topRightScan180 fuel matrix rowStep))
      (scanKind (bottomRightScan180 fuel matrix rowStep))
      (fun loc i => store2 0 4 (loc.2) (loc.1) i)
      (fun loc i => store2 1 5 (loc.2) (loc.1) i)
      (fun loc i => store2 2 6 (loc.1) (loc.2) i)
      (fun loc i => store2 3 7 (loc.1) (loc.2) i).
Proof.
  unfold findVertices180, topLeftScan180, bottomLeftScan180, topRightScan180,
    bottomRightScan180.
  set (height := to_size_t (getHeight matrix)).
  set (halfWidth := Z.shiftr (to_size_t (getWidth matrix)) 1).
  destruct (rowsUp matrix rowStep halfWidth halfWidth true START_PATTERN_REVERSE _
              to_int fuel _ _) as [|cs1|loc1 i1 cs1] eqn:E1; [done | done |].
  assert (L1 : length cs1 = length (replicate SIZEOF_START_PATTERN_REVERSE 0)).
  { eapply rowsUp_length. rewrite E1. done. }
  cbn [afterScan scanKind mbind outcome_bind fourScans].
  rewrite <- (rowsDown_kind matrix height rowStep halfWidth halfWidth true
                START_PATTERN_REVERSE SIZEOF_START_PATTERN_REVERSE fuel _ _ _ L1).
  destruct (rowsDown matrix height rowStep halfWidth halfWidth true
              START_PATTERN_REVERSE _ fuel cs1 _)
    as [|cs2|loc2 i2 cs2] eqn:E2; [by destruct loc1 | by destruct loc1 |].
  cbn [afterScan scanKind mbind outcome_bind fourScans].
  destruct (rowsUp matrix rowStep 0 halfWidth false STOP_PATTERN_REVERSE _
              to_int fuel _ _)
    as [|cs3|loc3 i3 cs3] eqn:E3; [by destruct loc1, loc2 | by destruct loc1, loc2 |].
  assert (L3 : length cs3 = length (replicate SIZEOF_STOP_PATTERN_REVERSE 0)).
  { eapply rowsUp_length. rewrite E3. done. }
  cbn [afterScan scanKind mbind outcome_bind fourScans].
  rewrite <- (rowsDown_kind matrix height rowStep 0 halfWidth false
                STOP_PATTERN_REVERSE SIZEOF_STOP_PATTERN_REVERSE fuel _ _ _ L3).
  destruct (rowsDown matrix height rowStep 0 halfWidth false STOP_PATTERN_REVERSE _
              fuel cs3 _)
    as [|cs4|loc4 i4 cs4] eqn:E4;
    by destruct loc1, loc2, loc3, loc4 || by destruct loc1, loc2, loc3.
Qed.

(** ** All eight corners or none *)

Lemma store2_all_eight (p0 p1 p2 p3 p4 p5 p6 p7 : Z) (i1 i2 i3 i4 : Z) :
  let v := store2 3 7 p3 p7 i4 (store2 2 6 p2 p6 i3 (store2 1 5 p1 p5 i2
             (store2 0 4 p0 p4 i1 (replicate COUNT_VERTICES None)))) in
  length v = COUNT_VERTICES /\ forall i, (i < 8)%nat -> populated v i.
Proof.
  split; [reflexivity|]. intros i Hi. unfold populated.
  do 8 (destruct i as [|i]; [eexists; reflexivity|]). lia.
Qed.

Lemma fourScans_all_or_none (k1 k2 k3 k4 : option (option (Z * Z * Z)))
    (f1 f2 f3 f4 f5 f6 f7 f8 : Z * Z -> Z) (v : Vertices) :
  fourScans k1 k2 k3 k4
    (fun loc i => store2 0 4 (f1 loc) (f2 loc) i)
    (fun loc i => store2 1 5 (f3 loc) (f4 loc) i)
    (fun loc i => store2 2 6 (f5 loc) (f6 loc) i)
    (fun loc i => store2 3 7 (f7 loc) (f8 loc) i) = Return v ->
  allOrNone v
  /\ (k1 = Some None \/ k2 = Some None \/ k3 = Some None \/ k4 = Some None -> v = []).
Proof.
  unfold allOrNone.
  destruct k1 as [[[loc1 i1]|]|]; cbn [fourScans];
    [| intros [= <-]; by auto | done].
  destruct k2 as [[[loc2 i2]|]|]; cbn [fourScans];
    [| intros [= <-]; by auto | done].
  destruct k3 as [[[loc3 i3]|]|]; cbn [fourScans];
    [| intros [= <-]; by auto | done].
  destruct k4 as [[[loc4 i4]|]|]; cbn [fourScans];
    [| intros [= <-]; by auto | done].
  intros [= <-]. split.
  - right. apply store2_all_eight.
  - intros [|[|[|]]]; done.
Qed.

(** A non-empty result of findVertices holds in slot 0 the match of its
    top-left scan. *)
Lemma findVertices_first (fuel : nat) (matrix : BitMatrix) (rowStep : Z) (v : Vertices) :
  findVertices fuel matrix rowStep = Return v -> v <> [] ->
  exists loc i,
    scanKind (topLeftScan fuel matrix rowStep) = Some (Some (loc, i))
    /\ v !! 0%nat = Some (point (loc.1) i).
Proof.
  rewrite findVertices_closed.
  destruct (scanKind (topLeftScan _ _ _)) as [[[loc1 i1]|]|];
    cbn [fourScans]; [| by intros [= <-] | done].
  destruct (scanKind (bottomLeftScan _ _ _)) as [[[loc2 i2]|]|];
    cbn [fourScans]; [| by intros [= <-] | done].
  destruct (scanKind (topRightScan _ _ _)) as [[[loc3 i3]|]|];
    cbn [fourScans]; [| by intros [= <-] | done].
  destruct (scanKind (bottomRightScan _ _ _)) as [[[loc4 i4]|]|];
    cbn [fourScans]; [| by intros [= <-] | done].
  intros [= <-] _. by exists loc1, i1.
Qed.

Lemma fourScans_finishes (k1 k2 k3 k4 : option (option (Z * Z * Z)))
    (place1 place2 place3 place4 : Z * Z -> Z -> Vertices -> Vertices) :
  k1 <> None -> k2 <> None -> k3 <> None -> k4 <> None ->
  exists v, fourScans k1 k2 k3 k4 place1 place2 place3 place4 = Return v.
Proof.
  intros H1 H2 H3 H4.
  destruct k1 as [[[loc1 i1]|]|]; [| by eexists | done].
  destruct k2 as [[[loc2 i2]|]|]; [| by eexists | done].
  destruct k3 as [[[loc3 i3]|]|]; [| by eexists | done].
  destruct k4 as [[[loc4 i4]|]|]; [| by eexists | done].
  by eexists.
Qed.

Lemma findVertices_finishes (matrix : BitMatrix) (rowStep : Z) :
  validMatrix matrix -> 0 < rowStep < 2 ^ 31 ->
  exists v, findVertices (scanFuel matrix) matrix rowStep = Return v.
Proof.
  intros [Hw Hh] Hs. rewrite findVertices_closed.
  unfold scanFuel, topLeftScan, bottomLeftScan, topRightScan, bottomRightScan.
  rewrite !(to_size_t_small (getHeight matrix)) by lia.
  rewrite !to_long_round_trip by lia.
  apply fourScans_finishes.
  - apply rowsDown_finishes; lia.
  - apply rowsUp_finishes; [apply to_long_round_trip | lia..].
  - apply rowsDown_finishes; lia.
  - apply rowsUp_finishes; [apply to_long_round_trip | lia..].
Qed.

Lemma findVertices180_finishes (matrix : BitMatrix) (rowStep : Z) :
  validMatrix matrix -> 0 < rowStep < 2 ^ 31 ->
  exists v, findVertices180 (scanFuel matrix) matrix rowStep = Return v.
Proof.
  intros [Hw Hh] Hs. rewrite findVertices180_closed.
  unfold scanFuel, topLeftScan180, bottomLeftScan180, topRightScan180,
    bottomRightScan180.
  rewrite !(to_size_t_small (getHeight matrix)) by lia.
  rewrite !to_int_round_trip by lia.
  apply fourScans_finishes.
  - apply rowsUp_finishes; [apply to_int_round_trip | lia..].
  - apply rowsDown_finishes; lia.
  - apply rowsUp_finishes; [apply to_int_round_trip | lia..].
  - apply rowsDown_finishes; lia.
Qed.

(** C2. Whatever the image, the row step and the fuel, a vertex search that
    returns gives either the cleared vector or sixteen slots whose first
    eight each hold a point, and it gives the cleared vector as soon as one
    of its four scans matches in no sampled row; this for findVertices and
    for findVertices180. Both searches do return (with fuel [scanFuel]) on
    every valid image when the row step is positive and below [2^31]; a row
    step of 0 makes the C++ loops spin on a row without a match. *)
Theorem vertices_all_or_none (fuel : nat) (matrix : BitMatrix) (rowStep : Z) :
  (forall v, findVertices fuel matrix rowStep = Return v ->
     allOrNone v
     /\ (missed (topLeftScan fuel matrix rowStep)
         \/ missed (bottomLeftScan fuel matrix rowStep)
         \/ missed (topRightScan fuel matrix rowStep)
         \/ missed (bottomRightScan fuel matrix rowStep) -> v = []))
  /\ (forall v, findVertices180 fuel matrix rowStep = Return v ->
     allOrNone v
     /\ (missed (topLeftScan180 fuel matrix rowStep)
         \/ missed (bottomLeftScan180 fuel matrix rowStep)
         \/ missed (topRightScan180 fuel matrix rowStep)
         \/ missed (bottomRightScan180 fuel matrix rowStep) -> v = []))
  /\ (validMatrix matrix -> 0 < rowStep < 2 ^ 31 ->
      (exists v, findVertices (scanFuel matrix) matrix rowStep = Return v)
      /\ (exists v, findVertices180 (scanFuel matrix) matrix rowStep = Return v)).
Proof.
  split; [|split].
  - intros v. rewrite findVertices_closed. apply fourScans_all_or_none.
  - intros v. rewrite findVertices180_closed. apply fourScans_all_or_none.
  - intros Hm Hs. split.
    + by apply findVertices_finishes.
    + by apply findVertices180_finishes.
Qed.

Lemma vertices_all_or_none_witness :
  (exists v, findVertices (scanFuel uprightSymbol) uprightSymbol 8 = Return v
             /\ allOrNone v)
  /\ (exists v, findVertices180 (scanFuel uprightSymbol) uprightSymbol 8 = Return v
                /\ allOrNone v).
Proof.
  destruct (vertices_all_or_none (scanFuel uprightSymbol) uprightSymbol 8)
    as (Hup & Hrot & Hfin).
  assert (Hvalid : validMatrix uprightSymbol) by (unfold validMatrix; simpl; lia).
  destruct (Hfin Hvalid ltac:(lia)) as [[v Hv] [v' Hv']].
  split.
  - exists v. split; [exact Hv | exact (proj1 (Hup v Hv))].
  - exists v'. split; [exact Hv' | exact (proj1 (Hrot v' Hv'))].
Defined.

(** ** The call log of detect *)

Lemma Run_bind_Return {A B : Type} (log : list Call) (a : A) (f : A -> Run B) :
  mbind f ((log, Return a) : Run A) = (log ++ (f a).1, (f a).2).
Proof. unfold mbind, Run_bind. by destruct (f a). Qed.

Lemma call_bind {A B : Type} (c : Call) (a : A) (f : A -> Run B) :
  mbind f (call c (Return a)) = (c :: (f a).1, (f a).2).
Proof. unfold call. by rewrite Run_bind_Return. Qed.

Lemma lift_bind {A B : Type} (a : A) (f : A -> Run B) :
  mbind f (lift (Return a)) = f a.
Proof. unfold lift. rewrite Run_bind_Return. by destruct (f a). Qed.

Lemma Run_bind_log {A B : Type} (P : Call -> Prop) (m : Run A) (f : A -> Run B) :
  Forall P m.1 -> (forall a, Forall P (f a).1) -> Forall P (mbind f m).1.
Proof.
  intros Hm Hf. destruct m as [log [a| | |]]; simpl in *; try done.
  specialize (Hf a). destruct (f a) as [log' r]. simpl in *.
  apply Forall_app; done.
Qed.

Lemma lift_log {A : Type} (P : Call -> Prop) (o : outcome A) : Forall P (lift o).1.
Proof. constructor. Qed.

Section DetectFacts.
Variable distance : ResultPoint -> ResultPoint -> float.
Variable PerspectiveTransform : Type.
Variable quadrilateralToQuadrilateral : Quad -> Quad -> PerspectiveTransform.
Variable sampleGrid : BitMatrix -> Z -> Z -> PerspectiveTransform -> outcome BitMatrix.
Variable linesSampler : BitMatrix -> Z -> outcome BitMatrix.

Local Abbreviation sampleLines' :=
  (sampleLines PerspectiveTransform quadrilateralToQuadrilateral sampleGrid).
Local Abbreviation measureAndSample' :=
  (measureAndSample distance PerspectiveTransform quadrilateralToQuadrilateral
     sampleGrid linesSampler).
Local Abbreviation detect' :=
  (detect distance PerspectiveTransform quadrilateralToQuadrilateral
     sampleGrid linesSampler).

Lemma sampleLines_log (image : BinaryBitmap) (v : Vertices) (dimensionY dimension : Z) :
  Forall samplingCall (sampleLines' image v dimensionY dimension).1.
Proof.
  unfold sampleLines.
  repeat (apply Run_bind_log; [apply lift_log | intros ?]).
  apply Run_bind_log; [by repeat constructor | intros ?].
  by repeat constructor.
Qed.

Lemma measureAndSample_log (image : BinaryBitmap) (v : Vertices) :
  Forall samplingCall (measureAndSample' image v).1.
Proof.
  unfold measureAndSample.
  apply Run_bind_log; [apply lift_log | intros moduleWidth].
  destruct (F32.ltb _ _); [apply lift_log|].
  repeat (apply Run_bind_log; [apply lift_log | intros ?]).
  destruct (_ <? 1); [apply lift_log|].
  apply Run_bind_log; [apply sampleLines_log | intros linesMatrix].
  apply Run_bind_log; [by repeat constructor | intros linesGrid].
  constructor.
Qed.

(** The part of detect that follows the vertex search and correction. *)
Lemma afterCorrection_log (image : BinaryBitmap) (v : Vertices) :
  Forall samplingCall
    (if decide (v = []) then lift (Throw noVerticesFound)
     else measureAndSample' image v).1.
Proof. destruct (decide _); [apply lift_log | apply measureAndSample_log]. Qed.

Lemma detect_upright (image : BinaryBitmap) (v : Vertices) :
  findVertices (scanFuel (getBlackMatrix image)) (getBlackMatrix image) 8 = Return v ->
  v <> [] ->
  locateVertices (getBlackMatrix image)
  = ([CallFindVertices 8; CallCorrectVertices false],
     correctVertices (traceFuel (getBlackMatrix image)) (getBlackMatrix image) v false)
  /\ exists rest,
    (detect' image).1 = [CallFindVertices 8; CallCorrectVertices false] ++ rest
    /\ Forall samplingCall rest.
Proof.
  intros Hv Hne.
  assert (Hl : locateVertices (getBlackMatrix image)
               = ([CallFindVertices 8; CallCorrectVertices false],
                  correctVertices (traceFuel (getBlackMatrix image))
                    (getBlackMatrix image) v false)).
  { unfold locateVertices. rewrite Hv, call_bind.
    by destruct (decide (v = [])) as [|_]. }
  split; [exact Hl|].
  unfold detect. rewrite Hl.
  destruct (correctVertices _ _ v false) as [v'| | |];
    [rewrite Run_bind_Return | by exists [] ..].
  exists (if decide (v' = []) then lift (Throw noVerticesFound)
          else measureAndSample' image v').1.
  split; [done | apply afterCorrection_log].
Qed.

Lemma detect_rotated (image : BinaryBitmap) (v' : Vertices) :
  findVertices (scanFuel (getBlackMatrix image)) (getBlackMatrix image) 8 = Return [] ->
  findVertices180 (scanFuel (getBlackMatrix image)) (getBlackMatrix image) 8
    = Return v' ->
  (v' = [] ->
     detect' image
     = ([CallFindVertices 8; CallFindVertices180 8], Throw noVerticesFound))
  /\ (v' <> [] ->
     locateVertices (getBlackMatrix image)
     = ([CallFindVertices 8; CallFindVertices180 8; CallCorrectVertices true],
        correctVertices (traceFuel (getBlackMatrix image)) (getBlackMatrix image)
          v' true)
     /\ exists rest,
       (detect' image).1
       = [CallFindVertices 8; CallFindVertices180 8; CallCorrectVertices true] ++ rest
       /\ Forall samplingCall rest).
Proof.
  intros Hv Hv'. split.
  - intros ->. unfold detect, locateVertices. rewrite Hv, call_bind.
    destruct (decide ([] = [])) as [_|]; [|done].
    rewrite Hv'. rewrite call_bind.
    destruct (decide ([] <> [])) as [|_]; [done|]. reflexivity.
  - intros Hne.
    assert (Hl : locateVertices (getBlackMatrix image)
                 = ([CallFindVertices 8; CallFindVertices180 8;
                     CallCorrectVertices true],
                    correctVertices (traceFuel (getBlackMatrix image))
                      (getBlackMatrix image) v' true)).
    { unfold locateVertices. rewrite Hv, call_bind.
      destruct (decide ([] = [])) as [_|]; [|done].
      rewrite Hv'. rewrite call_bind.
      by destruct (decide (v' <> [])) as [_|]. }
    split; [exact Hl|].
    unfold detect. rewrite Hl.
    destruct (correctVertices _ _ v' true) as [v''| | |];
      [rewrite Run_bind_Return | by exists [] ..].
    exists (if decide (v'' = []) then lift (Throw noVerticesFound)
            else measureAndSample' image v'').1.
    split; [done | apply afterCorrection_log].
Qed.

End DetectFacts.

(** C1. On every valid image the upright search [findVertices(matrix, 8)]
    returns and is the first call of detect. When it returns a non-empty
    vector the rotated search is not called at all, and the point in slot 0
    comes from a match of the start pattern by a scan of the whole row width
    (column 0, width [getWidth]) in a row that is a multiple of 8. When it
    returns the empty vector the rotated search is the second call; and when
    that returns the empty vector too, detect throws "No vertices found."
    after these two calls and returns nothing. *)
Theorem detect_search_order
    (distance : ResultPoint -> ResultPoint -> float)
    (PerspectiveTransform : Type)
    (quadrilateralToQuadrilateral : Quad -> Quad -> PerspectiveTransform)
    (sampleGrid : BitMatrix -> Z -> Z -> PerspectiveTransform -> outcome BitMatrix)
    (linesSampler : BitMatrix -> Z -> outcome BitMatrix)
    (image : BinaryBitmap) :
  validMatrix (getBlackMatrix image) ->
  let matrix := getBlackMatrix image in
  let run := detect distance PerspectiveTransform quadrilateralToQuadrilateral
               sampleGrid linesSampler image in
  exists v,
    findVertices (scanFuel matrix) matrix 8 = Return v
    /\ head run.1 = Some (CallFindVertices 8)
    /\ (v <> [] ->
        (forall rowStep, CallFindVertices180 rowStep ∉ run.1)
        /\ exists loc i,
             0 <= i < getHeight matrix /\ i mod 8 = 0
             /\ (findGuardPattern matrix 0 i (getWidth matrix) false START_PATTERN
                   SIZEOF_START_PATTERN (replicate SIZEOF_START_PATTERN 0)).1
                = Some loc
             /\ v !! 0%nat = Some (point (loc.1) i))
    /\ (v = [] ->
        exists v',
          findVertices180 (scanFuel matrix) matrix 8 = Return v'
          /\ run.1 !! 1%nat = Some (CallFindVertices180 8)
          /\ (v' = [] ->
              run = ([CallFindVertices 8; CallFindVertices180 8],
                     Throw noVerticesFound))).
Proof.
  intros Hvalid matrix run.
  destruct (findVertices_finishes matrix 8 Hvalid ltac:(lia)) as [v Hv].
  exists v. split; [exact Hv|].
  destruct (decide (v = [])) as [->|Hne].
  - destruct (findVertices180_finishes matrix 8 Hvalid ltac:(lia)) as [v' Hv'].
    destruct (detect_rotated distance PerspectiveTransform quadrilateralToQuadrilateral
                sampleGrid linesSampler image v' Hv Hv') as [Hnone Hsome].
    fold run in Hnone, Hsome.
    assert (Hlog : head run.1 = Some (CallFindVertices 8)
                   /\ run.1 !! 1%nat = Some (CallFindVertices180 8)).
    { destruct (decide (v' = [])) as [E|E].
      - by rewrite (Hnone E).
      - destruct (Hsome E) as (_ & rest & -> & _). done. }
    split; [apply Hlog|]. split; [done|].
    intros _. exists v'. split; [exact Hv'|]. split; [apply Hlog | exact Hnone].
  - destruct (detect_upright distance PerspectiveTransform quadrilateralToQuadrilateral
                sampleGrid linesSampler image v Hv Hne) as (_ & rest & Hlog & Hrest).
    fold run in Hlog. rewrite Hlog.
    split; [done|]. split; [|done].
    intros _. split.
    + intros rowStep Hin.
      apply elem_of_cons in Hin as [|Hin]; [done|].
      apply elem_of_cons in Hin as [|Hin]; [done|].
      rewrite Forall_forall in Hrest. apply Hrest in Hin. done.
    + destruct (findVertices_first _ _ _ _ Hv Hne) as (loc & i & Hk & H0).
      exists loc, i. destruct Hvalid as [Hw Hh].
      unfold topLeftScan in Hk. fold matrix in Hw, Hh.
      rewrite !to_size_t_small in Hk by lia.
      apply rowsDown_hit in Hk; try lia.
      destruct Hk as (Hi & Hmod & Hg). rewrite Z.sub_0_r in Hmod.
      rewrite length_replicate in Hg. done.
Qed.

Lemma detect_search_order_witness :
  validMatrix blankImage
  /\ detectWithStandIns blankImage
     = ([CallFindVertices 8; CallFindVertices180 8], Throw noVerticesFound).
Proof.
  assert (Hvalid : validMatrix blankImage) by (unfold validMatrix; simpl; lia).
  split; [exact Hvalid|].
  destruct (detect_search_order euclidean (Quad * Quad) quadPair blankGrid sameLines
              (mkBinaryBitmap blankImage) Hvalid) as (v & Hv & _ & _ & Hempty).
  assert (E : v = []).
  { assert (Hc : findVertices (scanFuel blankImage) blankImage 8 = Return [])
      by (vm_compute; reflexivity).
    simpl in Hv. rewrite Hc in Hv. by injection Hv. }
  destruct (Hempty E) as (v' & Hv' & _ & Hthrow).
  apply Hthrow.
  assert (Hc : findVertices180 (scanFuel blankImage) blankImage 8 = Return [])
    by (vm_compute; reflexivity).
  simpl in Hv'. rewrite Hc in Hv'. by injection Hv'.
Defined.

(** ** Line intersection *)

(** C7. The lines (0,0)-(10,10) and (0,10)-(10,0) intersect in exactly
    (5,5); the parallel lines (0,0)-(10,0) and (0,5)-(10,5) give the point
    (infinity, infinity), on which findCrossingPoint throws its
    parallel-lines exception whatever the image. *)
Theorem intersection_examples :
  intersection (mkLine (pt 0 0) (pt 10 10)) (mkLine (pt 0 10) (pt 10 0)) = pt 5 5
  /\ intersection (mkLine (pt 0 0) (pt 10 0)) (mkLine (pt 0 5) (pt 10 5))
     = mkPoint F32.infinity F32.infinity
  /\ (forall matrix,
        crossingOf matrix (pt 0 0) (pt 10 0) (pt 0 5) (pt 10 5) = Throw parallelLines)
  /\ (forall matrix,
        findCrossingPoint
          [point 0 0; point 10 0; point 0 5; point 10 5; None] 4 0 1 2 3 matrix
        = Throw parallelLines).
Proof.
  split; [vm_compute; reflexivity|].
  split; [vm_compute; reflexivity|].
  split; intros matrix; reflexivity.
Qed.

(** ** Pixel reads of the wide-bar trace *)

(** C10. On the rotated synthetic symbol (77 x 40) findVertices180 locates
    all eight corners inside the image, and the first wide-bar trace of
    correctVertices then tests the pixels (77, 31) and (78, 31): its
    look-ahead columns [x + nextBarX] and [x + nextBarX + 1] lie to the right
    of the last column 76. *)
Theorem wideBar_reads_outside_image :
  exists v,
    findVertices180 (scanFuel rotatedSymbol) rotatedSymbol 8 = Return v
    /\ cornersInside rotatedSymbol v = true
    /\ (findWideBarTopBottom (traceFuel rotatedSymbol) rotatedSymbol v 0 0 8 17 1).2
       = [(73, 31); (74, 31); (74, 31); (75, 31); (75, 31); (76, 31);
          (69, 31); (77, 31); (78, 31)]
    /\ inBounds rotatedSymbol 77 31 = false
    /\ inBounds rotatedSymbol 78 31 = false.
Proof.
  eexists. split; [vm_compute; reflexivity|].
  repeat split; vm_compute; reflexivity.
Qed.

(** ** The sampling rectangle *)

(** What sampleLines passes on, in terms of its two dimension arguments in
    the order detect supplies them: detect calls
    [sampleLines(vertices, dimension, yDimension)], and the rectangle is
    [8 * yDimension] wide and [4 * dimension] high. *)
Lemma sampleLines_rectangle
    (PerspectiveTransform : Type)
    (quadrilateralToQuadrilateral : Quad -> Quad -> PerspectiveTransform)
    (sampleGrid : BitMatrix -> Z -> Z -> PerspectiveTransform -> outcome BitMatrix)
    (image : BinaryBitmap) (v : Vertices) (first second : Z)
    (v12 v13 v14 v15 : ResultPoint) :
  v !! 12%nat = Some (Some v12) -> v !! 13%nat = Some (Some v13) ->
  v !! 14%nat = Some (Some v14) -> v !! 15%nat = Some (Some v15) ->
  let width := to_int (second * 8) in
  let height := to_int (first * 4) in
  (sampleLines PerspectiveTransform quadrilateralToQuadrilateral sampleGrid
     image v first second).1
  = [CallQuadrilateralToQuadrilateral
       (mkQuad (F32.of_int 0) (F32.of_int 0) (F32.of_int width) (F32.of_int 0)
               (F32.of_int 0) (F32.of_int height)
               (F32.of_int width) (F32.of_int height))
       (mkQuad (getX v12) (getY v12) (getX v14) (getY v14)
               (getX v13) (getY v13) (getX v15) (getY v15));
     CallSampleGrid width height].
Proof.
  intros H12 H13 H14 H15 width height.
  unfold sampleLines, vertex. rewrite H12, H13, H14, H15.
  unfold lift, call. cbn [mbind Run_bind app fst snd]. reflexivity.
Qed.

(** C4. On the upright synthetic symbol detect finds a row dimension of 34
    modules and a column dimension of 35. The rectangle it hands to the
    projective transform and to the grid sampler is 280 = 8 * 35 wide and
    136 = 4 * 34 high, not 8 * 34 by 4 * 35: sampleLines declares its
    parameters as [(vertices, dimensionY, dimension)] while detect passes
    [(vertices, dimension, yDimension)]. The corners correspond as claimed:
    (0,0), (W,0), (0,H), (W,H) to vertices 12, 14, 13, 15. *)
Theorem sampling_rectangle_on_upright_symbol :
  exists v mw v12 v13 v14 v15 r,
    mbind (fun v0 => correctVertices (traceFuel uprightSymbol) uprightSymbol v0 false)
      (findVertices (scanFuel uprightSymbol) uprightSymbol 8) = Return v
    /\ computeModuleWidth euclidean v = Return mw
    /\ v !! 12%nat = Some (Some v12) /\ v !! 13%nat = Some (Some v13)
    /\ v !! 14%nat = Some (Some v14) /\ v !! 15%nat = Some (Some v15)
    /\ computeDimension euclidean v12 v14 v13 v15 mw = 34
    /\ computeYDimension euclidean v12 v14 v13 v15 mw = 35
    /\ detectWithStandIns uprightSymbol
       = ([CallFindVertices 8; CallCorrectVertices false;
           CallQuadrilateralToQuadrilateral
             (mkQuad (F32.of_int 0) (F32.of_int 0) (F32.of_int 280) (F32.of_int 0)
                     (F32.of_int 0) (F32.of_int 136)
                     (F32.of_int 280) (F32.of_int 136))
             (mkQuad (getX v12) (getY v12) (getX v14) (getY v14)
                     (getX v13) (getY v13) (getX v15) (getY v15));
           CallSampleGrid 280 136; CallLinesSampler 34],
          Return r).
Proof.
  do 7 eexists.
  split; [vm_compute; reflexivity|].
  split; [vm_compute; reflexivity|].
  do 4 (split; [vm_compute; reflexivity|]).
  split; [vm_compute; reflexivity|].
  split; [vm_compute; reflexivity|].
  vm_compute. reflexivity.
Qed.

(** ** The row dimension *)

Lemma Run_bind_success {A B : Type} (m : Run A) (f : A -> Run B) (b : B) :
  (mbind f m).2 = Return b ->
  exists a, m.2 = Return a /\ (f a).2 = Return b /\ (mbind f m).1 = m.1 ++ (f a).1.
Proof.
  destruct m as [log [a| | |]]; try done.
  rewrite Run_bind_Return. simpl. intros H. by exists a.
Qed.

Lemma snap_divides (x : Z) :
  INT_MIN <= x <= INT_MAX -> (17 | to_int (Z.quot x 17 * 17)).
Proof.
  intros Hx. unfold INT_MIN, INT_MAX in Hx.
  pose proof (Z.quot_rem' x 17) as Hq.
  assert (- 2 ^ 31 <= Z.quot x 17 * 17 < 2 ^ 31).
  { destruct (Z.lt_ge_cases x 0).
    - pose proof (Z.rem_bound_pos_neg x 17 ltac:(lia) ltac:(lia)). lia.
    - pose proof (Z.rem_bound_pos x 17 ltac:(lia) ltac:(lia)). lia. }
  rewrite to_int_small by done. by exists (Z.quot x 17).
Qed.

Section DimensionFacts.
Variable distance : ResultPoint -> ResultPoint -> float.
Variable PerspectiveTransform : Type.
Variable quadrilateralToQuadrilateral : Quad -> Quad -> PerspectiveTransform.
Variable sampleGrid : BitMatrix -> Z -> Z -> PerspectiveTransform -> outcome BitMatrix.
Variable linesSampler : BitMatrix -> Z -> outcome BitMatrix.

Local Abbreviation measureAndSample' :=
  (measureAndSample distance PerspectiveTransform quadrilateralToQuadrilateral
     sampleGrid linesSampler).
Local Abbreviation detect' :=
  (detect distance PerspectiveTransform quadrilateralToQuadrilateral
     sampleGrid linesSampler).

Lemma computeDimension_divides (tl tr bl br : ResultPoint) (mw : float) :
  (17 | computeDimension distance tl tr bl br mw).
Proof. unfold computeDimension. apply snap_divides, to_int_range. Qed.




End DimensionFacts.

(** ** Integers in single and double precision *)

Lemma digits_iter (m : positive) (p : positive) :
  Zpos (digits2_pos (Pos.iter xO m p)) = Zpos (digits2_pos m) + Zpos p.
Proof.
  induction p as [|p IH] using Pos.peano_ind.
  - simpl. lia.
  - rewrite Pos.iter_succ. simpl. lia.
Qed.

Lemma digits_shl (m : positive) (n : Z) :
  0 <= n -> Zpos (digits2_pos (shl m n)) = Zpos (digits2_pos m) + n.
Proof. destruct n; simpl; try lia. intros _. apply digits_iter. Qed.

Lemma shl_shl (m : positive) (a b : Z) :
  0 <= a -> 0 <= b -> shl (shl m a) b = shl m (a + b).
Proof.
  intros Ha Hb. destruct a as [|a|a], b as [|b|b]; try lia; try reflexivity.
  simpl. rewrite Pos.add_comm, Pos.iter_add. reflexivity.
Qed.

Lemma Zpos_shl (m : positive) (n : Z) : 0 <= n -> Zpos (shl m n) = Zpos m * 2 ^ n.
Proof.
  destruct n as [|p|p]; simpl; try lia. intros _.
  induction p as [|p IH] using Pos.peano_ind.
  - simpl. lia.
  - rewrite Pos.iter_succ. rewrite Pos2Z.inj_xO, IH.
    rewrite Pos2Z.inj_succ, Z.pow_succ_r by lia. lia.
Qed.

(** Shifting out [q] zero bits is exact. *)
Lemma shr_exact (q : positive) (m : positive) :
  SpecFloat.iter_pos shr_1 q (Build_shr_record (Zpos (Pos.iter xO m q)) false false)
  = Build_shr_record (Zpos m) false false.
Proof.
  revert m. induction q as [q IH|q IH|]; intros m; simpl.
  - rewrite !IH. done.
  - rewrite !IH. done.
  - done.
Qed.

Section Rounding.
Variables prec emax : Z.
Hypothesis Hprec : 0 < prec.
Hypothesis Hemax : prec < emax.

Lemma fexp_small (d : Z) : 1 <= d -> fexp prec emax d = d - prec.
Proof. intros Hd. unfold fexp, emin. lia. Qed.

(** A mantissa of exactly [prec] digits followed by [q] zero bits rounds to
    itself. *)
Lemma binary_round_aux_exact (s : bool) (mz : positive) (ez q : Z) :
  Zpos (digits2_pos mz) = prec -> 0 <= q -> 1 - prec <= ez <= 0 ->
  binary_round_aux prec emax s (Zpos (shl mz q)) (ez - q) loc_Exact
  = S754_finite s mz ez.
Proof.
  intros Hd Hq Hez. unfold binary_round_aux.
  assert (Hstep : shr_fexp prec emax (Zpos (shl mz q)) (ez - q) loc_Exact
                  = (Build_shr_record (Zpos mz) false false, ez)).
  { unfold shr_fexp. simpl Zdigits2. rewrite digits_shl by done.
    rewrite fexp_small by lia. rewrite Hd.
    replace (prec + q + (ez - q) - prec - (ez - q)) with q by lia.
    unfold shr. destruct q as [|q|q]; simpl; try lia.
    - f_equal; lia.
    - rewrite shr_exact. f_equal. lia. }
  rewrite Hstep. simpl.
  assert (Hstep2 : shr_fexp prec emax (Zpos mz) ez loc_Exact
                   = (Build_shr_record (Zpos mz) false false, ez)).
  { unfold shr_fexp. simpl Zdigits2. rewrite fexp_small by lia. rewrite Hd.
    replace (prec + ez - prec - ez) with 0 by lia. done. }
  rewrite Hstep2. simpl.
  destruct (Z.leb_spec ez (emax - prec)); [done | lia].
Qed.

(** The canonical form of [m0 * 2^n] at exponent [-n], for a mantissa of
    at most [prec] digits. *)
Lemma binary_round_scaled (s : bool) (m0 : positive) (n : Z) :
  let d := Zpos (digits2_pos m0) in
  d <= prec -> 0 <= n ->
  binary_round prec emax s (shl m0 n) (- n)
  = S754_finite s (shl m0 (prec - d)) (d - prec).
Proof.
  intros d Hd Hn. unfold binary_round.
  rewrite digits_shl by done. fold d.
  rewrite fexp_small by lia.
  unfold shl_align.
  replace (d + n + - n - prec - - n) with (d - prec + n) by lia.
  destruct (d - prec + n) as [|q|q] eqn:Hq.
  - replace (- n) with (d - prec - 0) by lia.
    replace (shl m0 n) with (shl (shl m0 (prec - d)) 0)
      by (simpl; f_equal; lia).
    apply binary_round_aux_exact; try lia. rewrite digits_shl by lia. fold d. lia.
  - replace (- n) with (d - prec - Zpos q) by lia.
    replace (shl m0 n) with (shl (shl m0 (prec - d)) (Zpos q))
      by (rewrite shl_shl by lia; f_equal; lia).
    apply binary_round_aux_exact; try lia. rewrite digits_shl by lia. fold d. lia.
  - replace (d + n + - n - prec) with (d - prec - 0) by lia.
    replace (Pos.iter xO (shl m0 n) q) with (shl (shl m0 (prec - d)) 0).
    + apply binary_round_aux_exact; try lia. rewrite digits_shl by lia. fold d. lia.
    + simpl. change (Pos.iter xO (shl m0 n) q) with (shl (shl m0 n) (Zpos q)).
      rewrite shl_shl by lia. f_equal. lia.
Qed.
End Rounding.

Lemma digits_upper (m : positive) : Zpos m < 2 ^ Zpos (digits2_pos m).
Proof.
  induction m as [m IH|m IH|]; simpl digits2_pos;
    rewrite ?Pos2Z.inj_succ, ?Z.pow_succ_r by lia; simpl; lia.
Qed.

Lemma digits_lower (m : positive) : 2 ^ (Zpos (digits2_pos m) - 1) <= Zpos m.
Proof.
  induction m as [m IH|m IH|]; simpl digits2_pos; rewrite ?Pos2Z.inj_succ.
  - replace (Z.succ (Zpos (digits2_pos m)) - 1) with (Z.succ (Zpos (digits2_pos m) - 1))
      by lia.
    rewrite Z.pow_succ_r by lia. lia.
  - replace (Z.succ (Zpos (digits2_pos m)) - 1) with (Z.succ (Zpos (digits2_pos m) - 1))
      by lia.
    rewrite Z.pow_succ_r by lia. lia.
  - simpl. lia.
Qed.

Lemma digits_bound (m : positive) (k : Z) :
  0 <= k -> Zpos m < 2 ^ k -> Zpos (digits2_pos m) <= k.
Proof.
  intros Hk Hm. pose proof (digits_lower m) as Hl.
  destruct (Z.le_gt_cases (Zpos (digits2_pos m)) k) as [|Hgt]; [done|].
  assert (2 ^ k <= 2 ^ (Zpos (digits2_pos m) - 1)) by (apply Z.pow_le_mono_r; lia).
  lia.
Qed.

Section Integers.
Variables prec emax : Z.
Hypothesis Hprec : 0 < prec.
Hypothesis Hemax : prec < emax.

Lemma normalize_scaled (k n : Z) (szero : bool) :
  k <> 0 -> Z.abs k < 2 ^ prec -> 0 <= n ->
  binary_normalize prec emax (k * 2 ^ n) (- n) szero
  = canon prec (k <? 0) (Z.to_pos (Z.abs k)).
Proof.
  intros Hk Hb Hn. destruct k as [|m|m]; [done| |].
  - rewrite <- Zpos_shl by done. simpl binary_normalize. simpl Z.abs. simpl Z.to_pos.
    change (Zpos m <? 0) with false.
    apply binary_round_scaled; try done. apply digits_bound; lia.
  - replace (Zneg m * 2 ^ n) with (Zneg (shl m n))
      by (pose proof (Zpos_shl m n Hn); lia).
    simpl binary_normalize. simpl Z.abs. simpl Z.to_pos.
    change (Zneg m <? 0) with true.
    apply binary_round_scaled; try done. apply digits_bound; lia.
Qed.

Lemma normalize_integer (k : Z) :
  k <> 0 -> Z.abs k < 2 ^ prec ->
  binary_normalize prec emax k 0 false = canon prec (k <? 0) (Z.to_pos (Z.abs k)).
Proof.
  intros Hk Hb. rewrite <- (normalize_scaled k 0 false) by (done || lia).
  f_equal. lia.
Qed.
End Integers.

Lemma F32_of_int_canon (k : Z) :
  k <> 0 -> Z.abs k < 2 ^ 24 ->
  F32.of_int k = canon 24 (k <? 0) (Z.to_pos (Z.abs k)).
Proof. intros. apply normalize_integer; done || lia. Qed.

Lemma F32_abs_of_int (k : Z) :
  Z.abs k < 2 ^ 24 -> F32.abs (F32.of_int k) = F32.of_int (Z.abs k).
Proof.
  intros Hk. destruct (decide (k = 0)) as [->|Hne]; [done|].
  rewrite !F32_of_int_canon by lia. rewrite Z.abs_idemp.
  replace (Z.abs k <? 0) with false by lia. done.
Qed.

Lemma F32_sub_of_int (i j : Z) :
  0 <= i < 2 ^ 24 -> 0 <= j < 2 ^ 24 ->
  F32.sub (F32.of_int i) (F32.of_int j) = F32.of_int (i - j).
Proof.
  intros Hi Hj.
  destruct (decide (i = 0)) as [->|Hi0], (decide (j = 0)) as [->|Hj0].
  - done.
  - rewrite (F32_of_int_canon j), (F32_of_int_canon (0 - j)) by lia.
    replace (j <? 0) with false by lia. replace (0 - j <? 0) with true by lia.
    replace (Z.abs (0 - j)) with (Z.abs j) by lia. done.
  - rewrite Z.sub_0_r. rewrite F32_of_int_canon by lia. done.
  - destruct (decide (i - j = 0)) as [E|E].
    + replace j with i by lia. rewrite Z.sub_diag, F32_of_int_canon by lia.
      replace (i <? 0) with false by lia. unfold F32.sub, canon, SFsub.
      rewrite Z.sub_diag. done.
    + rewrite (F32_of_int_canon i), (F32_of_int_canon j) by lia.
      replace (i <? 0) with false by lia. replace (j <? 0) with false by lia.
      destruct i as [|mi|mi]; try lia. destruct j as [|mj|mj]; try lia.
      simpl Z.abs. simpl Z.to_pos. unfold canon, F32.sub, SFsub.
      set (di := Zpos (digits2_pos mi)). set (dj := Zpos (digits2_pos mj)).
      assert (Hdi : 1 <= di <= 24) by (split; [lia | apply digits_bound; lia]).
      assert (Hdj : 1 <= dj <= 24) by (split; [lia | apply digits_bound; lia]).
      set (ez := Z.min (di - 24) (dj - 24)).
      assert (Ha : forall m d, 1 <= d <= 24 -> ez <= d - 24 ->
                   (shl_align (shl m (24 - d)) (d - 24) ez).1 = shl m (- ez)).
      { intros m d Hd Hez. unfold shl_align.
        destruct (ez - (d - 24)) as [|q|q] eqn:Hq; simpl; try lia.
        - f_equal. lia.
        - change (Pos.iter xO (shl m (24 - d)) q) with (shl (shl m (24 - d)) (Zpos q)).
          rewrite shl_shl by lia. f_equal. lia. }
      rewrite (Ha mi di), (Ha mj dj) by lia.
      unfold cond_Zopp. rewrite !Zpos_shl by lia.
      rewrite <- Z.mul_sub_distr_r.
      remember (- ez) as n eqn:Hn. replace ez with (- n) by lia.
      unfold F32.prec, F32.emax.
      rewrite (normalize_scaled 24 128) by lia.
      rewrite F32_of_int_canon by lia. done.
Qed.

Lemma F64_of_float_of_int (k : Z) :
  k <> 0 -> Z.abs k < 2 ^ 24 ->
  F64.of_float (F32.of_int k) = canon 53 (k <? 0) (Z.to_pos (Z.abs k)).
Proof.
  intros Hk Hb. rewrite F32_of_int_canon by done. unfold F64.of_float, canon.
  set (m := Z.to_pos (Z.abs k)). set (d := Zpos (digits2_pos m)).
  assert (Hd : 1 <= d <= 24) by (split; [lia | apply digits_bound; lia]).
  replace (cond_Zopp (k <? 0) (Zpos (shl m (24 - d)))) with (k * 2 ^ (24 - d)).
  - replace (d - 24) with (- (24 - d)) by lia.
    rewrite (normalize_scaled 53 1024); [done | lia | lia | done | | lia].
    eapply Z.lt_le_trans; [exact Hb|]. apply Z.pow_le_mono_r; lia.
  - rewrite Zpos_shl by lia. unfold cond_Zopp.
    assert (Hm : Zpos m = Z.abs k) by (subst m; lia). rewrite Hm.
    destruct (Z.ltb_spec k 0); [rewrite Z.abs_neq by lia | rewrite Z.abs_eq by lia]; lia.
Qed.

(** For a row difference that fits 24 bits, the test [|dy| < 20.0] of
    correctVertices is the integer comparison. *)
Lemma low_test_integer (k : Z) :
  0 <= k < 2 ^ 24 ->
  F64.ltb (F64.of_float (F32.of_int k)) (F64.of_int 20) = (k <? 20).
Proof.
  intros Hk. destruct (decide (k = 0)) as [->|Hne]; [done|].
  rewrite F64_of_float_of_int by lia. replace (k <? 0) with false by lia.
  destruct k as [|m|m]; try lia. simpl Z.abs. simpl Z.to_pos.
  change (F64.of_int 20) with (canon 53 false 20).
  unfold canon, F64.ltb, SFltb, SFcompare.
  pose proof (digits_upper m) as Hu. pose proof (digits_lower m) as Hl.
  set (d := Zpos (digits2_pos m)) in *.
  assert (Hd : 1 <= d <= 24) by (split; [lia | apply digits_bound; lia]).
  change (Zpos (digits2_pos 20)) with 5.
  destruct (Z.compare_spec (d - 53) (5 - 53)) as [E|E|E].
  - assert (Hd5 : d = 5) by lia. rewrite Pos.compare_cont_spec.
    replace (53 - d) with 48 by lia. cbn [Pos.switch_Eq].
    rewrite Pos2Z.inj_compare, Zpos_shl by lia.
    change (Zpos (shl 20 (53 - 5))) with (20 * 2 ^ 48).
    destruct (Z.compare_spec (Zpos m * 2 ^ 48) (20 * 2 ^ 48)),
      (Z.ltb_spec (Zpos m) 20); try done; lia.
  - assert (Zpos m < 2 ^ 4).
    { eapply Z.lt_le_trans; [exact Hu|]. apply Z.pow_le_mono_r; lia. }
    destruct (Z.ltb_spec (Zpos m) 20); [done | lia].
  - assert (2 ^ 5 <= Zpos m).
    { eapply Z.le_trans; [|exact Hl]. apply Z.pow_le_mono_r; lia. }
    destruct (Z.ltb_spec (Zpos m) 20); [lia | done].
Qed.

Lemma isLow_integer_rows (xa xb : float) (i j : Z) :
  0 <= i < 2 ^ 24 -> 0 <= j < 2 ^ 24 ->
  isLow (mkResultPoint xa (F32.of_int i)) (mkResultPoint xb (F32.of_int j))
  = (Z.abs (i - j) <? 20).
Proof.
  intros Hi Hj. unfold isLow. simpl getY.
  rewrite F32_sub_of_int, F32_abs_of_int by lia.
  apply low_test_integer. lia.
Qed.

(** ** The separation test of correctVertices *)





(** ** The wide-bar trace terminates *)

Section TraceTerminates.
Variable matrix : BitMatrix.
Variable rowStep : Z.
Hypothesis Hvalid : validMatrix matrix.
Hypothesis Hstep : rowStep = 1 \/ rowStep = -1.

Local Abbreviation rowsAhead := (rowsAhead matrix rowStep).

(** Strictly between the first and the last row every black pixel moves the
    trace one row on, and every white pixel ends it or moves it sideways
    onto a black one: two iterations per row at most. *)
Lemma wideBarLoop_inside (yStart nextBarX : Z) (fuel : nat) :
  forall x y reads,
    0 < y < getHeight matrix - 1 ->
    (2 * rowsAhead y + (if get matrix x y then 0 else 1) < fuel)%nat ->
    (wideBarLoop matrix rowStep yStart nextBarX fuel x y reads).1 <> None.
Proof.
  destruct Hvalid as [Hw Hh].
  induction fuel as [|fuel IH]; intros x y reads Hy Hf; [lia|].
  cbn [wideBarLoop].
  rewrite (to_int_small (getHeight matrix)) by lia.
  rewrite (to_int_small (getHeight matrix - 1)) by lia.
  rewrite (to_int_small (y + rowStep)) by lia.
  destruct (get matrix x y) eqn:Hpix.
  - assert (Hnext : 0 < y + rowStep < getHeight matrix - 1 ->
              forall reads', (wideBarLoop matrix rowStep yStart nextBarX fuel x
                                (y + rowStep) reads').1 <> None).
    { intros Hy' reads'. apply IH; [done|].
      assert (S (rowsAhead (y + rowStep)) = rowsAhead y).
      { unfold rowsAhead. destruct Hstep as [-> | ->]; simpl; lia. }
      destruct (get matrix x (y + rowStep)); lia. }
    destruct (get matrix (to_int (x + nextBarX)) y).
    + destruct (Z.leb_spec (y + rowStep) 0); [done|].
      destruct (Z.geb_spec (y + rowStep) (getHeight matrix - 1)); [done|].
      simpl. apply Hnext. lia.
    + destruct (Z.leb_spec (y + rowStep) 0); [done|].
      destruct (Z.geb_spec (y + rowStep) (getHeight matrix - 1)); [done|].
      simpl. destruct (negb _); [done|]. apply Hnext. lia.
  - assert (Hside : forall x' reads', get matrix x' y = true ->
              (wideBarLoop matrix rowStep yStart nextBarX fuel x' y reads').1 <> None).
    { intros x' reads' Hx'. apply IH; [done|]. rewrite Hx'. lia. }
    destruct (x >? 0).
    + destruct (get matrix (to_int (x - 1)) y) eqn:Hl; [by apply Hside|].
      destruct (x <? _); [|done].
      destruct (get matrix (to_int (x + 1)) y) eqn:Hr; [by apply Hside | done].
    + destruct (x <? _); [|done].
      destruct (get matrix (to_int (x + 1)) y) eqn:Hr; [by apply Hside | done].
Qed.

Lemma rowsAhead_bound (y : Z) :
  0 < y < getHeight matrix - 1 -> (rowsAhead y < Z.to_nat (getHeight matrix))%nat.
Proof. unfold rowsAhead. destruct (rowStep >? 0); lia. Qed.

(** From a black pixel, wherever it is. *)
Lemma wideBarLoop_from_black (yStart nextBarX : Z) (fuel : nat) (x y : Z)
    (reads : list (Z * Z)) :
  get matrix x y = true ->
  (2 * Z.to_nat (getHeight matrix) + 1 < fuel)%nat ->
  (wideBarLoop matrix rowStep yStart nextBarX fuel x y reads).1 <> None.
Proof.
  destruct Hvalid as [Hw Hh]. intros Hpix Hf.
  destruct fuel as [|fuel]; [lia|]. cbn [wideBarLoop]. rewrite Hpix.
  rewrite (to_int_small (getHeight matrix)) by lia.
  rewrite (to_int_small (getHeight matrix - 1)) by lia.
  set (y' := to_int (y + rowStep)).
  assert (Hnext : 0 < y' < getHeight matrix - 1 ->
            forall reads', (wideBarLoop matrix rowStep yStart nextBarX fuel x y'
                              reads').1 <> None).
  { intros Hy' reads'. apply wideBarLoop_inside; [done|].
    pose proof (rowsAhead_bound y' Hy'). destruct (get matrix x y'); lia. }
  destruct (get matrix (to_int (x + nextBarX)) y).
  - destruct (Z.leb_spec y' 0); [done|].
    destruct (Z.geb_spec y' (getHeight matrix - 1)); [done|].
    simpl. apply Hnext. lia.
  - destruct (Z.leb_spec y' 0); [done|].
    destruct (Z.geb_spec y' (getHeight matrix - 1)); [done|].
    simpl. destruct (negb _); [done|]. apply Hnext. lia.
Qed.

(** With the fuel detect hands out, the trace always ends. *)
Lemma wideBarLoop_finishes (yStart nextBarX : Z) (x y : Z) (reads : list (Z * Z)) :
  (wideBarLoop matrix rowStep yStart nextBarX (traceFuel matrix) x y reads).1 <> None.
Proof.
  unfold traceFuel.
  destruct (get matrix x y) eqn:Hpix; [apply wideBarLoop_from_black; [done | lia]|].
  replace (2 * Z.to_nat (getHeight matrix) + 4)%nat
    with (S (2 * Z.to_nat (getHeight matrix) + 3)) by lia.
  cbn [wideBarLoop]. rewrite Hpix.
  assert (Hside : forall x' reads', get matrix x' y = true ->
            (wideBarLoop matrix rowStep yStart nextBarX
               (2 * Z.to_nat (getHeight matrix) + 3) x' y reads').1 <> None).
  { intros x' reads' Hx'. apply wideBarLoop_from_black; [done | lia]. }
  destruct (x >? 0).
  - destruct (get matrix (to_int (x - 1)) y) eqn:Hl; [by apply Hside|].
    destruct (x <? _); [|done].
    destruct (get matrix (to_int (x + 1)) y) eqn:Hr; [by apply Hside | done].
  - destruct (x <? _); [|done].
    destruct (get matrix (to_int (x + 1)) y) eqn:Hr; [by apply Hside | done].
Qed.

Lemma findWideBarTopBottom_finishes (v : Vertices) (offsetVertice : nat)
    (startWideBar lenWideBar lenPattern : Z) :
  (findWideBarTopBottom (traceFuel matrix) matrix v offsetVertice startWideBar
     lenWideBar lenPattern rowStep).1 <> OutOfFuel.
Proof.
  unfold findWideBarTopBottom.
  destruct (vertex v offsetVertice) eqn:E1; [|by unfold vertex in E1; repeat case_match..].
  destruct (vertex v (offsetVertice + 4)) eqn:E2;
    [|by unfold vertex in E2; repeat case_match..].
  destruct (nextBarLoop _ _ _ _ _) as [nextBarX reads].
  match goal with
  | |- context [wideBarLoop ?m ?r ?ys ?nb ?f ?x ?y ?rd] =>
      pose proof (wideBarLoop_finishes ys nb x y rd) as Hfin;
      destruct (wideBarLoop m r ys nb f x y rd) as [[[x' y']|] reads']
  end; [|done].
  by destruct (decide _).
Qed.
End TraceTerminates.

Lemma findCrossingPoint_no_fuel (v : Vertices) (r a1 a2 b1 b2 : nat)
    (matrix : BitMatrix) :
  findCrossingPoint v r a1 a2 b1 b2 matrix <> OutOfFuel.
Proof.
  unfold findCrossingPoint, crossingOf, vertex.
  destruct (v !! a1) as [[?|]|]; [|done..].
  destruct (v !! a2) as [[?|]|]; [|done..].
  destruct (v !! b1) as [[?|]|]; [|done..].
  destruct (v !! b2) as [[?|]|]; [|done..].
  cbn [mbind outcome_bind].
  destruct (_ || _); [done|]. destruct (_ || _); [done|].
  cbn [mbind outcome_bind]. by destruct (decide _).
Qed.

(** On a valid image the correction of the vertices never stops for lack of
    fuel. *)
Lemma correctVertices_finishes (matrix : BitMatrix) (v : Vertices) (upsideDown : bool) :
  validMatrix matrix ->
  correctVertices (traceFuel matrix) matrix v upsideDown <> OutOfFuel.
Proof.
  intros Hvalid. unfold correctVertices, vertex.
  destruct (v !! 4%nat) as [[v4|]|]; [|done..].
  destruct (v !! 5%nat) as [[v5|]|]; [|done..].
  destruct (v !! 6%nat) as [[v6|]|]; [|done..].
  destruct (v !! 7%nat) as [[v7|]|]; [|done..].
  cbn [mbind outcome_bind]. destruct (_ || _); [done|].
  unfold traceAndCross.
  do 4 (match goal with
        | |- context [(findWideBarTopBottom ?f ?m ?w ?o ?s ?l ?p ?r).1] =>
            let H := fresh in
            assert (H : r = 1 \/ r = -1) by (destruct upsideDown; auto);
            pose proof (findWideBarTopBottom_finishes m r Hvalid H w o s l p);
            destruct (findWideBarTopBottom f m w o s l p r).1;
            cbn [mbind outcome_bind]; [|done..]
        end).
  do 3 (match goal with
        | |- context [findCrossingPoint ?w ?r ?a1 ?a2 ?b1 ?b2 ?m] =>
            pose proof (findCrossingPoint_no_fuel w r a1 a2 b1 b2 m);
            destruct (findCrossingPoint w r a1 a2 b1 b2 m);
            cbn [mbind outcome_bind]; [|done..]
        end).
  apply findCrossingPoint_no_fuel.
Qed.

(** * The guard-pattern scan *)

Lemma elem_insert (l : list Z) (i j : nat) (v : Z) :
  (i < length l)%nat ->
  elem (<[i := v]> l) j = if decide (i = j) then v else elem l j.
Proof.
  intros Hi. unfold elem. destruct (decide (i = j)) as [->|Hne].
  - by rewrite list_lookup_insert_eq.
  - by rewrite list_lookup_insert_ne.
Qed.

Lemma sumZ_cons (a : Z) (l : list Z) : sumZ (a :: l) = a + sumZ l.
Proof. reflexivity. Qed.

Lemma elem_cons_0 (a : Z) (l : list Z) : elem (a :: l) 0 = a.
Proof. reflexivity. Qed.

Lemma elem_cons_S (a : Z) (l : list Z) (i : nat) : elem (a :: l) (S i) = elem l i.
Proof. reflexivity. Qed.

Lemma sumZ_app (l k : list Z) : sumZ (l ++ k) = sumZ l + sumZ k.
Proof. induction l as [|a l IH]; [done|]. simpl app. rewrite !sumZ_cons. lia. Qed.

Lemma sumZ_insert (l : list Z) (i : nat) (v : Z) :
  (i < length l)%nat -> sumZ (<[i := v]> l) = sumZ l - elem l i + v.
Proof.
  revert i. induction l as [|a l IH]; intros i Hi; simpl in Hi; [lia|].
  destruct i as [|i]; cbn [list_insert insert]; rewrite !sumZ_cons, ?elem_cons_0, ?elem_cons_S.
  - lia.
  - change (list_insert i v l) with (<[i := v]> l). rewrite IH by lia. lia.
Qed.

Lemma elem_nonneg (l : list Z) (i : nat) :
  Forall (fun c => 0 <= c) l -> 0 <= elem l i.
Proof.
  intros H. unfold elem. destruct (l !! i) as [c|] eqn:E; simpl; [|lia].
  by eapply (Forall_lookup_1 _ _ _ _ H E).
Qed.

Lemma sumZ_nonneg_Forall (l : list Z) : Forall (fun c => 0 <= c) l -> 0 <= sumZ l.
Proof. induction 1; rewrite ?sumZ_cons; [done | lia]. Qed.

Lemma elem_le_sumZ (l : list Z) (i : nat) :
  Forall (fun c => 0 <= c) l -> elem l i <= sumZ l.
Proof.
  revert i. induction l as [|a l IH]; intros i H; [by destruct i|].
  apply Forall_cons in H as [Ha Hl].
  pose proof (sumZ_nonneg_Forall l Hl).
  destruct i as [|i]; rewrite sumZ_cons, ?elem_cons_0, ?elem_cons_S; [lia|].
  specialize (IH i Hl). lia.
Qed.

Lemma sumZ_two (l : list Z) : sumZ l = elem l 0 + elem l 1 + sumZ (drop 2 l).
Proof.
  destruct l as [|a [|b l]]; cbn [drop];
    rewrite ?sumZ_cons, ?elem_cons_S, ?elem_cons_0;
    change (sumZ []) with 0; try change (elem [] 0) with 0;
    try change (elem [] 1) with 0; rewrite ?drop_0; lia.
Qed.

(** The shifting loop in closed form. *)
Lemma shiftLoop_lookup (n : nat) :
  forall (i : nat) (cs : list Z) (j : nat),
    (i + n + 2 <= length cs)%nat ->
    shiftLoop n i cs !! j
    = if decide (i <= j < i + n)%nat then cs !! (j + 2)%nat else cs !! j.
Proof.
  induction n as [|n IH]; intros i cs j Hlen; simpl.
  - destruct (decide _); [lia | done].
  - rewrite IH by (rewrite length_insert; lia).
    destruct (decide (S i <= j < S i + n)%nat), (decide (i <= j < i + S n)%nat);
      try lia.
    + rewrite list_lookup_insert_ne by lia. done.
    + assert (j = i) by lia. subst j.
      rewrite list_lookup_insert_eq by lia. unfold elem.
      destruct (cs !! (i + 2)%nat) eqn:E; [done|].
      apply lookup_ge_None in E. lia.
    + rewrite list_lookup_insert_ne by lia. done.
Qed.

Lemma shiftLoop_closed (cs : list Z) :
  (2 <= length cs)%nat ->
  shiftLoop (length cs - 2) 0 cs = drop 2 cs ++ drop (length cs - 2) cs.
Proof.
  intros Hlen. apply list_eq. intros j.
  rewrite shiftLoop_lookup by lia.
  destruct (decide (0 <= j < 0 + (length cs - 2))%nat).
  - rewrite lookup_app_l by (rewrite length_drop; lia).
    rewrite lookup_drop. f_equal. lia.
  - rewrite lookup_app_r by (rewrite length_drop; lia).
    rewrite lookup_drop, length_drop. f_equal. lia.
Qed.

Lemma slide_closed (cs : list Z) :
  (2 <= length cs)%nat ->
  <[(length cs - 1 - 1)%nat := 1]>
    (<[(length cs - 1)%nat := 0]>
       (<[(length cs - 2)%nat := 0]> (shiftLoop (length cs - 2) 0 cs)))
  = drop 2 cs ++ [1; 0].
Proof.
  intros HL. rewrite shiftLoop_closed by lia.
  assert (Hl2 : length (drop (length cs - 2) cs) = 2%nat)
    by (rewrite length_drop; lia).
  destruct (drop (length cs - 2) cs) as [|b0 [|b1 [|]]]; try done.
  assert (HA : length (drop 2 cs) = (length cs - 2)%nat)
    by (rewrite length_drop; lia).
  replace (length cs - 1 - 1)%nat with (length (drop 2 cs) + 0)%nat by lia.
  replace (length cs - 1)%nat with (length (drop 2 cs) + 1)%nat by lia.
  replace (length cs - 2)%nat with (length (drop 2 cs) + 0)%nat by lia.
  by rewrite !insert_app_r.
Qed.

Lemma guardStep_inv (matrix : BitMatrix) (row : Z) (pattern : list Z) (column : Z)
    (L : nat) (x : Z) (st : GuardScan) :
  (2 <= L)%nat -> 0 <= column -> x < 2 ^ 31 - 1 ->
  scanInv column L x st ->
  match guardStep matrix row pattern L x st with
  | inl loc => loc = (patternStart st, x)
               /\ windowMatches (counters st) pattern = true
               /\ counterPosition st = (L - 1)%nat
  | inr st' => scanInv column L (x + 1) st'
  end.
Proof.
  intros HL Hcol Hx (Hlen & Hcp & Hnn & Hzero & Hps & Hsum).
  pose proof (sumZ_nonneg_Forall _ Hnn) as Hs0.
  unfold guardStep. destruct (xorb _ _).
  - (* the pixel continues the current run *)
    pose proof (elem_nonneg (counters st) (counterPosition st) Hnn).
    pose proof (elem_le_sumZ (counters st) (counterPosition st) Hnn).
    rewrite to_int_small by lia.
    unfold scanInv. cbn [counters counterPosition patternStart].
    rewrite length_insert. split; [done|]. split; [done|].
    split; [apply Forall_insert; [done | lia]|].
    split; [|split; [done|]].
    + intros i Hi. rewrite elem_insert by lia.
      destruct (decide _); [lia | by apply Hzero].
    + rewrite sumZ_insert by lia. lia.
  - destruct (Nat.eqb_spec (counterPosition st) (L - 1)) as [Ecp|Ecp].
    + destruct (windowMatches _ _) eqn:Hm.
      * rewrite !to_int_small by lia. done.
      * (* the window slides by two runs *)
        pose proof (sumZ_two (counters st)) as H2.
        pose proof (elem_nonneg (counters st) 0 Hnn).
        pose proof (elem_nonneg (counters st) 1 Hnn).
        assert (Hd : Forall (fun c => 0 <= c) (drop 2 (counters st)))
          by (by apply Forall_drop).
        pose proof (sumZ_nonneg_Forall _ Hd).
        rewrite (to_int_small (_ + _)) by lia.
        rewrite (to_size_t_small (elem _ 0 + elem _ 1)) by lia.
        rewrite to_size_t_small by lia.
        subst L. rewrite Ecp, slide_closed by lia.
        assert (HA : length (drop 2 (counters st)) = (length (counters st) - 2)%nat)
          by (rewrite length_drop; lia).
        unfold scanInv. cbn [counters counterPosition patternStart].
        rewrite length_app. cbn [length].
        split; [lia|]. split; [lia|].
        split; [apply Forall_app; split; [done | repeat constructor; lia]|].
        split; [|split; [lia|]].
        -- intros i Hi. unfold elem.
           rewrite lookup_app_r by lia.
           destruct (i - length (drop 2 (counters st)))%nat as [|[|k]] eqn:Ek;
             [lia | done | done].
        -- rewrite sumZ_app, !sumZ_cons. change (sumZ []) with 0. lia.
    + (* the next run begins *)
      assert (Hz : elem (counters st) (S (counterPosition st)) = 0) by (apply Hzero; lia).
      unfold scanInv. cbn [counters counterPosition patternStart].
      rewrite length_insert. split; [done|]. split; [lia|].
      split; [apply Forall_insert; [done | lia]|].
      split; [|split; [done|]].
      * intros i Hi. rewrite elem_insert by lia.
        destruct (decide _); [lia | apply Hzero; lia].
      * rewrite sumZ_insert by lia. lia.
Qed.

Lemma runsAt_app (matrix : BitMatrix) (row : Z) (a b : list Z) :
  forall (x : Z) (colour : bool),
    runsAt matrix row x colour (a ++ b)
    <-> runsAt matrix row x colour a
        /\ runsAt matrix row (x + sumZ a) (xorb colour (Nat.odd (length a))) b.
Proof.
  induction a as [|c a IH]; intros x colour.
  - cbn [app runsAt length sumZ foldr Nat.odd]. rewrite xorb_false_r, Z.add_0_r. tauto.
  - cbn [app runsAt length]. rewrite IH, sumZ_cons, Nat.odd_succ, <- Nat.negb_odd.
    replace (xorb (negb colour) (Nat.odd (length a)))
      with (xorb colour (negb (Nat.odd (length a))))
      by (by destruct colour, (Nat.odd (length a))).
    rewrite Z.add_assoc. tauto.
Qed.

Lemma sumZ_zero (l : list Z) : (forall i, elem l i = 0) -> sumZ l = 0.
Proof.
  induction l as [|a l IH]; intros Hz; [done|].
  rewrite sumZ_cons. pose proof (Hz 0%nat) as H0. rewrite elem_cons_0 in H0.
  rewrite IH; [lia|]. intros i. specialize (Hz (S i)). by rewrite elem_cons_S in Hz.
Qed.

Lemma sumZ_take_current (cs : list Z) (cp : nat) :
  (forall i, (cp < i)%nat -> elem cs i = 0) ->
  sumZ (take (S cp) cs) = sumZ cs.
Proof.
  intros Hz. rewrite <- (take_drop (S cp) cs) at 2. rewrite sumZ_app.
  rewrite (sumZ_zero (drop (S cp) cs)); [lia|].
  intros i. unfold elem. rewrite lookup_drop. apply Hz. lia.
Qed.

Lemma take_current (cs : list Z) (cp : nat) :
  (cp < length cs)%nat -> take (S cp) cs = take cp cs ++ [elem cs cp].
Proof.
  intros Hcp. apply take_S_r. unfold elem.
  destruct (lookup_lt_is_Some_2 cs cp Hcp) as [v ->]. done.
Qed.

Lemma runsAt_drop2 (matrix : BitMatrix) (row x : Z) (colour : bool) (cs : list Z) :
  (2 <= length cs)%nat ->
  runsAt matrix row x colour cs ->
  runsAt matrix row (x + (elem cs 0 + elem cs 1)) colour (drop 2 cs).
Proof.
  destruct cs as [|c0 [|c1 rest]]; cbn [length]; [lia | lia |].
  intros _ (_ & _ & Hrest). rewrite elem_cons_0, elem_cons_S, elem_cons_0.
  cbn [drop]. by rewrite negb_involutive, <- Z.add_assoc in Hrest.
Qed.

Lemma guardStep_runs (matrix : BitMatrix) (row : Z) (pattern : list Z)
    (whiteFirst : bool) (column : Z) (L : nat) (x : Z) (st : GuardScan) :
  (2 <= L)%nat -> 0 <= column -> x < 2 ^ 31 - 1 ->
  scanInv column L x st ->
  runInv matrix row whiteFirst st ->
  match guardStep matrix row pattern L x st with
  | inl _ => get matrix x row = xorb whiteFirst (Nat.odd (L - 1))
             /\ runsAt matrix row (patternStart st) (negb whiteFirst) (counters st)
  | inr st' => runInv matrix row whiteFirst st'
  end.
Proof.
  intros HL Hcol Hx (Hlen & Hcp & Hnn & Hzero & Hps & Hsum) (Hw & Hruns & Hpos).
  pose proof (sumZ_nonneg_Forall _ Hnn) as Hs0.
  pose proof (sumZ_take_current _ _ Hzero) as Hcur.
  rewrite take_current in Hruns, Hcur by lia.
  rewrite sumZ_app, sumZ_cons in Hcur. change (sumZ []) with 0 in Hcur.
  apply runsAt_app in Hruns. destruct Hruns as [Hpre [Hlast _]].
  assert (Hlt : length (take (counterPosition st) (counters st)) = counterPosition st)
    by (rewrite length_take; lia).
  rewrite Hlt in Hlast.
  unfold guardStep. destruct (xorb (get matrix x row) (isWhite st)) eqn:Hpix.
  - (* the pixel continues the current run *)
    pose proof (elem_nonneg (counters st) (counterPosition st) Hnn).
    pose proof (elem_le_sumZ (counters st) (counterPosition st) Hnn).
    rewrite to_int_small by lia.
    unfold runInv. cbn [counters counterPosition patternStart isWhite].
    split; [done|]. split.
    + rewrite take_current by (rewrite length_insert; lia).
      rewrite take_insert_ge by lia. rewrite elem_insert by lia.
      rewrite decide_True by done.
      apply runsAt_app. split; [done|]. rewrite Hlt.
      cbn [runsAt]. split; [|done]. intros k Hk.
      destruct (decide (k = x)) as [->|Hne].
      * rewrite Hw in Hpix. clear -Hpix. by destruct (get matrix x row), whiteFirst, (Nat.odd _).
      * apply Hlast. lia.
    + intros i Hi. rewrite elem_insert by lia.
      destruct (decide _) as [<-|]; [|by apply Hpos].
      specialize (Hpos _ Hi). lia.
  - destruct (Nat.eqb_spec (counterPosition st) (L - 1)) as [Ecp|Ecp].
    + assert (Hfull : runsAt matrix row (patternStart st) (negb whiteFirst) (counters st)).
      { rewrite <- (take_ge (counters st) (S (counterPosition st))) by lia.
        rewrite take_current by lia. apply runsAt_app. rewrite Hlt. done. }
      destruct (windowMatches _ _) eqn:Hm.
      * split; [|done]. rewrite <- Ecp, <- Hw.
        by destruct (get matrix x row), (isWhite st).
      * (* the window slides by two runs *)
        pose proof (sumZ_two (counters st)) as H2.
        pose proof (elem_nonneg (counters st) 0 Hnn).
        pose proof (elem_nonneg (counters st) 1 Hnn).
        assert (Hd : Forall (fun c => 0 <= c) (drop 2 (counters st)))
          by (by apply Forall_drop).
        pose proof (sumZ_nonneg_Forall _ Hd).
        rewrite (to_int_small (_ + _)) by lia.
        rewrite (to_size_t_small (elem _ 0 + elem _ 1)) by lia.
        rewrite to_size_t_small by lia.
        subst L. rewrite Ecp, slide_closed by lia.
        assert (HA : length (drop 2 (counters st)) = (length (counters st) - 2)%nat)
          by (rewrite length_drop; lia).
        unfold runInv. cbn [counters counterPosition patternStart isWhite].
        split; [|split].
        -- rewrite Hw, Ecp.
           replace (length (counters st) - 1)%nat
             with (S (length (counters st) - 1 - 1)) at 1 by lia.
           rewrite Nat.odd_succ, <- Nat.negb_odd.
           clear. by destruct whiteFirst, (Nat.odd _).
        -- replace (S (length (counters st) - 1 - 1))
             with (length (drop 2 (counters st) ++ [1]))
             by (rewrite length_app; cbn [length]; lia).
           replace (drop 2 (counters st) ++ [1; 0])
             with ((drop 2 (counters st) ++ [1]) ++ [0])
             by (by rewrite <- app_assoc).
           rewrite take_app_length.
           apply runsAt_app. split.
           ++ apply runsAt_drop2; [lia | done].
           ++ rewrite HA. cbn [runsAt]. split; [|done]. intros k Hk.
              assert (k = x) as -> by lia.
              rewrite Hw, Ecp in Hpix.
              replace (length (counters st) - 1)%nat
                with (S (length (counters st) - 2)) in Hpix by lia.
              rewrite Nat.odd_succ, <- Nat.negb_odd in Hpix.
              clear -Hpix. by destruct (get matrix x row), whiteFirst, (Nat.odd _).
        -- intros i Hi. unfold elem.
           destruct (decide (i < length (counters st) - 2)%nat) as [Hlt'|Hge].
           ++ rewrite lookup_app_l by lia. rewrite lookup_drop.
              apply (Hpos (2 + i)%nat). lia.
           ++ rewrite lookup_app_r by lia.
              replace (i - length (drop 2 (counters st)))%nat with 0%nat by lia.
              done.
    + (* the next run begins *)
      assert (Hz : elem (counters st) (S (counterPosition st)) = 0) by (apply Hzero; lia).
      unfold runInv. cbn [counters counterPosition patternStart isWhite].
      split; [|split].
      * rewrite Hw, Nat.odd_succ, <- Nat.negb_odd.
        clear. by destruct whiteFirst, (Nat.odd _).
      * rewrite take_current by (rewrite length_insert; lia).
        rewrite take_insert_ge by lia. rewrite elem_insert by lia.
        rewrite decide_True by done.
        apply runsAt_app. split.
        -- rewrite take_current by lia. apply runsAt_app. rewrite Hlt. done.
        -- rewrite length_take_le by lia.
           rewrite sumZ_take_current by (intros; apply Hzero; lia).
           cbn [runsAt]. split; [|done]. intros k Hk.
           assert (k = x) as -> by lia.
           rewrite Hw in Hpix. rewrite Nat.odd_succ, <- Nat.negb_odd.
           clear -Hpix. by destruct (get matrix x row), whiteFirst, (Nat.odd _).
      * intros i Hi. rewrite elem_insert by lia.
        destruct (decide _) as [<-|]; [lia | apply Hpos; lia].
Qed.

Lemma nonneg_forallb (l : list Z) :
  Forall (fun c => 0 <= c) l <-> forallb (fun c => 0 <=? c) l = true.
Proof.
  induction l as [|a l IH]; cbn [forallb]; [by split|].
  rewrite Forall_cons, andb_true_iff, Z.leb_le, IH. tauto.
Qed.

Lemma windowMatches_total (window pattern : list Z) :
  length pattern = length window ->
  Forall (fun c => 0 <= c) window ->
  Forall (fun p => 0 <= p) pattern ->
  sumZ window < 2 ^ 64 -> sumZ pattern < 2 ^ 64 ->
  windowMatches window pattern = true ->
  sumZ pattern <= sumZ window.
Proof.
  intros Hlen Hw Hp Hsw Hsp. unfold windowMatches, patternMatchVariance.
  rewrite (sumLoop_exact pattern window pattern 0 0 0);
    [| done | done | by apply nonneg_forallb | by apply nonneg_forallb
     | lia | lia | lia | lia].
  rewrite !Z.add_0_l. destruct (Z.ltb_spec (sumZ window) (sumZ pattern)); [|lia].
  intros Hm. by vm_compute in Hm.
Qed.

Lemma scanInv_start (column : Z) (L : nat) (whiteFirst : bool) :
  (1 <= L)%nat ->
  scanInv column L column (mkGuardScan (replicate L 0) 0 column whiteFirst).
Proof.
  intros HL. unfold scanInv. cbn [counters counterPosition patternStart].
  rewrite length_replicate. split; [done|]. split; [lia|].
  split; [by apply Forall_replicate|].
  assert (Hz : forall i, elem (replicate L 0) i = 0).
  { intros i. unfold elem. destruct (replicate L 0 !! i) as [v|] eqn:E; [|done].
    apply lookup_replicate in E. by destruct E as [-> _]. }
  split; [intros i _; apply Hz|]. split; [lia|].
  rewrite sumZ_zero by done. lia.
Qed.

Lemma runInv_start (matrix : BitMatrix) (row column : Z) (L : nat) (whiteFirst : bool) :
  runInv matrix row whiteFirst (mkGuardScan (replicate L 0) 0 column whiteFirst).
Proof.
  unfold runInv. cbn [counters counterPosition patternStart isWhite Nat.odd].
  split; [by rewrite xorb_false_r|]. split; [|intros i Hi; lia].
  destruct L as [|L]; [done|]. cbn [replicate take runsAt].
  split; [intros k Hk; lia | done].
Qed.

Lemma guardLoop_span (matrix : BitMatrix) (row : Z) (pattern : list Z)
    (whiteFirst : bool) (column : Z) (L : nat) (s e : Z) (window : list Z) :
  (2 <= L)%nat -> 0 <= column ->
  forall (n : nat) (x : Z) (st : GuardScan),
    x + Z.of_nat n <= 2 ^ 31 - 1 ->
    scanInv column L x st ->
    runInv matrix row whiteFirst st ->
    guardLoop matrix row pattern L n x st = (Some (s, e), window) ->
    x <= e < x + Z.of_nat n
    /\ windowMatches window pattern = true
    /\ spanFacts matrix row column whiteFirst L s e window.
Proof.
  intros HL Hcol. induction n as [|n IH]; intros x st Hx Hinv Hrun; [done|].
  cbn [guardLoop].
  pose proof (guardStep_inv matrix row pattern column L x st HL Hcol ltac:(lia) Hinv) as Hstep.
  pose proof (guardStep_runs matrix row pattern whiteFirst column L x st HL Hcol
                ltac:(lia) Hinv Hrun) as Hstep'.
  destruct (guardStep matrix row pattern L x st) as [loc|st'].
  - destruct Hstep as (-> & Hm & Ecp). destruct Hstep' as [Hpix Hruns].
    intros [= <- <- <-].
    destruct Hinv as (Hlen & Hcp & Hnn & Hzero & Hps & Hsum).
    destruct Hrun as (Hw & _ & Hpos).
    split; [lia|]. split; [done|]. unfold spanFacts. repeat split; try done.
    intros i Hi. apply Hpos. lia.
  - intros Hloop.
    destruct (IH (x + 1) st' ltac:(lia) Hstep Hstep' Hloop) as (He & Hrest).
    split; [lia | done].
Qed.

(** X1 (findGuardPattern): a located span [(s, e)] lies inside the scanned
    columns [column .. column + width - 1], is exactly as wide as the
    returned counters add up to, at least as wide as the pattern's total, and
    the returned counters pass the variance test. *)
Theorem findGuardPattern_span_inside (matrix : BitMatrix) (column row width : Z)
    (whiteFirst : bool) (pattern cs : list Z) (s e : Z) (window : list Z) :
  (2 <= length pattern)%nat ->
  length cs = length pattern ->
  forallb (fun p => 0 <=? p) pattern = true ->
  sumZ pattern < 2 ^ 31 ->
  0 <= column -> 0 <= width -> column + width <= 2 ^ 31 - 1 ->
  findGuardPattern matrix column row width whiteFirst pattern (length pattern) cs
  = (Some (s, e), window) ->
  column <= s /\ e < column + width
  /\ e - s = sumZ window
  /\ sumZ pattern <= e - s
  /\ length window = length pattern
  /\ patternMatchVariance window pattern MAX_INDIVIDUAL_VARIANCE < MAX_AVG_VARIANCE.
Proof.
  intros HL Hlen Hp Hsp Hcol Hwidth Hfit. unfold findGuardPattern. rewrite Hlen.
  intros Hloop.
  apply (guardLoop_span matrix row pattern whiteFirst column (length pattern))
    in Hloop; [| done | done | lia | apply scanInv_start; lia | apply runInv_start ].
  destruct Hloop as (He & Hm & Hs & Hsum & Hwl & Hnn & _).
  pose proof (windowMatches_total window pattern ltac:(done) Hnn
                ltac:(by apply nonneg_forallb) ltac:(lia) ltac:(lia) Hm).
  unfold windowMatches in Hm. apply Z.ltb_lt in Hm.
  repeat split; try done; lia.
Qed.

(** X2 (findGuardPattern): the counters returned with a located span are the
    run lengths of the row's pixels from [s] to [e - 1], runs alternating in
    colour from the colour the scan starts on; every run after the first is
    non-empty, and the pixel at [e] begins the next run. *)
Theorem findGuardPattern_window_encodes (matrix : BitMatrix) (column row width : Z)
    (whiteFirst : bool) (L : nat) (pattern cs : list Z) (s e : Z) (window : list Z) :
  (2 <= L)%nat ->
  length cs = L ->
  0 <= column -> 0 <= width -> column + width <= 2 ^ 31 - 1 ->
  findGuardPattern matrix column row width whiteFirst pattern L cs
  = (Some (s, e), window) ->
  runsAt matrix row s (negb whiteFirst) window
  /\ s + sumZ window = e
  /\ get matrix e row = xorb whiteFirst (Nat.odd (L - 1))
  /\ (forall i, (1 <= i < L)%nat -> 1 <= elem window i).
Proof.
  intros HL Hlen Hcol Hwidth Hfit. unfold findGuardPattern. rewrite Hlen.
  intros Hloop.
  apply (guardLoop_span matrix row pattern whiteFirst column L)
    in Hloop; [| done | done | lia | apply scanInv_start; lia | apply runInv_start ].
  destruct Hloop as (He & Hm & Hs & Hsum & Hwl & Hnn & Hpos & Hpix & Hruns).
  done.
Qed.

Lemma findGuardPattern_span_inside_witness :
  findGuardPattern uprightSymbol 0 2 77 false START_PATTERN (length START_PATTERN)
    (replicate 8 0) = (Some (4, 21), [8; 1; 1; 1; 1; 1; 1; 3])
  /\ 0 <= 4 /\ 21 < 0 + 77
  /\ 21 - 4 = sumZ [8; 1; 1; 1; 1; 1; 1; 3]
  /\ sumZ START_PATTERN <= 21 - 4
  /\ length [8; 1; 1; 1; 1; 1; 1; 3] = length START_PATTERN
  /\ patternMatchVariance [8; 1; 1; 1; 1; 1; 1; 3] START_PATTERN MAX_INDIVIDUAL_VARIANCE
     < MAX_AVG_VARIANCE.
Proof.
  split; [vm_compute; reflexivity|].
  apply (findGuardPattern_span_inside uprightSymbol 0 2 77 false START_PATTERN
           (replicate 8 0) 4 21 [8; 1; 1; 1; 1; 1; 1; 3]).
  - vm_compute. lia.
  - reflexivity.
  - reflexivity.
  - vm_compute. reflexivity.
  - lia.
  - lia.
  - lia.
  - vm_compute. reflexivity.
Defined.

Lemma findGuardPattern_window_encodes_witness :
  findGuardPattern uprightSymbol 0 2 77 false START_PATTERN 8 (replicate 8 0)
  = (Some (4, 21), [8; 1; 1; 1; 1; 1; 1; 3])
  /\ runsAt uprightSymbol 2 4 (negb false) [8; 1; 1; 1; 1; 1; 1; 3]
  /\ 4 + sumZ [8; 1; 1; 1; 1; 1; 1; 3] = 21
  /\ get uprightSymbol 21 2 = xorb false (Nat.odd (8 - 1))
  /\ (forall i, (1 <= i < 8)%nat -> 1 <= elem [8; 1; 1; 1; 1; 1; 1; 3] i).
Proof.
  split; [vm_compute; reflexivity|].
  apply (findGuardPattern_window_encodes uprightSymbol 0 2 77 false 8 START_PATTERN
           (replicate 8 0) 4 21 [8; 1; 1; 1; 1; 1; 1; 3]).
  - lia.
  - reflexivity.
  - lia.
  - lia.
  - lia.
  - vm_compute. reflexivity.
Defined.
(** * The row loops *)

Section RowLoopSpec.
Variable matrix : BitMatrix.
Variables height rowStep column width : Z.
Variable whiteFirst : bool.
Variable pattern : list Z.
Variable patternSize : nat.
Hypothesis Hstep : 0 < rowStep < 2 ^ 31.

Local Abbreviation down := (rowsDown matrix height rowStep column width whiteFirst
                          pattern patternSize).
Local Abbreviation up := (rowsUp matrix rowStep column width whiteFirst
                        pattern patternSize).
Local Abbreviation scanRow := (fun (n : nat) (i : Z) =>
  findGuardPattern matrix column i width whiteFirst pattern patternSize (replicate n 0)).

Lemma rowsDown_spec (fuel : nat) :
  0 <= height < 2 ^ 31 ->
  forall (cs : list Z) (i0 : Z), 0 <= i0 ->
  match down fuel cs i0 with
  | RowFuel => (fuel <= Z.to_nat (height - i0))%nat
  | RowNone cs' =>
      length cs' = length cs
      /\ forall k, 0 <= k -> i0 + k * rowStep < height ->
           (scanRow (length cs) (i0 + k * rowStep)).1 = None
  | RowHit loc i cs' =>
      i0 <= i < height /\ (i - i0) mod rowStep = 0
      /\ scanRow (length cs) i = (Some loc, cs')
      /\ forall k, 0 <= k -> i0 + k * rowStep < i ->
           (scanRow (length cs) (i0 + k * rowStep)).1 = None
  end.
Proof.
  intros Hh. induction fuel as [|fuel IH]; intros cs i0 Hi0; [cbn; lia|].
  cbn [rowsDown]. destruct (Z.ltb_spec i0 height) as [Hlt|Hge].
  - rewrite (findGuardPattern_scratch _ _ _ _ _ _ _ cs (replicate (length cs) 0))
      by (by rewrite length_replicate).
    pose proof (findGuardPattern_length matrix column i0 width whiteFirst pattern
                  patternSize (replicate (length cs) 0)) as Hl.
    rewrite length_replicate in Hl.
    destruct (findGuardPattern _ _ _ _ _ _ _ _) as [[loc|] cs1] eqn:E.
    + split; [lia|]. rewrite Z.sub_diag, Z.mod_0_l by lia.
      split; [done|]. split; [done|]. intros k Hk Hlt'. nia.
    + rewrite to_size_t_small by lia. cbn [snd] in Hl.
      specialize (IH cs1 (i0 + rowStep) ltac:(lia)). rewrite Hl in IH.
      assert (Hrows : forall bound : Z,
                 (forall k, 0 <= k -> i0 + rowStep + k * rowStep < bound ->
                    (scanRow (length cs) (i0 + rowStep + k * rowStep)).1 = None) ->
                 forall k, 0 <= k -> i0 + k * rowStep < bound ->
                    (scanRow (length cs) (i0 + k * rowStep)).1 = None).
      { intros bound Hn k Hk Hb. destruct (decide (k = 0)) as [->|Hne].
        - rewrite Z.mul_0_l, Z.add_0_r. by rewrite E.
        - replace (i0 + k * rowStep) with (i0 + rowStep + (k - 1) * rowStep) by lia.
          apply Hn; lia. }
      destruct (down fuel cs1 (i0 + rowStep)) as [|cs'|loc i cs'].
      * lia.
      * destruct IH as [IH1 IH2]. split; [done|]. by apply Hrows.
      * destruct IH as (IH1 & IH2 & IH3 & IH4). split; [lia|].
        split; [|split; [done | by apply Hrows]].
        replace (i - i0) with (i - (i0 + rowStep) + 1 * rowStep) by lia.
        by rewrite Z.mod_add by lia.
  - split; [done|]. intros k Hk Hlt. nia.
Qed.

Lemma rowsUp_spec (conv : Z -> Z) (fuel : nat) :
  (forall z, - 2 ^ 31 <= z < 2 ^ 31 -> conv (to_size_t z) = z) ->
  forall (cs : list Z) (i0 : Z), i0 < 2 ^ 31 ->
  match up conv fuel cs i0 with
  | RowFuel => (fuel <= Z.to_nat i0)%nat
  | RowNone cs' =>
      length cs' = length cs
      /\ forall k, 0 <= k -> 0 < i0 - k * rowStep ->
           (scanRow (length cs) (i0 - k * rowStep)).1 = None
  | RowHit loc i cs' =>
      0 < i <= i0 /\ (i0 - i) mod rowStep = 0
      /\ scanRow (length cs) i = (Some loc, cs')
      /\ forall k, 0 <= k -> i < i0 - k * rowStep ->
           (scanRow (length cs) (i0 - k * rowStep)).1 = None
  end.
Proof.
  intros Hconv. induction fuel as [|fuel IH]; intros cs i0 Hi0; [cbn; lia|].
  cbn [rowsUp]. destruct (Z.gtb_spec i0 0) as [Hgt|Hle].
  - rewrite (to_size_t_small i0) by lia.
    rewrite (findGuardPattern_scratch _ _ _ _ _ _ _ cs (replicate (length cs) 0))
      by (by rewrite length_replicate).
    pose proof (findGuardPattern_length matrix column i0 width whiteFirst pattern
                  patternSize (replicate (length cs) 0)) as Hl.
    rewrite length_replicate in Hl.
    destruct (findGuardPattern _ _ _ _ _ _ _ _) as [[loc|] cs1] eqn:E.
    + split; [lia|]. rewrite Z.sub_diag, Z.mod_0_l by lia.
      split; [done|]. split; [done|]. intros k Hk Hlt'. nia.
    + rewrite Hconv by lia. cbn [snd] in Hl.
      specialize (IH cs1 (i0 - rowStep) ltac:(lia)). rewrite Hl in IH.
      assert (Hrows : forall bound : Z,
                 (forall k, 0 <= k -> bound < i0 - rowStep - k * rowStep ->
                    (scanRow (length cs) (i0 - rowStep - k * rowStep)).1 = None) ->
                 forall k, 0 <= k -> bound < i0 - k * rowStep ->
                    (scanRow (length cs) (i0 - k * rowStep)).1 = None).
      { intros bound Hn k Hk Hb. destruct (decide (k = 0)) as [->|Hne].
        - rewrite Z.mul_0_l, Z.sub_0_r. by rewrite E.
        - replace (i0 - k * rowStep) with (i0 - rowStep - (k - 1) * rowStep) by lia.
          apply Hn; lia. }
      destruct (up conv fuel cs1 (i0 - rowStep)) as [|cs'|loc i cs'].
      * lia.
      * destruct IH as [IH1 IH2]. split; [done|]. by apply Hrows.
      * destruct IH as (IH1 & IH2 & IH3 & IH4). split; [lia|].
        split; [|split; [done | by apply Hrows]].
        replace (i0 - i) with (i0 - rowStep - i + 1 * rowStep) by lia.
        by rewrite Z.mod_add by lia.
  - split; [done|]. intros k Hk Hlt. nia.
Qed.
End RowLoopSpec.
(** * Where the vertices lie *)

Lemma findGuardPattern_located (matrix : BitMatrix) (column row width : Z)
    (whiteFirst : bool) (pattern cs : list Z) (loc : Z * Z) (window : list Z) :
  (2 <= length pattern)%nat ->
  length cs = length pattern ->
  forallb (fun p => 0 <=? p) pattern = true ->
  sumZ pattern < 2 ^ 31 ->
  0 <= column -> 0 <= width -> column + width <= 2 ^ 31 - 1 ->
  findGuardPattern matrix column row width whiteFirst pattern (length pattern) cs
  = (Some loc, window) ->
  spanOf (sumZ pattern) column (column + width) loc.
Proof.
  intros HL Hlen Hp Hsp Hcol Hwidth Hfit. unfold findGuardPattern. rewrite Hlen.
  destruct loc as [s e]. intros Hloop.
  apply (guardLoop_span matrix row pattern whiteFirst column (length pattern))
    in Hloop; [| done | done | lia | apply scanInv_start; lia | apply runInv_start ].
  destruct Hloop as (He & Hm & Hs & Hsum & Hwl & Hnn & _).
  pose proof (windowMatches_total window pattern ltac:(done) Hnn
                ltac:(by apply nonneg_forallb) ltac:(lia) ltac:(lia) Hm).
  unfold spanOf. cbn [fst snd]. lia.
Qed.

Section Located.
Variable matrix : BitMatrix.
Variables height rowStep column width : Z.
Variable whiteFirst : bool.
Variable pattern : list Z.
Hypothesis Hstep : 0 < rowStep < 2 ^ 31.
Hypothesis Hpattern : (2 <= length pattern)%nat.
Hypothesis Hnonneg : forallb (fun p => 0 <=? p) pattern = true.
Hypothesis Htotal : sumZ pattern < 2 ^ 31.
Hypothesis Hcolumn : 0 <= column.
Hypothesis Hwidth : 0 <= width.
Hypothesis Hfit : column + width <= 2 ^ 31 - 1.

Lemma rowsDown_located (fuel : nat) (cs : list Z) (loc : Z * Z) (i : Z) (cs' : list Z) :
  0 <= height < 2 ^ 31 ->
  length cs = length pattern ->
  rowsDown matrix height rowStep column width whiteFirst pattern (length pattern)
    fuel cs 0 = RowHit loc i cs' ->
  (0 <= i < height /\ i mod rowStep = 0)
  /\ spanOf (sumZ pattern) column (column + width) loc.
Proof.
  intros Hh Hlen Hscan.
  pose proof (rowsDown_spec matrix height rowStep column width whiteFirst pattern
                (length pattern) Hstep fuel Hh cs 0 ltac:(lia)) as Hspec.
  rewrite Hscan in Hspec. destruct Hspec as (Hi & Hmod & Hrow & _).
  rewrite Z.sub_0_r in Hmod. split; [done|].
  rewrite Hlen in Hrow.
  by apply findGuardPattern_located in Hrow; [| | rewrite length_replicate |..].
Qed.

Lemma rowsUp_located (conv : Z -> Z) (fuel : nat) (cs : list Z) (i0 : Z)
    (loc : Z * Z) (i : Z) (cs' : list Z) :
  (forall z, - 2 ^ 31 <= z < 2 ^ 31 -> conv (to_size_t z) = z) ->
  i0 < 2 ^ 31 ->
  length cs = length pattern ->
  rowsUp matrix rowStep column width whiteFirst pattern (length pattern) conv
    fuel cs i0 = RowHit loc i cs' ->
  (0 < i <= i0 /\ (i0 - i) mod rowStep = 0)
  /\ spanOf (sumZ pattern) column (column + width) loc.
Proof.
  intros Hconv Hi0 Hlen Hscan.
  pose proof (rowsUp_spec matrix rowStep column width whiteFirst pattern
                (length pattern) Hstep conv fuel Hconv cs i0 Hi0) as Hspec.
  rewrite Hscan in Hspec. destruct Hspec as (Hi & Hmod & Hrow & _).
  split; [done|]. rewrite Hlen in Hrow.
  by apply findGuardPattern_located in Hrow; [| | rewrite length_replicate |..].
Qed.
End Located.

Lemma halfWidth_bounds (w : Z) :
  1 <= w < 2 ^ 31 -> 0 <= Z.shiftr w 1 /\ 2 * Z.shiftr w 1 <= w.
Proof.
  intros Hw. rewrite Z.shiftr_div_pow2 by lia. change (2 ^ 1) with 2.
  pose proof (Z.div_pos w 2). pose proof (Z.mul_div_le w 2). lia.
Qed.

(** Side conditions of the scans of the four guard patterns. *)
Ltac side :=
  first [ assumption | lia | reflexivity | apply length_replicate
        | apply to_long_round_trip | apply to_int_round_trip
        | vm_compute; lia | vm_compute; reflexivity
        | cbv [sumZ foldr START_PATTERN STOP_PATTERN START_PATTERN_REVERSE
               STOP_PATTERN_REVERSE]; lia ].

Lemma findVertices_located (fuel : nat) (matrix : BitMatrix) (rowStep : Z)
    (v : Vertices) :
  validMatrix matrix -> 0 < rowStep < 2 ^ 31 ->
  findVertices fuel matrix rowStep = Return v -> v <> [] ->
  exists loc1 i1 loc2 i2 loc3 i3 loc4 i4,
    v = [point (loc1.1) i1; point (loc2.1) i2; point (loc3.2) i3; point (loc4.2) i4;
         point (loc1.2) i1; point (loc2.2) i2; point (loc3.1) i3; point (loc4.1) i4]
        ++ replicate 8 None
    /\ sampledDown matrix rowStep i1 /\ sampledUp matrix rowStep i2
    /\ sampledDown matrix rowStep i3 /\ sampledUp matrix rowStep i4
    /\ spanOf 17 0 (getWidth matrix) loc1 /\ spanOf 17 0 (getWidth matrix) loc2
    /\ spanOf 18 0 (getWidth matrix) loc3 /\ spanOf 18 0 (getWidth matrix) loc4.
Proof.
  intros [Hw Hh] Hs. rewrite findVertices_closed.
  unfold topLeftScan, bottomLeftScan, topRightScan, bottomRightScan.
  rewrite !(to_size_t_small (getHeight matrix)) by lia.
  rewrite !(to_size_t_small (getWidth matrix)) by lia.
  rewrite !to_size_t_small by lia.
  rewrite !to_long_small by lia.
  destruct (rowsDown _ _ _ _ _ _ START_PATTERN _ _ _ _) as [|cs1|loc1 i1 cs1] eqn:E1;
    cbn [scanKind fourScans]; [done | by intros [= <-] |].
  destruct (rowsUp _ _ _ _ _ START_PATTERN _ _ _ _ _) as [|cs2|loc2 i2 cs2] eqn:E2;
    cbn [scanKind fourScans]; [done | by intros [= <-] |].
  destruct (rowsDown _ _ _ _ _ _ STOP_PATTERN _ _ _ _) as [|cs3|loc3 i3 cs3] eqn:E3;
    cbn [scanKind fourScans]; [done | by intros [= <-] |].
  destruct (rowsUp _ _ _ _ _ STOP_PATTERN _ _ _ _ _) as [|cs4|loc4 i4 cs4] eqn:E4;
    cbn [scanKind fourScans]; [done | by intros [= <-] |].
  intros [= <-] _.
  apply (rowsDown_located matrix (getHeight matrix) rowStep 0 (getWidth matrix) false
           START_PATTERN) in E1; [|side..].
  apply (rowsUp_located matrix rowStep 0 (getWidth matrix) false START_PATTERN)
    in E2; [|side..].
  apply (rowsDown_located matrix (getHeight matrix) rowStep 0 (getWidth matrix) false
           STOP_PATTERN) in E3; [|side..].
  apply (rowsUp_located matrix rowStep 0 (getWidth matrix) false STOP_PATTERN)
    in E4; [|side..].
  exists loc1, i1, loc2, i2, loc3, i3, loc4, i4.
  split; [reflexivity|]. unfold sampledDown, sampledUp, spanOf in *.
  change (sumZ START_PATTERN) with 17 in *. change (sumZ STOP_PATTERN) with 18 in *.
  destruct E1 as [[? ?] (? & ? & ?)], E2 as [[? ?] (? & ? & ?)],
           E3 as [[? ?] (? & ? & ?)], E4 as [[? ?] (? & ? & ?)].
  repeat split; first [assumption | lia].
Qed.

Lemma findVertices180_located (fuel : nat) (matrix : BitMatrix) (rowStep : Z)
    (v : Vertices) :
  validMatrix matrix -> 0 < rowStep < 2 ^ 31 ->
  findVertices180 fuel matrix rowStep = Return v -> v <> [] ->
  let halfWidth := Z.shiftr (getWidth matrix) 1 in
  exists loc1 i1 loc2 i2 loc3 i3 loc4 i4,
    v = [point (loc1.2) i1; point (loc2.2) i2; point (loc3.1) i3; point (loc4.1) i4;
         point (loc1.1) i1; point (loc2.1) i2; point (loc3.2) i3; point (loc4.2) i4]
        ++ replicate 8 None
    /\ sampledUp matrix rowStep i1 /\ sampledDown matrix rowStep i2
    /\ sampledUp matrix rowStep i3 /\ sampledDown matrix rowStep i4
    /\ spanOf 17 halfWidth (2 * halfWidth) loc1
    /\ spanOf 17 halfWidth (2 * halfWidth) loc2
    /\ spanOf 18 0 halfWidth loc3 /\ spanOf 18 0 halfWidth loc4.
Proof.
  intros [Hw Hh] Hs. rewrite findVertices180_closed.
  unfold topLeftScan180, bottomLeftScan180, topRightScan180, bottomRightScan180.
  rewrite !(to_size_t_small (getHeight matrix)) by lia.
  rewrite !(to_size_t_small (getWidth matrix)) by lia.
  rewrite !to_size_t_small by lia.
  rewrite !to_int_small by lia.
  destruct (halfWidth_bounds (getWidth matrix) Hw) as [Hh0 Hh2].
  generalize dependent (Z.shiftr (getWidth matrix) 1). intros hw Hh0 Hh2.
  destruct (rowsUp _ _ hw _ _ START_PATTERN_REVERSE _ _ _ _ _)
    as [|cs1|loc1 i1 cs1] eqn:E1;
    cbn [scanKind fourScans]; [done | by intros [= <-] |].
  destruct (rowsDown _ _ _ hw _ _ START_PATTERN_REVERSE _ _ _ _)
    as [|cs2|loc2 i2 cs2] eqn:E2;
    cbn [scanKind fourScans]; [done | by intros [= <-] |].
  destruct (rowsUp _ _ _ _ _ STOP_PATTERN_REVERSE _ _ _ _ _)
    as [|cs3|loc3 i3 cs3] eqn:E3;
    cbn [scanKind fourScans]; [done | by intros [= <-] |].
  destruct (rowsDown _ _ _ _ _ _ STOP_PATTERN_REVERSE _ _ _ _)
    as [|cs4|loc4 i4 cs4] eqn:E4;
    cbn [scanKind fourScans]; [done | by intros [= <-] |].
  intros [= <-] _.
  apply (rowsUp_located matrix rowStep hw hw true START_PATTERN_REVERSE)
    in E1; [|side..].
  apply (rowsDown_located matrix (getHeight matrix) rowStep hw hw true
           START_PATTERN_REVERSE) in E2; [|side..].
  apply (rowsUp_located matrix rowStep 0 hw false STOP_PATTERN_REVERSE)
    in E3; [|side..].
  apply (rowsDown_located matrix (getHeight matrix) rowStep 0 hw false
           STOP_PATTERN_REVERSE) in E4; [|side..].
  exists loc1, i1, loc2, i2, loc3, i3, loc4, i4.
  split; [reflexivity|]. unfold sampledDown, sampledUp, spanOf in *.
  change (sumZ START_PATTERN_REVERSE) with 17 in *.
  change (sumZ STOP_PATTERN_REVERSE) with 18 in *.
  destruct E1 as [[? ?] (? & ? & ?)], E2 as [[? ?] (? & ? & ?)],
           E3 as [[? ?] (? & ? & ?)], E4 as [[? ?] (? & ? & ?)].
  repeat split; first [assumption | lia].
Qed.

(** ** Images in which no guard pattern can be found *)

Lemma findGuardPattern_narrow (matrix : BitMatrix) (column row width : Z)
    (whiteFirst : bool) (pattern cs : list Z) :
  (2 <= length pattern)%nat ->
  length cs = length pattern ->
  forallb (fun p => 0 <=? p) pattern = true ->
  sumZ pattern < 2 ^ 31 ->
  0 <= column -> 0 <= width -> column + width <= 2 ^ 31 - 1 ->
  width <= sumZ pattern ->
  (findGuardPattern matrix column row width whiteFirst pattern (length pattern) cs).1
  = None.
Proof.
  intros HL Hlen Hp Hsp Hcol Hwidth Hfit Hnarrow.
  destruct (findGuardPattern _ _ _ _ _ _ _ _) as [[loc|] window] eqn:E; [|done].
  apply findGuardPattern_located in E; [|done..].
  unfold spanOf in E. lia.
Qed.

Lemma findGuardPattern_uniform (matrix : BitMatrix) (column row width : Z)
    (whiteFirst : bool) (pattern cs : list Z) (L : nat) (colour : bool) :
  (3 <= L)%nat ->
  length cs = L ->
  0 <= column -> 0 <= width -> column + width <= 2 ^ 31 - 1 ->
  (forall x, column <= x < column + width -> get matrix x row = colour) ->
  (findGuardPattern matrix column row width whiteFirst pattern L cs).1 = None.
Proof.
  intros HL Hlen Hcol Hwidth Hfit Huni.
  destruct (findGuardPattern _ _ _ _ _ _ _ _) as [[[s e]|] window] eqn:E; [|done].
  exfalso. unfold findGuardPattern in E. rewrite Hlen in E.
  apply (guardLoop_span matrix row pattern whiteFirst column L)
    in E; [| lia | done | lia | apply scanInv_start; lia | apply runInv_start ].
  destruct E as (He & _ & Hs & Hsum & Hwl & Hnn & Hpos & _ & Hruns).
  pose proof (Hpos 1%nat ltac:(lia)) as H1. pose proof (Hpos 2%nat ltac:(lia)) as H2.
  destruct window as [|w0 [|w1 [|w2 rest]]]; cbn [length] in Hwl; [lia..|].
  rewrite elem_cons_S, elem_cons_0 in H1.
  rewrite !elem_cons_S, elem_cons_0 in H2.
  apply Forall_cons in Hnn as [Hw0 Hnn]. apply Forall_cons in Hnn as [_ Hnn].
  apply Forall_cons in Hnn as [_ Hnn]. pose proof (sumZ_nonneg_Forall _ Hnn).
  rewrite !sumZ_cons in Hsum.
  cbn [runsAt] in Hruns. destruct Hruns as (_ & Hr1 & Hr2 & _).
  specialize (Hr1 (s + w0) ltac:(lia)). specialize (Hr2 (s + w0 + w1) ltac:(lia)).
  rewrite Huni in Hr1, Hr2 by lia. rewrite Hr1 in Hr2. by destruct whiteFirst.
Qed.

(** The upright search returns the cleared vector when the start pattern is
    found in none of the rows its first loop samples; so does the rotated
    search, whose first loop works upwards on the right half. *)
Lemma findVertices_nothing (matrix : BitMatrix) (rowStep : Z) :
  validMatrix matrix -> 0 < rowStep < 2 ^ 31 ->
  (forall i, 0 <= i < getHeight matrix ->
     (findGuardPattern matrix 0 i (getWidth matrix) false START_PATTERN
        SIZEOF_START_PATTERN (replicate SIZEOF_START_PATTERN 0)).1 = None) ->
  findVertices (scanFuel matrix) matrix rowStep = Return [].
Proof.
  intros [Hw Hh] Hs Hnone. rewrite findVertices_closed.
  unfold topLeftScan.
  rewrite !(to_size_t_small (getHeight matrix)), !(to_size_t_small (getWidth matrix))
    by lia.
  pose proof (rowsDown_spec matrix (getHeight matrix) rowStep 0 (getWidth matrix)
                false START_PATTERN SIZEOF_START_PATTERN Hs (scanFuel matrix)
                ltac:(lia) (replicate SIZEOF_START_PATTERN 0) 0 ltac:(lia)) as Hspec.
  destruct (rowsDown _ _ _ _ _ _ _ _ _ _ _) as [|cs1|loc1 i1 cs1].
  - unfold scanFuel in Hspec. lia.
  - done.
  - destruct Hspec as (Hi & _ & Hrow & _). rewrite length_replicate in Hrow.
    specialize (Hnone i1 Hi). by rewrite Hrow in Hnone.
Qed.

Lemma findVertices180_nothing (matrix : BitMatrix) (rowStep : Z) :
  validMatrix matrix -> 0 < rowStep < 2 ^ 31 ->
  (forall i, 0 <= i < getHeight matrix ->
     (findGuardPattern matrix (Z.shiftr (getWidth matrix) 1) i
        (Z.shiftr (getWidth matrix) 1) true START_PATTERN_REVERSE
        SIZEOF_START_PATTERN_REVERSE (replicate SIZEOF_START_PATTERN_REVERSE 0)).1
     = None) ->
  findVertices180 (scanFuel matrix) matrix rowStep = Return [].
Proof.
  intros [Hw Hh] Hs Hnone. rewrite findVertices180_closed.
  unfold topLeftScan180.
  rewrite !(to_size_t_small (getHeight matrix)), !(to_size_t_small (getWidth matrix))
    by lia.
  rewrite to_size_t_small, to_int_small by lia.
  pose proof (rowsUp_spec matrix rowStep (Z.shiftr (getWidth matrix) 1)
                (Z.shiftr (getWidth matrix) 1)
                true START_PATTERN_REVERSE SIZEOF_START_PATTERN_REVERSE Hs to_int
                (scanFuel matrix) to_int_round_trip
                (replicate SIZEOF_START_PATTERN_REVERSE 0) (getHeight matrix - 1)
                ltac:(lia)) as Hspec.
  destruct (rowsUp _ _ _ _ _ _ _ _ _ _ _) as [|cs1|loc1 i1 cs1].
  - unfold scanFuel in Hspec. lia.
  - done.
  - destruct Hspec as (Hi & _ & Hrow & _). rewrite length_replicate in Hrow.
    specialize (Hnone i1 ltac:(lia)). by rewrite Hrow in Hnone.
Qed.

Section NothingFound.
Variable distance : ResultPoint -> ResultPoint -> float.
Variable PerspectiveTransform : Type.
Variable quadrilateralToQuadrilateral : Quad -> Quad -> PerspectiveTransform.
Variable sampleGrid : BitMatrix -> Z -> Z -> PerspectiveTransform -> outcome BitMatrix.
Variable linesSampler : BitMatrix -> Z -> outcome BitMatrix.

Local Abbreviation detect' :=
  (detect distance PerspectiveTransform quadrilateralToQuadrilateral
     sampleGrid linesSampler).

(** X5 (detect, findVertices, findVertices180, findGuardPattern): an image
    of at most 17 columns holds no guard pattern the scans can find, since a
    located span needs 17 pixels and one more to close its last run: both
    searches come back empty and detect throws "No vertices found.". *)
Theorem detect_narrow_image (image : BinaryBitmap) :
  validMatrix (getBlackMatrix image) ->
  getWidth (getBlackMatrix image) <= 17 ->
  detect' image = ([CallFindVertices 8; CallFindVertices180 8], Throw noVerticesFound).
Proof.
  intros Hvalid Hnarrow. pose proof Hvalid as [Hw Hh].
  destruct (halfWidth_bounds _ Hw) as [Hh0 Hh2].
  apply (detect_rotated _ _ _ _ _ image []); [| |done].
  - apply findVertices_nothing; [done | lia |]. intros i Hi.
    apply findGuardPattern_narrow; side.
  - apply findVertices180_nothing; [done | lia |]. intros i Hi.
    apply findGuardPattern_narrow; side.
Qed.

(** X6 (detect, findVertices, findVertices180, findGuardPattern): on an
    image whose pixels all have one colour, whatever its size, both searches
    come back empty and detect throws "No vertices found.". *)
Theorem detect_uniform_image (image : BinaryBitmap) (colour : bool) :
  validMatrix (getBlackMatrix image) ->
  (forall x y, inBounds (getBlackMatrix image) x y = true ->
     get (getBlackMatrix image) x y = colour) ->
  detect' image = ([CallFindVertices 8; CallFindVertices180 8], Throw noVerticesFound).
Proof.
  intros Hvalid Huni. pose proof Hvalid as [Hw Hh].
  destruct (halfWidth_bounds _ Hw) as [Hh0 Hh2].
  apply (detect_rotated _ _ _ _ _ image []); [| |done].
  - apply findVertices_nothing; [done | lia |]. intros i Hi.
    apply (findGuardPattern_uniform _ _ _ _ _ _ _ _ colour); [side..|].
    intros x Hx. apply Huni. unfold inBounds.
    repeat (apply andb_true_intro; split); lia.
  - apply findVertices180_nothing; [done | lia |]. intros i Hi.
    apply (findGuardPattern_uniform _ _ _ _ _ _ _ _ colour); [side..|].
    intros x Hx. apply Huni. unfold inBounds.
    repeat (apply andb_true_intro; split); lia.
Qed.
End NothingFound.

(** ** Images too low for the corner correction *)

Lemma correctVertices_low (fuel : nat) (matrix : BitMatrix) (v : Vertices)
    (upsideDown : bool) (x4 x5 i j : Z) (p6 p7 : ResultPoint) :
  v !! 4%nat = Some (point x4 i) -> v !! 5%nat = Some (point x5 j) ->
  v !! 6%nat = Some (Some p6) -> v !! 7%nat = Some (Some p7) ->
  0 <= i < 2 ^ 24 -> 0 <= j < 2 ^ 24 -> Z.abs (i - j) < 20 ->
  correctVertices fuel matrix v upsideDown = Throw notEnoughGuardPatterns.
Proof.
  intros H4 H5 H6 H7 Hi Hj Hlow. unfold correctVertices, vertex.
  rewrite H4, H5, H6, H7. unfold point. cbn [mbind outcome_bind].
  rewrite isLow_integer_rows by done.
  destruct (Z.ltb_spec (Z.abs (i - j)) 20); [done | lia].
Qed.

Section LowImages.
Variable distance : ResultPoint -> ResultPoint -> float.
Variable PerspectiveTransform : Type.
Variable quadrilateralToQuadrilateral : Quad -> Quad -> PerspectiveTransform.
Variable sampleGrid : BitMatrix -> Z -> Z -> PerspectiveTransform -> outcome BitMatrix.
Variable linesSampler : BitMatrix -> Z -> outcome BitMatrix.

Local Abbreviation detect' :=
  (detect distance PerspectiveTransform quadrilateralToQuadrilateral
     sampleGrid linesSampler).

(** X7 (detect, correctVertices): an image of at most 20 rows is never
    decoded. Either no vertices are found, or the rows of the two left
    corners are less than 20 apart and correctVertices throws "Cannot find
    enough PDF417 guard patterns!", before any sampling. *)
Theorem detect_low_image (image : BinaryBitmap) :
  validMatrix (getBlackMatrix image) ->
  getHeight (getBlackMatrix image) <= 20 ->
  detect' image = ([CallFindVertices 8; CallFindVertices180 8], Throw noVerticesFound)
  \/ detect' image
     = ([CallFindVertices 8; CallCorrectVertices false], Throw notEnoughGuardPatterns)
  \/ detect' image
     = ([CallFindVertices 8; CallFindVertices180 8; CallCorrectVertices true],
        Throw notEnoughGuardPatterns).
Proof.
  intros Hvalid Hlow. pose proof Hvalid as [Hw Hh].
  destruct (findVertices_finishes _ 8 Hvalid ltac:(lia)) as [v Hv].
  destruct (decide (v = [])) as [->|Hne].
  - destruct (findVertices180_finishes _ 8 Hvalid ltac:(lia)) as [v' Hv'].
    destruct (detect_rotated distance PerspectiveTransform quadrilateralToQuadrilateral
                sampleGrid linesSampler image v' Hv Hv') as [Hnone Hsome].
    destruct (decide (v' = [])) as [->|Hne']; [left; by apply Hnone|].
    right; right. destruct (Hsome Hne') as [Hl _].
    destruct (findVertices180_located _ _ 8 _ Hvalid ltac:(lia) Hv' Hne')
      as (loc1 & i1 & loc2 & i2 & loc3 & i3 & loc4 & i4 & -> & [Hi1 _] & [Hi2 _] & _).
    unfold detect. rewrite Hl.
    erewrite correctVertices_low; [reflexivity | reflexivity.. | lia | lia | lia].
  - right; left.
    destruct (detect_upright distance PerspectiveTransform quadrilateralToQuadrilateral
                sampleGrid linesSampler image v Hv Hne) as [Hl _].
    destruct (findVertices_located _ _ 8 _ Hvalid ltac:(lia) Hv Hne)
      as (loc1 & i1 & loc2 & i2 & loc3 & i3 & loc4 & i4 & -> & [Hi1 _] & [Hi2 _] & _).
    unfold detect. rewrite Hl.
    erewrite correctVertices_low; [reflexivity | reflexivity.. | lia | lia | lia].
Qed.
End LowImages.

Lemma detect_narrow_image_witness :
  validMatrix startOnly
  /\ detectWithStandIns startOnly
     = ([CallFindVertices 8; CallFindVertices180 8], Throw noVerticesFound).
Proof.
  assert (Hvalid : validMatrix startOnly) by (unfold validMatrix; simpl; lia).
  split; [exact Hvalid|].
  apply (detect_narrow_image euclidean (Quad * Quad) quadPair blankGrid sameLines
           (mkBinaryBitmap startOnly) Hvalid).
  simpl. lia.
Defined.

Lemma detect_uniform_image_witness :
  validMatrix blackImage
  /\ detectWithStandIns blackImage
     = ([CallFindVertices 8; CallFindVertices180 8], Throw noVerticesFound).
Proof.
  assert (Hvalid : validMatrix blackImage) by (unfold validMatrix; simpl; lia).
  split; [exact Hvalid|].
  apply (detect_uniform_image euclidean (Quad * Quad) quadPair blankGrid sameLines
           (mkBinaryBitmap blackImage) true Hvalid).
  reflexivity.
Defined.

Lemma detect_low_image_witness :
  validMatrix lowImage
  /\ (detectWithStandIns lowImage
      = ([CallFindVertices 8; CallFindVertices180 8], Throw noVerticesFound)
      \/ detectWithStandIns lowImage
         = ([CallFindVertices 8; CallCorrectVertices false],
            Throw notEnoughGuardPatterns)
      \/ detectWithStandIns lowImage
         = ([CallFindVertices 8; CallFindVertices180 8; CallCorrectVertices true],
            Throw notEnoughGuardPatterns)).
Proof.
  assert (Hvalid : validMatrix lowImage) by (unfold validMatrix; simpl; lia).
  split; [exact Hvalid|].
  apply (detect_low_image euclidean (Quad * Quad) quadPair blankGrid sameLines
           (mkBinaryBitmap lowImage) Hvalid).
  simpl. lia.
Defined.

(** * The corner correction *)

Lemma findWideBarTopBottom_returns (fuel : nat) (matrix : BitMatrix) (v : Vertices)
    (offsetVertice : nat) (startWideBar lenWideBar lenPattern rowStep : Z)
    (verticeStart verticeEnd : ResultPoint) :
  vertex v offsetVertice = Return verticeStart ->
  vertex v (offsetVertice + 4) = Return verticeEnd ->
  (offsetVertice + 8 < length v)%nat ->
  match (findWideBarTopBottom fuel matrix v offsetVertice startWideBar lenWideBar
           lenPattern rowStep).1 with
  | Return v' => exists x y, v' = <[(offsetVertice + 8)%nat := point x y]> v
  | OutOfFuel => True
  | _ => False
  end.
Proof.
  intros Hs He Hlen. unfold findWideBarTopBottom. rewrite Hs, He.
  destruct (nextBarLoop _ _ _ _ _) as [nextBarX reads].
  destruct (wideBarLoop _ _ _ _ _ _ _ _) as [[[x y]|] reads']; [|done].
  destruct (decide _); [|done]. cbn [fst]. by exists x, y.
Qed.

Lemma findCrossingPoint_returns (v : Vertices) (r a1 a2 b1 b2 : nat)
    (matrix : BitMatrix) (p1 p2 p3 p4 : ResultPoint) :
  validMatrix matrix ->
  vertex v a1 = Return p1 -> vertex v a2 = Return p2 ->
  vertex v b1 = Return p3 -> vertex v b2 = Return p4 ->
  (r < length v)%nat ->
  match findCrossingPoint v r a1 a2 b1 b2 matrix with
  | Return v' => exists p, v' = <[r := Some p]> v /\ roundsInside matrix p
  | Throw what => what = parallelLines \/ what = outOfRegion
  | _ => False
  end.
Proof.
  intros [Hw Hh] H1 H2 H3 H4 Hr. unfold findCrossingPoint.
  rewrite H1, H2, H3, H4. cbn [mbind outcome_bind]. unfold crossingOf.
  destruct (_ || _); cbn [mbind outcome_bind]; [by left|].
  rewrite !to_int_small by lia.
  destruct (_ || _) eqn:Hout; cbn [mbind outcome_bind]; [by right|].
  destruct (decide _); [|done].
  eexists. split; [reflexivity|]. unfold roundsInside, inBounds. cbn [getX getY].
  repeat (apply orb_false_elim in Hout as [Hout ?]).
  repeat (apply andb_true_intro; split); lia.
Qed.

Lemma eightFound_shape (v : Vertices) :
  eightFound v ->
  exists p0 p1 p2 p3 p4 p5 p6 p7 o8 o9 o10 o11 o12 o13 o14 o15,
    v = [Some p0; Some p1; Some p2; Some p3; Some p4; Some p5; Some p6; Some p7;
         o8; o9; o10; o11; o12; o13; o14; o15].
Proof.
  intros [Hlen Hpop].
  do 16 (destruct v as [|? v]; [done|]). destruct v; [|done].
  destruct (Hpop 0%nat ltac:(lia)) as [p0 [= ->]].
  destruct (Hpop 1%nat ltac:(lia)) as [p1 [= ->]].
  destruct (Hpop 2%nat ltac:(lia)) as [p2 [= ->]].
  destruct (Hpop 3%nat ltac:(lia)) as [p3 [= ->]].
  destruct (Hpop 4%nat ltac:(lia)) as [p4 [= ->]].
  destruct (Hpop 5%nat ltac:(lia)) as [p5 [= ->]].
  destruct (Hpop 6%nat ltac:(lia)) as [p6 [= ->]].
  destruct (Hpop 7%nat ltac:(lia)) as [p7 [= ->]].
  by repeat eexists.
Qed.

(** One wide-bar trace of traceAndCross, on a vector whose slots are known. *)
Ltac trace_step :=
  match goal with
  | |- context [(findWideBarTopBottom ?f ?m ?w ?o ?s ?l ?p ?r).1] =>
      let H := fresh "Htrace" in
      pose proof (findWideBarTopBottom_returns f m w o s l p r _ _
                    eq_refl eq_refl ltac:(cbn [length]; lia)) as H;
      destruct (findWideBarTopBottom f m w o s l p r).1;
      cbn [mbind outcome_bind]; [|done..];
      destruct H as (? & ? & ->); cbn [insert list_insert Nat.add]
  end.

(** One intersection of traceAndCross, likewise. *)
Ltac cross_step Hvalid :=
  match goal with
  | |- context [findCrossingPoint ?w ?r ?a1 ?a2 ?b1 ?b2 ?m] =>
      let H := fresh "Hcross" in
      pose proof (findCrossingPoint_returns w r a1 a2 b1 b2 m _ _ _ _ Hvalid
                    eq_refl eq_refl eq_refl eq_refl ltac:(cbn [length]; lia)) as H;
      destruct (findCrossingPoint w r a1 a2 b1 b2 m);
      cbn [mbind outcome_bind]; [|tauto..];
      destruct H as (? & -> & ?); cbn [insert list_insert]
  end.

Lemma correctVertices_shape (fuel : nat) (matrix : BitMatrix) (upsideDown : bool)
    (p0 p1 p2 p3 p4 p5 p6 p7 : ResultPoint)
    (o8 o9 o10 o11 o12 o13 o14 o15 : option ResultPoint) :
  validMatrix matrix ->
  match correctVertices fuel matrix
          [Some p0; Some p1; Some p2; Some p3; Some p4; Some p5; Some p6; Some p7;
           o8; o9; o10; o11; o12; o13; o14; o15] upsideDown with
  | Return v' =>
      exists x8 y8 x9 y9 x10 y10 x11 y11 p12 p13 p14 p15,
        v' = [Some p0; Some p1; Some p2; Some p3; Some p4; Some p5; Some p6; Some p7;
              point x8 y8; point x9 y9; point x10 y10; point x11 y11;
              Some p12; Some p13; Some p14; Some p15]
        /\ roundsInside matrix p12 /\ roundsInside matrix p13
        /\ roundsInside matrix p14 /\ roundsInside matrix p15
  | Throw what =>
      what = notEnoughGuardPatterns \/ what = parallelLines \/ what = outOfRegion
  | Fault => False
  | OutOfFuel => True
  end.
Proof.
  intros Hvalid. unfold correctVertices.
  change (vertex _ 4) with (Return p4). change (vertex _ 5) with (Return p5).
  change (vertex _ 6) with (Return p6). change (vertex _ 7) with (Return p7).
  cbn [mbind outcome_bind]. destruct (_ || _); [by left|].
  unfold traceAndCross.
  do 4 trace_step. do 4 (cross_step Hvalid).
  by repeat eexists.
Qed.

Lemma correctVertices_found (fuel : nat) (matrix : BitMatrix) (v : Vertices)
    (upsideDown : bool) :
  validMatrix matrix -> eightFound v ->
  match correctVertices fuel matrix v upsideDown with
  | Return v' =>
      exists p0 p1 p2 p3 p4 p5 p6 p7 o8 o9 o10 o11 o12 o13 o14 o15
             x8 y8 x9 y9 x10 y10 x11 y11 p12 p13 p14 p15,
        v = [Some p0; Some p1; Some p2; Some p3; Some p4; Some p5; Some p6; Some p7;
             o8; o9; o10; o11; o12; o13; o14; o15]
        /\ v' = [Some p0; Some p1; Some p2; Some p3; Some p4; Some p5; Some p6;
                 Some p7; point x8 y8; point x9 y9; point x10 y10; point x11 y11;
                 Some p12; Some p13; Some p14; Some p15]
        /\ roundsInside matrix p12 /\ roundsInside matrix p13
        /\ roundsInside matrix p14 /\ roundsInside matrix p15
  | Throw what =>
      what = notEnoughGuardPatterns \/ what = parallelLines \/ what = outOfRegion
  | Fault => False
  | OutOfFuel => True
  end.
Proof.
  intros Hvalid Hv.
  destruct (eightFound_shape v Hv)
    as (p0 & p1 & p2 & p3 & p4 & p5 & p6 & p7
        & o8 & o9 & o10 & o11 & o12 & o13 & o14 & o15 & ->).
  pose proof (correctVertices_shape fuel matrix upsideDown p0 p1 p2 p3 p4 p5 p6 p7
                o8 o9 o10 o11 o12 o13 o14 o15 Hvalid) as Hshape.
  destruct (correctVertices _ _ _ _) as [v'| | |]; [|done..].
  destruct Hshape as (x8 & y8 & x9 & y9 & x10 & y10 & x11 & y11
                      & p12 & p13 & p14 & p15 & -> & Hin).
  by exists p0, p1, p2, p3, p4, p5, p6, p7, o8, o9, o10, o11, o12, o13, o14, o15,
            x8, y8, x9, y9, x10, y10, x11, y11, p12, p13, p14, p15.
Qed.

Lemma findVertices_eightFound (fuel : nat) (matrix : BitMatrix) (rowStep : Z)
    (v : Vertices) :
  findVertices fuel matrix rowStep = Return v -> v <> [] -> eightFound v.
Proof.
  rewrite findVertices_closed. intros Hv Hne.
  apply fourScans_all_or_none in Hv as [[->|Hv] _]; done.
Qed.

Lemma findVertices180_eightFound (fuel : nat) (matrix : BitMatrix) (rowStep : Z)
    (v : Vertices) :
  findVertices180 fuel matrix rowStep = Return v -> v <> [] -> eightFound v.
Proof.
  rewrite findVertices180_closed. intros Hv Hne.
  apply fourScans_all_or_none in Hv as [[->|Hv] _]; done.
Qed.

(** ** The exact result of the correction *)

Lemma tracedEnd_frame (fuel : nat) (matrix : BitMatrix) (v w : Vertices)
    (offsetVertice : nat) (startWideBar lenWideBar lenPattern rowStep x y : Z)
    (verticeStart verticeEnd : ResultPoint) :
  vertex v offsetVertice = Return verticeStart ->
  vertex v (offsetVertice + 4) = Return verticeEnd ->
  vertex w offsetVertice = Return verticeStart ->
  vertex w (offsetVertice + 4) = Return verticeEnd ->
  (offsetVertice + 8 < length v)%nat -> (offsetVertice + 8 < length w)%nat ->
  tracedEnd fuel matrix v offsetVertice startWideBar lenWideBar lenPattern rowStep x y ->
  tracedEnd fuel matrix w offsetVertice startWideBar lenWideBar lenPattern rowStep x y.
Proof.
  intros Hs He Hs' He' Hl Hl'. unfold tracedEnd, findWideBarTopBottom.
  rewrite Hs, He, Hs', He'.
  destruct (nextBarLoop _ _ _ _ _) as [nextBarX reads].
  destruct (wideBarLoop _ _ _ _ _ _ _ _) as [[[x' y']|] reads']; [|done].
  destruct (decide (offsetVertice + 8 < length v)%nat); [|done].
  destruct (decide (offsetVertice + 8 < length w)%nat); [|done].
  cbn [fst]. intros [= E]. f_equal.
  apply (f_equal (fun l => l !! (offsetVertice + 8)%nat)) in E.
  rewrite !list_lookup_insert_eq in E by done.
  assert (Hp : point x' y' = point x y) by congruence. by rewrite Hp.
Qed.

Lemma findCrossingPoint_exact (v : Vertices) (r a1 a2 b1 b2 : nat)
    (matrix : BitMatrix) (p1 p2 p3 p4 : ResultPoint) :
  vertex v a1 = Return p1 -> vertex v a2 = Return p2 ->
  vertex v b1 = Return p3 -> vertex v b2 = Return p4 ->
  (r < length v)%nat ->
  findCrossingPoint v r a1 a2 b1 b2 matrix
  = c ← crossingOf matrix (pointOf p1) (pointOf p2) (pointOf p3) (pointOf p4);
    Return (<[r := crossing c]> v).
Proof.
  intros H1 H2 H3 H4 Hr. unfold findCrossingPoint.
  rewrite H1, H2, H3, H4. cbn [mbind outcome_bind].
  destruct (crossingOf _ _ _ _ _); [|done..].
  by destruct (decide _).
Qed.

(** One wide-bar trace of traceAndCross that returned, told in terms of the
    vector [v] the correction started from. *)
Ltac traced_step v :=
  match goal with
  | |- context [(findWideBarTopBottom ?f ?m ?w ?o ?s ?l ?p ?r).1] =>
      let H := fresh "Htrace" in
      let E := fresh "Eend" in
      pose proof (findWideBarTopBottom_returns f m w o s l p r _ _
                    eq_refl eq_refl ltac:(cbn [length]; lia)) as H;
      destruct (findWideBarTopBottom f m w o s l p r).1 eqn:E;
      cbn [mbind outcome_bind]; [|done..];
      destruct H as (? & ? & ->);
      apply (tracedEnd_frame f m w v o s l p r _ _ _ _ eq_refl eq_refl eq_refl eq_refl
               ltac:(cbn [length]; lia) ltac:(unfold v; cbn [length]; lia)) in E;
      cbn [insert list_insert Nat.add]
  end.

Ltac crossed_step :=
  match goal with
  | |- context [findCrossingPoint ?w ?r ?a1 ?a2 ?b1 ?b2 ?m] =>
      let E := fresh "Ecross" in
      rewrite (findCrossingPoint_exact w r a1 a2 b1 b2 m _ _ _ _
                 eq_refl eq_refl eq_refl eq_refl ltac:(cbn [length]; lia));
      match goal with
      | |- context [crossingOf ?m ?a ?b ?c ?d] =>
          destruct (crossingOf m a b c d) eqn:E
      end;
      cbn [mbind outcome_bind]; [|done..];
      cbn [insert list_insert]
  end.

Lemma traceAndCross_exact (fuel : nat) (matrix : BitMatrix) (upsideDown : bool)
    (p0 p1 p2 p3 p4 p5 p6 p7 : ResultPoint)
    (o8 o9 o10 o11 o12 o13 o14 o15 : option ResultPoint) (v' : Vertices) :
  let v := [Some p0; Some p1; Some p2; Some p3; Some p4; Some p5; Some p6; Some p7;
            o8; o9; o10; o11; o12; o13; o14; o15] in
  traceAndCross fuel matrix v upsideDown = Return v'
  <-> tracedAndCrossed fuel matrix v upsideDown v'.
Proof.
  intros v. split.
  - unfold traceAndCross. subst v.
    set (v := [Some p0; Some p1; Some p2; Some p3; Some p4; Some p5; Some p6;
               Some p7; o8; o9; o10; o11; o12; o13; o14; o15]).
    unfold v at 1.
    do 4 (traced_step v). do 4 crossed_step.
    intros [= <-].
    exists p4, p5, p6, p7. repeat eexists; eassumption.
  - intros (q4 & q5 & q6 & q7 & x8 & y8 & x9 & y9 & x10 & y10 & x11 & y11
            & c12 & c13 & c14 & c15 & [= <-] & [= <-] & [= <-] & [= <-]
            & E8 & E9 & E10 & E11 & C12 & C13 & C14 & C15 & ->).
    unfold traceAndCross.
    set (w1 := <[8%nat := point x8 y8]> v).
    set (w2 := <[9%nat := point x9 y9]> w1).
    set (w3 := <[10%nat := point x10 y10]> w2).
    set (w4 := <[11%nat := point x11 y11]> w3).
    assert (F9 := tracedEnd_frame fuel matrix v w1 1 0 8 17 _ x9 y9 p1 p5
                    eq_refl eq_refl eq_refl eq_refl
                    ltac:(unfold v; cbn [length]; lia)
                    ltac:(unfold w1, v; cbn [length insert list_insert]; lia) E9).
    assert (F10 := tracedEnd_frame fuel matrix v w2 2 11 7 18 _ x10 y10 p2 p6
                     eq_refl eq_refl eq_refl eq_refl
                     ltac:(unfold v; cbn [length]; lia)
                     ltac:(unfold w2, w1, v; cbn [length insert list_insert]; lia) E10).
    assert (F11 := tracedEnd_frame fuel matrix v w3 3 11 7 18 _ x11 y11 p3 p7
                     eq_refl eq_refl eq_refl eq_refl
                     ltac:(unfold v; cbn [length]; lia)
                     ltac:(unfold w3, w2, w1, v; cbn [length insert list_insert]; lia)
                     E11).
    unfold tracedEnd in E8, F9, F10, F11.
    rewrite E8. cbn [mbind outcome_bind Nat.add]. fold w1.
    rewrite F9. cbn [mbind outcome_bind Nat.add]. fold w2.
    rewrite F10. cbn [mbind outcome_bind Nat.add]. fold w3.
    rewrite F11. cbn [mbind outcome_bind Nat.add]. fold w4.
    unfold w4, w3, w2, w1, v. cbn [insert list_insert Nat.add].
    do 4 (match goal with
          | |- context [findCrossingPoint ?w ?r ?a1 ?a2 ?b1 ?b2 ?m] =>
              rewrite (findCrossingPoint_exact w r a1 a2 b1 b2 m _ _ _ _
                         eq_refl eq_refl eq_refl eq_refl ltac:(cbn [length]; lia));
              change (pointOf (mkResultPoint (F32.of_int ?a) (F32.of_int ?b)))
                with (pt a b);
              rewrite ?C12, ?C13, ?C14, ?C15;
              cbn [mbind outcome_bind insert list_insert]
          end).
    reflexivity.
Qed.

Lemma correctVertices_returns (fuel : nat) (matrix : BitMatrix) (v : Vertices)
    (upsideDown : bool) (v' : Vertices) :
  eightFound v ->
  correctVertices fuel matrix v upsideDown = Return v'
  <-> exists p4 p5 p6 p7,
        v !! 4%nat = Some (Some p4) /\ v !! 5%nat = Some (Some p5)
        /\ v !! 6%nat = Some (Some p6) /\ v !! 7%nat = Some (Some p7)
        /\ isLow p4 p5 = false /\ isLow p6 p7 = false
        /\ tracedAndCrossed fuel matrix v upsideDown v'.
Proof.
  intros Hv.
  destruct (eightFound_shape v Hv)
    as (p0 & p1 & p2 & p3 & p4 & p5 & p6 & p7
        & o8 & o9 & o10 & o11 & o12 & o13 & o14 & o15 & ->).
  pose proof (traceAndCross_exact fuel matrix upsideDown p0 p1 p2 p3 p4 p5 p6 p7
                o8 o9 o10 o11 o12 o13 o14 o15 v') as Hexact.
  cbv zeta in Hexact.
  unfold correctVertices.
  change (vertex _ 4) with (Return p4). change (vertex _ 5) with (Return p5).
  change (vertex _ 6) with (Return p6). change (vertex _ 7) with (Return p7).
  cbn [mbind outcome_bind].
  split.
  - intros H. exists p4, p5, p6, p7. do 4 (split; [reflexivity|]).
    destruct (isLow p4 p5); [done|]. destruct (isLow p6 p7); [done|].
    split; [done|]. split; [done|]. by apply Hexact.
  - intros (q4 & q5 & q6 & q7 & [= <-] & [= <-] & [= <-] & [= <-] & L1 & L2 & H).
    rewrite L1, L2. by apply Hexact.
Qed.

(** X8 (correctVertices): what a successful correction returns. The
    vector keeps its sixteen slots and the eight points found by the vertex
    search; slots 8 to 11 hold the ends of the four wide-bar traces, points
    with integer coordinates; slots 12 to 15 hold the four crossing points,
    each of which rounds to a pixel inside the image. Which traces and which
    crossings is told by [tracedAndCrossed]: the traces between slots 0 and
    4, 1 and 5 (bar at modules 0 to 8 of 17), 2 and 6, 3 and 7 (bar at
    modules 11 to 18 of 18), each run on the vector as the vertex search
    left it; the crossings of the lines (4, 5) and (6, 7) with the lines
    (8, 10) and (9, 11). *)
Theorem correctVertices_corrected (fuel : nat) (matrix : BitMatrix) (v : Vertices)
    (upsideDown : bool) (v' : Vertices) :
  validMatrix matrix -> eightFound v ->
  correctVertices fuel matrix v upsideDown = Return v' ->
  length v' = COUNT_VERTICES
  /\ take 8 v' = take 8 v
  /\ tracedAndCrossed fuel matrix v upsideDown v'
  /\ (forall i, (8 <= i < 12)%nat -> exists x y, v' !! i = Some (point x y))
  /\ (forall i, (12 <= i < 16)%nat ->
        exists p, v' !! i = Some (Some p) /\ roundsInside matrix p).
Proof.
  intros Hvalid Hv Hc.
  assert (Hexact : tracedAndCrossed fuel matrix v upsideDown v').
  { apply (correctVertices_returns fuel matrix v upsideDown v' Hv) in Hc.
    by destruct Hc as (p4 & p5 & p6 & p7 & _ & _ & _ & _ & _ & _ & H). }
  pose proof (correctVertices_found fuel matrix v upsideDown Hvalid Hv) as Hfound.
  rewrite Hc in Hfound.
  destruct Hfound as (p0 & p1 & p2 & p3 & p4 & p5 & p6 & p7
                      & o8 & o9 & o10 & o11 & o12 & o13 & o14 & o15
                      & x8 & y8 & x9 & y9 & x10 & y10 & x11 & y11
                      & p12 & p13 & p14 & p15 & Ev & -> & H12 & H13 & H14 & H15).
  split; [done|]. split; [by rewrite Ev|]. split; [exact Hexact|]. split.
  - intros i Hi.
    destruct i as [|[|[|[|[|[|[|[|[|[|[|[|i]]]]]]]]]]]]; try lia; by eexists _, _.
  - intros i Hi.
    destruct i as [|[|[|[|[|[|[|[|[|[|[|[|[|[|[|[|i]]]]]]]]]]]]]]]]; try lia;
      by eexists.
Qed.

Lemma correctVertices_corrected_witness :
  exists v v',
    findVertices (scanFuel uprightSymbol) uprightSymbol 8 = Return v
    /\ correctVertices (traceFuel uprightSymbol) uprightSymbol v false = Return v'
    /\ length v' = COUNT_VERTICES
    /\ take 8 v' = take 8 v
    /\ tracedAndCrossed (traceFuel uprightSymbol) uprightSymbol v false v'
    /\ (forall i, (8 <= i < 12)%nat -> exists x y, v' !! i = Some (point x y))
    /\ (forall i, (12 <= i < 16)%nat ->
          exists p, v' !! i = Some (Some p) /\ roundsInside uprightSymbol p).
Proof.
  assert (Hv : exists v, findVertices (scanFuel uprightSymbol) uprightSymbol 8 = Return v
                         /\ v <> [])
    by (eexists; split; [vm_compute; reflexivity | discriminate]).
  destruct Hv as (v & Hv & Hne).
  assert (Hvalid : validMatrix uprightSymbol) by (unfold validMatrix; simpl; lia).
  pose proof (findVertices_eightFound _ _ _ _ Hv Hne) as Hfound.
  assert (Hc : exists v', mbind (fun v0 => correctVertices (traceFuel uprightSymbol)
                                             uprightSymbol v0 false)
                            (findVertices (scanFuel uprightSymbol) uprightSymbol 8)
                          = Return v')
    by (eexists; vm_compute; reflexivity).
  destruct Hc as [v' Hc]. rewrite Hv in Hc. cbn [mbind outcome_bind] in Hc.
  exists v, v'. split; [exact Hv|]. split; [exact Hc|].
  exact (correctVertices_corrected (traceFuel uprightSymbol) uprightSymbol v false v'
           Hvalid Hfound Hc).
Defined.

(** X9 (correctVertices, findWideBarTopBottom, findCrossingPoint): on a
    vector as the vertex searches return it, the correction always comes to
    an end, never reads an empty slot, and either returns or throws one of
    three exceptions: not enough guard patterns, parallel lines, crossing
    point out of region. *)
Theorem correctVertices_total (matrix : BitMatrix) (v : Vertices) (upsideDown : bool) :
  validMatrix matrix -> eightFound v ->
  (exists v', correctVertices (traceFuel matrix) matrix v upsideDown = Return v')
  \/ (exists what,
        correctVertices (traceFuel matrix) matrix v upsideDown = Throw what
        /\ (what = notEnoughGuardPatterns \/ what = parallelLines
            \/ what = outOfRegion)).
Proof.
  intros Hvalid Hv.
  pose proof (correctVertices_found (traceFuel matrix) matrix v upsideDown Hvalid Hv)
    as Hfound.
  pose proof (correctVertices_finishes matrix v upsideDown Hvalid) as Hfuel.
  destruct (correctVertices _ _ _ _) as [v'|what| |]; [by left; eexists | | done..].
  right. by exists what.
Qed.

Lemma correctVertices_total_witness :
  (exists v', correctVertices (traceFuel uprightSymbol) uprightSymbol closeCorners false
              = Return v')
  \/ (exists what,
        correctVertices (traceFuel uprightSymbol) uprightSymbol closeCorners false
        = Throw what
        /\ (what = notEnoughGuardPatterns \/ what = parallelLines
            \/ what = outOfRegion)).
Proof.
  apply (correctVertices_total uprightSymbol closeCorners false).
  - unfold validMatrix; simpl; lia.
  - split; [reflexivity|]. intros i Hi.
    destruct i as [|[|[|[|[|[|[|[|i]]]]]]]]; try lia; by eexists.
Defined.

(** * How a detection can end *)

Lemma Run_bind_ending {A B : Type} (m : Run A) (f : A -> Run B) :
  ending (mbind f m).2
  = match m.2 with
    | Return a => ending (f a).2
    | Throw what => Throw what
    | Fault => Fault
    | OutOfFuel => OutOfFuel
    end.
Proof.
  destruct m as [log [a| | |]]; cbn [mbind Run_bind snd]; [|done..].
  by destruct (f a).
Qed.

Section Endings.
Variable distance : ResultPoint -> ResultPoint -> float.
Variable PerspectiveTransform : Type.
Variable quadrilateralToQuadrilateral : Quad -> Quad -> PerspectiveTransform.
Variable sampleGrid : BitMatrix -> Z -> Z -> PerspectiveTransform -> outcome BitMatrix.
Variable linesSampler : BitMatrix -> Z -> outcome BitMatrix.

Local Abbreviation measureAndSample' :=
  (measureAndSample distance PerspectiveTransform quadrilateralToQuadrilateral
     sampleGrid linesSampler).
Local Abbreviation detect' :=
  (detect distance PerspectiveTransform quadrilateralToQuadrilateral
     sampleGrid linesSampler).

Local Abbreviation ownEnding := (ownEnding sampleGrid linesSampler).

Lemma sampleLines_ending (image : BinaryBitmap) (v : Vertices)
    (p12 p13 p14 p15 : ResultPoint) (dimensionY dimension : Z) :
  vertex v 12 = Return p12 -> vertex v 13 = Return p13 ->
  vertex v 14 = Return p14 -> vertex v 15 = Return p15 ->
  exists t,
    (sampleLines PerspectiveTransform quadrilateralToQuadrilateral sampleGrid
       image v dimensionY dimension).2
    = sampleGrid (getBlackMatrix image) (to_int (dimension * 8))
        (to_int (dimensionY * 4)) t.
Proof.
  intros H12 H13 H14 H15. unfold sampleLines. rewrite H12, H13, H14, H15.
  rewrite !lift_bind, call_bind. cbn [snd call]. eauto.
Qed.

Lemma measureAndSample_ending (image : BinaryBitmap)
    (p0 p1 p2 p3 p4 p5 p6 p7 p12 p13 p14 p15 : ResultPoint)
    (o8 o9 o10 o11 : option ResultPoint) :
  ownEnding (getBlackMatrix image)
    (ending (measureAndSample' image
       [Some p0; Some p1; Some p2; Some p3; Some p4; Some p5; Some p6; Some p7;
        o8; o9; o10; o11; Some p12; Some p13; Some p14; Some p15]).2).
Proof.
  unfold measureAndSample. rewrite Run_bind_ending.
  change (lift ?o).2 with o.
  unfold computeModuleWidth.
  repeat match goal with
         | |- context [vertex ?v ?i] =>
             let r := eval cbv [vertex lookup list_lookup] in (vertex v i) in
             change (vertex v i) with r
         end.
  cbn [mbind outcome_bind mret outcome_ret].
  destruct (F32.ltb _ _).
  { right; left. exists badModuleWidth. split; [|done]. unfold detectorMessages.
    repeat constructor. }
  do 4 (rewrite Run_bind_ending; change (lift ?o).2 with o; cbv beta iota).
  destruct (_ <? 1).
  { right; left. exists badDimension. split; [|done]. unfold detectorMessages.
    repeat constructor. }
  rewrite Run_bind_ending.
  match goal with
  | |- context [sampleLines _ _ _ ?i ?v ?dy ?d] =>
      destruct (sampleLines_ending i v p12 p13 p14 p15 dy d
                  eq_refl eq_refl eq_refl eq_refl) as [t ->]
  end.
  destruct (sampleGrid _ _ _ _) as [linesMatrix| | |] eqn:Egrid;
    [| right; right; left; eexists _, _, _; by rewrite Egrid ..].
  rewrite Run_bind_ending. cbn [call snd].
  destruct (linesSampler _ _) as [linesGrid| | |] eqn:Elines;
    [by left | right; right; right; eexists _, _; by rewrite Elines ..].
Qed.
(** X10 (detect): how a detection on a valid image can end. It returns a
    result, or throws one of the detector's six exceptions, or ends the way
    a call to the grid sampler or to the lines sampler ended. In particular
    the detector itself never reads an empty vertex slot and none of its
    loops runs forever. *)
Theorem detect_endings (image : BinaryBitmap) :
  validMatrix (getBlackMatrix image) ->
  ownEnding (getBlackMatrix image) (ending (detect' image).2).
Proof.
  intros Hvalid.
  assert (Hcorrect : forall log v upsideDown,
            eightFound v ->
            locateVertices (getBlackMatrix image)
            = (log, correctVertices (traceFuel (getBlackMatrix image))
                      (getBlackMatrix image) v upsideDown) ->
            ownEnding (getBlackMatrix image) (ending (detect' image).2)).
  { intros log v upsideDown Hv Hl. unfold detect. rewrite Run_bind_ending, Hl.
    cbn [snd].
    pose proof (correctVertices_found (traceFuel (getBlackMatrix image)) _ v
                  upsideDown Hvalid Hv) as Hfound.
    pose proof (correctVertices_finishes _ v upsideDown Hvalid) as Hfuel.
    destruct (correctVertices _ _ _ _) as [v'|what| |]; [| |done..].
    - destruct Hfound as (p0 & p1 & p2 & p3 & p4 & p5 & p6 & p7
                          & o8 & o9 & o10 & o11 & o12 & o13 & o14 & o15
                          & x8 & y8 & x9 & y9 & x10 & y10 & x11 & y11
                          & p12 & p13 & p14 & p15 & _ & -> & _).
      destruct (decide _) as [|_]; [done|]. apply measureAndSample_ending.
    - right; left. exists what. split; [|done]. unfold detectorMessages.
      destruct Hfound as [-> | [-> | ->]]; repeat constructor. }
  destruct (findVertices_finishes _ 8 Hvalid ltac:(lia)) as [v Hv].
  destruct (decide (v = [])) as [->|Hne].
  - destruct (findVertices180_finishes _ 8 Hvalid ltac:(lia)) as [v' Hv'].
    destruct (detect_rotated distance PerspectiveTransform quadrilateralToQuadrilateral
                sampleGrid linesSampler image v' Hv Hv') as [Hnone Hsome].
    destruct (decide (v' = [])) as [->|Hne'].
    + rewrite Hnone by done. right; left. exists noVerticesFound.
      split; [|done]. unfold detectorMessages. repeat constructor.
    + destruct (Hsome Hne') as [Hl _].
      by eapply Hcorrect; [eapply findVertices180_eightFound|].
  - destruct (detect_upright distance PerspectiveTransform quadrilateralToQuadrilateral
                sampleGrid linesSampler image v Hv Hne) as [Hl _].
    by eapply Hcorrect; [eapply findVertices_eightFound|].
Qed.
End Endings.

Lemma detect_endings_witness :
  ownEnding blankGrid sameLines uprightSymbol
    (ending (detectWithStandIns uprightSymbol).2).
Proof.
  apply (detect_endings euclidean (Quad * Quad) quadPair blankGrid sameLines
           (mkBinaryBitmap uprightSymbol)).
  unfold validMatrix; simpl; lia.
Defined.


(** * Statements about the vertex searches *)

(** X3 (findVertices, findVertices180): the row loops report the first
    match. With [scanRow i] the outcome of findGuardPattern on row [i]: the
    top-down loop returns the first of the rows 0, rowStep, 2 rowStep, ...
    below [height] on which the pattern is found, and misses only if it is
    found on none of them; the bottom-up loop returns the first of the rows
    height - 1, height - 1 - rowStep, ... above row 0 on which it is found,
    and never examines row 0. *)
Theorem row_loops_first_match (matrix : BitMatrix) (height rowStep column width : Z)
    (whiteFirst : bool) (pattern : list Z) (patternSize : nat) (conv : Z -> Z)
    (fuel : nat) (cs : list Z) :
  0 < rowStep < 2 ^ 31 -> 0 <= height < 2 ^ 31 ->
  (forall z, - 2 ^ 31 <= z < 2 ^ 31 -> conv (to_size_t z) = z) ->
  (Z.to_nat height < fuel)%nat ->
  let scanRow i :=
    findGuardPattern matrix column i width whiteFirst pattern patternSize
      (replicate (length cs) 0) in
  match rowsDown matrix height rowStep column width whiteFirst pattern patternSize
          fuel cs 0 with
  | RowFuel => False
  | RowNone _ =>
      forall i, 0 <= i < height -> i mod rowStep = 0 -> (scanRow i).1 = None
  | RowHit loc i cs' =>
      0 <= i < height /\ i mod rowStep = 0 /\ scanRow i = (Some loc, cs')
      /\ forall j, 0 <= j < i -> j mod rowStep = 0 -> (scanRow j).1 = None
  end
  /\ match rowsUp matrix rowStep column width whiteFirst pattern patternSize conv
             fuel cs (height - 1) with
     | RowFuel => False
     | RowNone _ =>
         forall i, 0 < i < height -> (height - 1 - i) mod rowStep = 0 ->
           (scanRow i).1 = None
     | RowHit loc i cs' =>
         0 < i < height /\ (height - 1 - i) mod rowStep = 0
         /\ scanRow i = (Some loc, cs')
         /\ forall j, i < j < height -> (height - 1 - j) mod rowStep = 0 ->
              (scanRow j).1 = None
     end.
Proof.
  intros Hs Hh Hconv Hfuel scanRow. split.
  - pose proof (rowsDown_spec matrix height rowStep column width whiteFirst pattern
                  patternSize Hs fuel Hh cs 0 ltac:(lia)) as Hspec.
    assert (Hrows : forall bound : Z,
              (forall k, 0 <= k -> 0 + k * rowStep < bound ->
                 (scanRow (0 + k * rowStep)).1 = None) ->
              forall i, 0 <= i < bound -> i mod rowStep = 0 -> (scanRow i).1 = None).
    { intros bound Hn i Hi Hmod.
      pose proof (Z.div_mod i rowStep ltac:(lia)) as Hdiv.
      pose proof (Z.div_pos i rowStep ltac:(lia) ltac:(lia)).
      replace i with (0 + i / rowStep * rowStep) by lia. apply Hn; lia. }
    destruct (rowsDown _ _ _ _ _ _ _ _ _ _ _) as [|cs'|loc i cs'].
    + lia.
    + destruct Hspec as [_ Hn]. by apply (Hrows height).
    + destruct Hspec as (Hi & Hmod & Hrow & Hn). rewrite Z.sub_0_r in Hmod.
      split; [done|]. split; [done|]. split; [done|].
      intros j Hj. apply (Hrows i); [done | lia].
  - pose proof (rowsUp_spec matrix rowStep column width whiteFirst pattern
                  patternSize Hs conv fuel Hconv cs (height - 1) ltac:(lia)) as Hspec.
    assert (Hrows : forall bound : Z,
              (forall k, 0 <= k -> bound < height - 1 - k * rowStep ->
                 (scanRow (height - 1 - k * rowStep)).1 = None) ->
              forall i, bound < i < height -> (height - 1 - i) mod rowStep = 0 ->
                (scanRow i).1 = None).
    { intros bound Hn i Hi Hmod.
      pose proof (Z.div_mod (height - 1 - i) rowStep ltac:(lia)) as Hdiv.
      pose proof (Z.div_pos (height - 1 - i) rowStep ltac:(lia) ltac:(lia)).
      replace i with (height - 1 - (height - 1 - i) / rowStep * rowStep) by lia.
      apply Hn; lia. }
    destruct (rowsUp _ _ _ _ _ _ _ _ _ _ _) as [|cs'|loc i cs'].
    + lia.
    + destruct Hspec as [_ Hn]. by apply (Hrows 0).
    + destruct Hspec as (Hi & Hmod & Hrow & Hn).
      split; [lia|]. split; [done|]. split; [done|].
      intros j Hj. apply (Hrows i); [done | lia].
Qed.

Lemma row_loops_first_match_witness :
  rowsDown uprightSymbol 40 8 0 77 false START_PATTERN 8 41 (replicate 8 0) 0
  = RowHit (4, 21) 8 [8; 1; 1; 1; 1; 1; 1; 3]
  /\ rowsUp uprightSymbol 8 0 77 false START_PATTERN 8 to_long 41 (replicate 8 0) 39
     = RowHit (4, 21) 31 [8; 1; 1; 1; 1; 1; 1; 3]
  /\ (forall j, 0 <= j < 8 -> j mod 8 = 0 ->
        (findGuardPattern uprightSymbol 0 j 77 false START_PATTERN 8
           (replicate 8 0)).1 = None)
  /\ (forall j, 31 < j < 40 -> (40 - 1 - j) mod 8 = 0 ->
        (findGuardPattern uprightSymbol 0 j 77 false START_PATTERN 8
           (replicate 8 0)).1 = None).
Proof.
  pose proof (row_loops_first_match uprightSymbol 40 8 0 77 false START_PATTERN 8
                to_long 41 (replicate 8 0) ltac:(lia) ltac:(lia)
                to_long_round_trip ltac:(lia)) as [Hdown Hup].
  assert (Ed : rowsDown uprightSymbol 40 8 0 77 false START_PATTERN 8 41
                 (replicate 8 0) 0 = RowHit (4, 21) 8 [8; 1; 1; 1; 1; 1; 1; 3])
    by (vm_compute; reflexivity).
  assert (Eu : rowsUp uprightSymbol 8 0 77 false START_PATTERN 8 to_long 41
                 (replicate 8 0) (40 - 1) = RowHit (4, 21) 31 [8; 1; 1; 1; 1; 1; 1; 3])
    by (vm_compute; reflexivity).
  rewrite Ed in Hdown. rewrite Eu in Hup.
  split; [exact Ed|]. split; [exact Eu|].
  split; [exact (proj2 (proj2 (proj2 Hdown))) | exact (proj2 (proj2 (proj2 Hup)))].
Defined.

(** X4 (findVertices, findVertices180): where the eight vertices of a
    non-empty result lie. Each scan contributes the two ends of a span in
    one sampled row: slots (0, 4), (1, 5), (2, 6), (3, 7) pairwise share
    their row. In the upright search the start-pattern ends are at least 17
    and the stop-pattern ends at least 18 columns apart, inside the image;
    in the rotated search the start pattern lies in the right half
    [halfWidth, 2 halfWidth) and the stop pattern in the left half, with
    the two ends stored the other way round. Rows found top-down are
    multiples of rowStep, rows found bottom-up are never row 0. *)
Theorem vertices_inside_image (fuel : nat) (matrix : BitMatrix) (rowStep : Z) :
  validMatrix matrix -> 0 < rowStep < 2 ^ 31 ->
  (forall v, findVertices fuel matrix rowStep = Return v -> v <> [] ->
     exists loc1 i1 loc2 i2 loc3 i3 loc4 i4,
       v = [point (loc1.1) i1; point (loc2.1) i2; point (loc3.2) i3; point (loc4.2) i4;
            point (loc1.2) i1; point (loc2.2) i2; point (loc3.1) i3; point (loc4.1) i4]
           ++ replicate 8 None
       /\ sampledDown matrix rowStep i1 /\ sampledUp matrix rowStep i2
       /\ sampledDown matrix rowStep i3 /\ sampledUp matrix rowStep i4
       /\ spanOf 17 0 (getWidth matrix) loc1 /\ spanOf 17 0 (getWidth matrix) loc2
       /\ spanOf 18 0 (getWidth matrix) loc3 /\ spanOf 18 0 (getWidth matrix) loc4)
  /\ (forall v, findVertices180 fuel matrix rowStep = Return v -> v <> [] ->
     let halfWidth := Z.shiftr (getWidth matrix) 1 in
     exists loc1 i1 loc2 i2 loc3 i3 loc4 i4,
       v = [point (loc1.2) i1; point (loc2.2) i2; point (loc3.1) i3; point (loc4.1) i4;
            point (loc1.1) i1; point (loc2.1) i2; point (loc3.2) i3; point (loc4.2) i4]
           ++ replicate 8 None
       /\ sampledUp matrix rowStep i1 /\ sampledDown matrix rowStep i2
       /\ sampledUp matrix rowStep i3 /\ sampledDown matrix rowStep i4
       /\ spanOf 17 halfWidth (2 * halfWidth) loc1
       /\ spanOf 17 halfWidth (2 * halfWidth) loc2
       /\ spanOf 18 0 halfWidth loc3 /\ spanOf 18 0 halfWidth loc4).
Proof.
  intros Hvalid Hs. split; intros v Hv Hne.
  - by apply (findVertices_located fuel matrix rowStep v).
  - by apply (findVertices180_located fuel matrix rowStep v).
Qed.

Lemma vertices_inside_image_witness :
  exists loc1 i1 loc2 i2 loc3 i3 loc4 i4,
    findVertices (scanFuel uprightSymbol) uprightSymbol 8
    = Return ([point (loc1.1) i1; point (loc2.1) i2; point (loc3.2) i3;
               point (loc4.2) i4; point (loc1.2) i1; point (loc2.2) i2;
               point (loc3.1) i3; point (loc4.1) i4] ++ replicate 8 None)
    /\ sampledDown uprightSymbol 8 i1 /\ sampledUp uprightSymbol 8 i2
    /\ sampledDown uprightSymbol 8 i3 /\ sampledUp uprightSymbol 8 i4
    /\ spanOf 17 0 77 loc1 /\ spanOf 17 0 77 loc2
    /\ spanOf 18 0 77 loc3 /\ spanOf 18 0 77 loc4.
Proof.
  assert (Hv : exists v, findVertices (scanFuel uprightSymbol) uprightSymbol 8 = Return v
                         /\ v <> [])
    by (eexists; split; [vm_compute; reflexivity | discriminate]).
  destruct Hv as (v & Hv & Hne).
  assert (Hvalid : validMatrix uprightSymbol) by (unfold validMatrix; simpl; lia).
  destruct (proj1 (vertices_inside_image (scanFuel uprightSymbol) uprightSymbol 8
                     Hvalid ltac:(lia)) v Hv Hne)
    as (loc1 & i1 & loc2 & i2 & loc3 & i3 & loc4 & i4 & Ev & Hrest).
  exists loc1, i1, loc2, i2, loc3, i3, loc4, i4.
  split; [by rewrite Hv, Ev | exact Hrest].
Defined.

(** * The range of the variance score *)

Lemma capped_sum (cap : Z) (l : list Z) :
  forallb (fun v => v <=? cap) l = true -> sumZ l <= Z.of_nat (length l) * cap.
Proof.
  induction l as [|a l IH]; [cbn; lia|].
  cbn [forallb]. rewrite andb_true_iff, Z.leb_le. intros [Ha Hl].
  specialize (IH Hl). rewrite sumZ_cons. cbn [length]. lia.
Qed.

Lemma deviations_length (u : Z) (cs pattern : list Z) :
  length pattern = length cs -> length (deviations u cs pattern) = length pattern.
Proof. intros Hlen. unfold deviations. rewrite length_zip_with. lia. Qed.

Lemma score_range (cs pattern : list Z) (maxIndividualVariance : Z) :
  wellSized cs pattern = true ->
  0 <= maxIndividualVariance <= 256 ->
  let result := patternMatchVariance cs pattern maxIndividualVariance in
  result = INT_MAX
  \/ (0 <= result
      /\ result * sumZ pattern <= Z.of_nat (length pattern) * maxIndividualVariance).
Proof.
  intros Hsized Hmiv result. subst result.
  rewrite patternMatchVariance_exact by done.
  apply wellSized_facts in Hsized as (Hlen & Hc & Hp & HP & HT).
  pose proof (forallb_pos_nonneg _ Hp) as Hp0.
  unfold score.
  destruct (Z.ltb_spec (sumZ cs) (sumZ pattern)) as [|Hle]; [by left|].
  set (T := sumZ cs) in *. set (P := sumZ pattern) in *.
  set (u := 256 * T / P).
  assert (Hu0 : 0 <= u) by (apply Z.div_pos; lia).
  assert (HPu : P * u <= 256 * T) by (apply Z.mul_div_le; lia).
  set (cap := maxIndividualVariance * u / 256).
  assert (Hcap : 256 * cap <= maxIndividualVariance * u) by (apply Z.mul_div_le; lia).
  destruct (forallb (fun v => v <=? cap) _) eqn:Hall; [right | by left].
  apply capped_sum in Hall. rewrite deviations_length in Hall by done.
  pose proof (deviations_sum_bound u cs pattern Hu0 Hc Hp0) as [Hs0 _].
  set (S := sumZ (deviations u cs pattern)) in *.
  set (n := Z.of_nat (length pattern)) in *.
  assert (Hn : 0 <= n) by lia.
  split; [apply Z.div_pos; lia|].
  assert (Hq : S / T * T <= S) by (rewrite Z.mul_comm; apply Z.mul_div_le; lia).
  assert (Hq0 : 0 <= S / T) by (apply Z.div_pos; lia).
  assert (HA : S * P <= n * cap * P) by (apply Z.mul_le_mono_nonneg_r; lia).
  assert (HB : n * P * (256 * cap) <= n * P * (maxIndividualVariance * u))
    by (apply Z.mul_le_mono_nonneg_l; [apply Z.mul_nonneg_nonneg|]; lia).
  assert (HC : n * maxIndividualVariance * (P * u)
               <= n * maxIndividualVariance * (256 * T))
    by (apply Z.mul_le_mono_nonneg_l; [apply Z.mul_nonneg_nonneg|]; lia).
  assert (H1 : S * P <= n * maxIndividualVariance * T) by lia.
  assert (HD : S / T * T * P <= S * P) by (apply Z.mul_le_mono_nonneg_r; lia).
  assert (H2 : S / T * P * T <= n * maxIndividualVariance * T) by lia.
  apply Z.mul_le_mono_pos_r in H2; lia.
Qed.

(** X11 (patternMatchVariance, findGuardPattern): the range of the score
    and what it makes of the average test. A score is INT_MAX or lies
    between 0 and (number of elements * 204) / (pattern total). For the
    start patterns that is at most 96 and for the stop patterns at most
    102, both below MAX_AVG_VARIANCE = 107: for the four guard patterns the
    comparison with MAX_AVG_VARIANCE in findGuardPattern accepts exactly the
    windows whose score is not INT_MAX. *)
Theorem average_test_decided_by_cap (cs pattern : list Z) :
  wellSized cs pattern = true ->
  let result := patternMatchVariance cs pattern MAX_INDIVIDUAL_VARIANCE in
  (result = INT_MAX
   \/ (0 <= result
       /\ result * sumZ pattern <= Z.of_nat (length pattern) * MAX_INDIVIDUAL_VARIANCE))
  /\ (pattern = START_PATTERN \/ pattern = START_PATTERN_REVERSE ->
      result = INT_MAX \/ 0 <= result <= 96)
  /\ (pattern = STOP_PATTERN \/ pattern = STOP_PATTERN_REVERSE ->
      result = INT_MAX \/ 0 <= result <= 102)
  /\ (pattern ∈ [START_PATTERN; START_PATTERN_REVERSE; STOP_PATTERN;
                 STOP_PATTERN_REVERSE] ->
      (windowMatches cs pattern = true <-> result <> INT_MAX)).
Proof.
  intros Hsized result.
  pose proof (score_range cs pattern MAX_INDIVIDUAL_VARIANCE Hsized
                ltac:(by vm_compute)) as Hrange.
  fold result in Hrange. change MAX_INDIVIDUAL_VARIANCE with 204 in Hrange |- *.
  assert (Hstart : pattern = START_PATTERN \/ pattern = START_PATTERN_REVERSE ->
                   result = INT_MAX \/ 0 <= result <= 96).
  { intros Hp. destruct Hrange as [|[H0 Hle]]; [by left | right].
    assert (Hle' : result * 17 <= 8 * 204) by (by destruct Hp as [-> | ->]).
    lia. }
  assert (Hstop : pattern = STOP_PATTERN \/ pattern = STOP_PATTERN_REVERSE ->
                  result = INT_MAX \/ 0 <= result <= 102).
  { intros Hp. destruct Hrange as [|[H0 Hle]]; [by left | right].
    assert (Hle' : result * 18 <= 9 * 204) by (by destruct Hp as [-> | ->]).
    lia. }
  split; [done|]. split; [done|]. split; [done|].
  intros Hin. unfold windowMatches. fold result.
  change MAX_AVG_VARIANCE with 107. rewrite Z.ltb_lt.
  assert (Hmax : INT_MAX = 2147483647) by reflexivity.
  assert (Hbound : result = INT_MAX \/ 0 <= result <= 102).
  { rewrite !elem_of_cons in Hin.
    destruct Hin as [Hp|[Hp|[Hp|[Hp|Hp]]]];
      [destruct Hstart as [|?]; [by left | by left | right; lia]
      |destruct Hstart as [|?]; [by right | by left | right; lia]
      |apply Hstop; by left | apply Hstop; by right
      |by apply elem_of_nil in Hp]. }
  lia.
Qed.

Lemma average_test_decided_by_cap_witness :
  windowMatches [9; 1; 1; 1; 1; 1; 1; 3] START_PATTERN = true
  <-> patternMatchVariance [9; 1; 1; 1; 1; 1; 1; 3] START_PATTERN
        MAX_INDIVIDUAL_VARIANCE <> INT_MAX.
Proof.
  refine (proj2 (proj2 (proj2
    (average_test_decided_by_cap [9; 1; 1; 1; 1; 1; 1; 3] START_PATTERN _))) _).
  - reflexivity.
  - constructor.
Defined.

(** * Rounding of integer-valued floats *)

Section Offset.
Variables prec emax : Z.
Hypothesis Hprec : 0 < prec.
Hypothesis Hemax : prec < emax.

Lemma fexp_normal (d : Z) : 3 - emax <= d -> fexp prec emax d = d - prec.
Proof. intros Hd. unfold fexp, emin. lia. Qed.

(** A mantissa of exactly [prec] digits followed by [q] zero bits rounds to
    itself, at any exponent of the normal range. *)
Lemma binary_round_aux_normal (s : bool) (mz : positive) (ez q : Z) :
  Zpos (digits2_pos mz) = prec -> 0 <= q -> 3 - emax - prec <= ez <= emax - prec ->
  binary_round_aux prec emax s (Zpos (shl mz q)) (ez - q) loc_Exact
  = S754_finite s mz ez.
Proof.
  intros Hd Hq Hez. unfold binary_round_aux.
  assert (Hstep : shr_fexp prec emax (Zpos (shl mz q)) (ez - q) loc_Exact
                  = (Build_shr_record (Zpos mz) false false, ez)).
  { unfold shr_fexp. simpl Zdigits2. rewrite digits_shl by done.
    rewrite fexp_normal by lia. rewrite Hd.
    replace (prec + q + (ez - q) - prec - (ez - q)) with q by lia.
    unfold shr. destruct q as [|q|q]; simpl; try lia.
    - f_equal; lia.
    - rewrite shr_exact. f_equal. lia. }
  rewrite Hstep. simpl.
  assert (Hstep2 : shr_fexp prec emax (Zpos mz) ez loc_Exact
                   = (Build_shr_record (Zpos mz) false false, ez)).
  { unfold shr_fexp. simpl Zdigits2. rewrite fexp_normal by lia. rewrite Hd.
    replace (prec + ez - prec - ez) with 0 by lia. done. }
  rewrite Hstep2. simpl.
  destruct (Z.leb_spec ez (emax - prec)); [done | lia].
Qed.

(** The canonical form of [m0 * 2^n] at exponent [e - n], that is of the
    value [m0 * 2^e]. *)
Lemma binary_round_offset (s : bool) (m0 : positive) (n e : Z) :
  let d := Zpos (digits2_pos m0) in
  d <= prec -> 0 <= n -> 3 - emax - prec <= d - prec + e <= emax - prec ->
  binary_round prec emax s (shl m0 n) (e - n)
  = S754_finite s (shl m0 (prec - d)) (d - prec + e).
Proof.
  intros d Hd Hn He. unfold binary_round.
  rewrite digits_shl by done. fold d.
  rewrite fexp_normal by lia.
  unfold shl_align.
  replace (d + n + (e - n) - prec - (e - n)) with (d - prec + n) by lia.
  destruct (d - prec + n) as [|q|q] eqn:Hq.
  - replace (e - n) with (d - prec + e - 0) by lia.
    replace (shl m0 n) with (shl (shl m0 (prec - d)) 0)
      by (simpl; f_equal; lia).
    apply binary_round_aux_normal; try lia. rewrite digits_shl by lia. fold d. lia.
  - replace (e - n) with (d - prec + e - Zpos q) by lia.
    replace (shl m0 n) with (shl (shl m0 (prec - d)) (Zpos q))
      by (rewrite shl_shl by lia; f_equal; lia).
    apply binary_round_aux_normal; try lia. rewrite digits_shl by lia. fold d. lia.
  - replace (d + n + (e - n) - prec) with (d - prec + e - 0) by lia.
    replace (Pos.iter xO (shl m0 n) q) with (shl (shl m0 (prec - d)) 0).
    + apply binary_round_aux_normal; try lia. rewrite digits_shl by lia. fold d. lia.
    + simpl. change (Pos.iter xO (shl m0 n) q) with (shl (shl m0 n) (Zpos q)).
      rewrite shl_shl by lia. f_equal. lia.
Qed.

Lemma normalize_offset (k n e : Z) (szero : bool) :
  k <> 0 -> Z.abs k < 2 ^ prec -> 0 <= n ->
  let m := Z.to_pos (Z.abs k) in
  let d := Zpos (digits2_pos m) in
  3 - emax - prec <= d - prec + e <= emax - prec ->
  binary_normalize prec emax (k * 2 ^ n) (e - n) szero
  = S754_finite (k <? 0) (shl m (prec - d)) (d - prec + e).
Proof.
  intros Hk Hb Hn m d He. subst m d. destruct k as [|m|m]; [done| |].
  - rewrite <- Zpos_shl by done. simpl binary_normalize.
    simpl Z.abs in *. simpl Z.to_pos in *.
    change (Zpos m <? 0) with false.
    apply binary_round_offset; try done. apply digits_bound; lia.
  - replace (Zneg m * 2 ^ n) with (Zneg (shl m n))
      by (pose proof (Zpos_shl m n Hn); lia).
    simpl binary_normalize. simpl Z.abs in *. simpl Z.to_pos in *.
    change (Zneg m <? 0) with true.
    apply binary_round_offset; try done. apply digits_bound; lia.
Qed.
End Offset.

Lemma F32_half : F32.of_decimal 5 1 = S754_finite false 8388608 (-24).
Proof. by vm_compute. Qed.

(** [n + 0.5f] is exact for the integers below [2^23] in magnitude. *)
Lemma F32_add_half (n : Z) :
  n <> 0 -> Z.abs n < 2 ^ 23 ->
  let m := Z.to_pos (Z.abs (2 * n + 1)) in
  let d := Zpos (digits2_pos m) in
  F32.add (F32.of_int n) (F32.of_decimal 5 1)
  = S754_finite (2 * n + 1 <? 0) (shl m (24 - d)) (d - 25).
Proof.
  intros Hn Hb m d. rewrite F32_half, F32_of_int_canon by lia.
  unfold canon, F32.add, SFadd.
  set (mn := Z.to_pos (Z.abs n)). set (dn := Zpos (digits2_pos mn)).
  assert (Hmn : Zpos mn = Z.abs n) by (unfold mn; lia).
  assert (Hdn : 1 <= dn <= 24) by (split; [lia | apply digits_bound; lia]).
  replace (Z.min (dn - 24) (-24)) with (-24) by lia.
  assert (Ha : (shl_align (shl mn (24 - dn)) (dn - 24) (-24)).1 = shl mn 24).
  { unfold shl_align. destruct (-24 - (dn - 24)) as [|q|q] eqn:Hq; cbn [fst]; try lia.
    change (Pos.iter xO (shl mn (24 - dn)) q) with (shl (shl mn (24 - dn)) (Zpos q)).
    rewrite shl_shl by lia. f_equal. lia. }
  rewrite Ha. change (shl_align 8388608 (-24) (-24)).1 with 8388608%positive.
  assert (Hsum : cond_Zopp (n <? 0) (Zpos (shl mn 24)) + cond_Zopp false 8388608
                 = (2 * n + 1) * 2 ^ 23).
  { rewrite Zpos_shl by lia. rewrite Hmn. unfold cond_Zopp.
    change (2 ^ 24) with (2 * 2 ^ 23). change (Zpos 8388608) with (2 ^ 23).
    destruct (Z.ltb_spec n 0); lia. }
  rewrite Hsum. change (-24) with (-1 - 23).
  unfold F32.prec, F32.emax.
  assert (Hk : Z.abs (2 * n + 1) < 2 ^ 24) by (change (2 ^ 24) with (2 * 2 ^ 23); lia).
  assert (Hd : 1 <= d <= 24)
    by (split; [unfold d; lia | apply digits_bound; [lia | unfold m; lia]]).
  rewrite (normalize_offset 24 128) by (fold m; fold d; lia).
  fold m. fold d. f_equal. lia.
Qed.

Lemma round_of_int (n : Z) :
  Z.abs n < 2 ^ 23 -> round (F32.of_int n) = if n <? 0 then n + 1 else n.
Proof.
  intros Hb. unfold round. destruct (decide (n = 0)) as [->|Hn]; [by vm_compute|].
  rewrite F32_add_half by done.
  set (m := Z.to_pos (Z.abs (2 * n + 1))). set (d := Zpos (digits2_pos m)).
  assert (Hm : Zpos m = Z.abs (2 * n + 1)) by (unfold m; lia).
  assert (Hd : 1 <= d <= 24).
  { split; [unfold d; lia|]. apply digits_bound; [lia|].
    rewrite Hm. change (2 ^ 24) with (2 * 2 ^ 23). lia. }
  unfold F32.to_int.
  destruct (d - 25) as [|p|p] eqn:Ep; try lia.
  rewrite Z.shiftr_div_pow2 by lia. rewrite Zpos_shl by lia.
  replace (Zpos p) with (1 + (24 - d)) by lia.
  rewrite Z.pow_add_r by lia. change (2 ^ 1) with 2.
  rewrite Z.div_mul_cancel_r by lia. rewrite Hm.
  change INT_MIN with (- 2 ^ 31). change INT_MAX with (2 ^ 31 - 1).
  assert (H23 : 2 ^ 23 < 2 ^ 31) by (by vm_compute).
  destruct (Z.ltb_spec n 0) as [Hneg|Hpos].
  - replace (2 * n + 1 <? 0) with true by lia.
    replace (Z.abs (2 * n + 1) / 2) with (- n - 1)
      by (apply Z.div_unique with (r := 1); lia).
    destruct (_ && _) eqn:Hr; lia.
  - replace (2 * n + 1 <? 0) with false by lia.
    replace (Z.abs (2 * n + 1) / 2) with n
      by (apply Z.div_unique with (r := 1); lia).
    destruct (_ && _) eqn:Hr; lia.
Qed.

(** X12 (round): [round(d)] is [(int) (d + 0.5f)], and the conversion
    truncates toward zero. On the float of an integer [n] below [2^23] in
    magnitude the sum is exact, so a non-negative [n] is returned as it is,
    while a negative [n] comes back as [n + 1]: below zero round does not
    round to the nearest integer. *)
Theorem round_on_integers (n : Z) :
  Z.abs n < 2 ^ 23 ->
  (0 <= n -> round (F32.of_int n) = n)
  /\ (n < 0 -> round (F32.of_int n) = n + 1).
Proof.
  intros Hb. pose proof (round_of_int n Hb) as Hr.
  destruct (Z.ltb_spec n 0); split; intros; first [lia | done].
Qed.

Lemma round_on_integers_witness :
  round (F32.of_int 76) = 76 /\ round (F32.of_int (-3)) = -3 + 1.
Proof.
  split.
  - apply (proj1 (round_on_integers 76 ltac:(vm_compute; reflexivity))). lia.
  - apply (proj2 (round_on_integers (-3) ltac:(vm_compute; reflexivity))). lia.
Defined.

(** * Rows visited by the wide-bar trace *)

Section TraceRows.
Variable matrix : BitMatrix.
Variable rowStep : Z.
Hypothesis Hvalid : validMatrix matrix.
Hypothesis Hstep : rowStep = 1 \/ rowStep = -1.

Lemma nextBarLoop_rows (y : Z) (n : nat) :
  0 <= y < getHeight matrix ->
  forall nextBarX reads,
    Forall (rowInside matrix) reads ->
    Forall (rowInside matrix) (nextBarLoop matrix y n nextBarX reads).2.
Proof.
  intros Hy. induction n as [|n IH]; intros nextBarX reads Hreads; [done|].
  cbn [nextBarLoop].
  assert (Hrow : forall x, rowInside matrix (x, y)) by (intros x; exact Hy).
  repeat case_match; cbn [snd]; try done; try apply IH;
    apply Forall_app; (split; [done|]); repeat constructor; apply Hrow.
Qed.

Lemma wideBarLoop_rows (yStart nextBarX : Z) :
  0 <= yStart < getHeight matrix ->
  forall (fuel : nat) (x y : Z) (reads : list (Z * Z)),
    y = yStart
    \/ (0 < y < getHeight matrix - 1
        /\ (rowStep = 1 -> yStart < y) /\ (rowStep = -1 -> y < yStart)) ->
    Forall (rowInside matrix) reads ->
    Forall (rowInside matrix)
      (wideBarLoop matrix rowStep yStart nextBarX fuel x y reads).2
    /\ forall x' y',
         (wideBarLoop matrix rowStep yStart nextBarX fuel x y reads).1 = Some (x', y') ->
         tracedTo matrix rowStep yStart y'.
Proof.
  intros HyStart. destruct Hvalid as [Hw Hh].
  induction fuel as [|fuel IH]; intros x y reads Hy Hreads; [done|].
  assert (Hrow : forall x0, rowInside matrix (x0, y)).
  { intros x0. unfold rowInside. cbn [snd]. lia. }
  assert (Hgrow : forall l, Forall (fun xy => xy.2 = y) l ->
                    Forall (rowInside matrix) (reads ++ l)).
  { intros l Hl. apply Forall_app. split; [done|].
    eapply Forall_impl; [exact Hl|]. intros [x0 y0] E. cbn [snd] in E. subst y0.
    apply Hrow. }
  cbn [wideBarLoop].
  rewrite (to_int_small (getHeight matrix)), (to_int_small (getHeight matrix - 1)) by lia.
  rewrite (to_int_small (y + rowStep)) by lia.
  assert (Hback : tracedTo matrix rowStep yStart
                    (if y =? yStart then y else to_int (y - rowStep))).
  { unfold tracedTo. destruct (Z.eqb_spec y yStart); [lia|].
    rewrite to_int_small by lia. lia. }
  destruct (get matrix x y).
  - (* on the bar: one row on *)
    assert (Hnext : 0 < y + rowStep < getHeight matrix - 1 ->
              y + rowStep = yStart
              \/ (0 < y + rowStep < getHeight matrix - 1
                  /\ (rowStep = 1 -> yStart < y + rowStep)
                  /\ (rowStep = -1 -> y + rowStep < yStart))) by lia.
    assert (Hend : tracedTo matrix rowStep yStart (y + rowStep))
      by (unfold tracedTo; lia).
    destruct (get matrix (to_int (x + nextBarX)) y);
      [|destruct (get matrix (to_int (to_int (x + nextBarX) + 1)) y)];
      cbn [negb];
      (destruct ((y + rowStep <=? 0) || (y + rowStep >=? getHeight matrix - 1))
         eqn:Hedge;
       [| apply orb_false_elim in Hedge as [H1 H2]]);
      cbn [fst snd];
      first
        [ apply IH; [apply Hnext; lia | apply Hgrow; by repeat constructor]
        | split; [apply Hgrow; by repeat constructor
                 | by intros x' y' [= <- <-]] ].
  - (* beside the bar: look left and right in the same row *)
    repeat case_match; cbn [fst snd];
      first
        [ apply IH; [done|]; rewrite <- app_assoc; apply Hgrow; by repeat constructor
        | split; [ first [ rewrite <- app_assoc; apply Hgrow; by repeat constructor
                         | apply Hgrow; by repeat constructor ]
                 | by intros x' y' [= <- <-] ] ].
Qed.
End TraceRows.

(** X13 (findWideBarTopBottom): the rows of a wide-bar trace. Started
    from a vertex in row [i] of the image, every pixel the trace tests lies
    in a row of the image (the out-of-range reads the function can make are
    in the column only), and the point it stores lies on the side of row
    [i] the trace walks towards, at most one row beyond the image: its row
    is between -1 and [i] for rowStep -1, between [i] and the height for
    rowStep 1. *)
Theorem wideBar_rows (fuel : nat) (matrix : BitMatrix) (v : Vertices)
    (offsetVertice : nat) (startWideBar lenWideBar lenPattern rowStep : Z)
    (xStart : float) (i : Z) :
  validMatrix matrix -> getHeight matrix < 2 ^ 23 ->
  rowStep = 1 \/ rowStep = -1 ->
  vertex v offsetVertice = Return (mkResultPoint xStart (F32.of_int i)) ->
  0 <= i < getHeight matrix ->
  let traced := findWideBarTopBottom fuel matrix v offsetVertice startWideBar
                  lenWideBar lenPattern rowStep in
  Forall (rowInside matrix) traced.2
  /\ forall v', traced.1 = Return v' ->
       exists x y, v' = <[(offsetVertice + 8)%nat := point x y]> v
                   /\ tracedTo matrix rowStep i y.
Proof.
  intros Hvalid Hh Hstep Hstart Hi traced. subst traced.
  unfold findWideBarTopBottom. rewrite Hstart.
  destruct (vertex v (offsetVertice + 4)) as [verticeEnd| | |];
    [|by split; [constructor|] ..].
  cbn [getX getY]. rewrite round_of_int by lia.
  replace (i <? 0) with false by lia.
  match goal with
  | |- context [nextBarLoop matrix i ?n ?b []] =>
      pose proof (nextBarLoop_rows matrix i n Hi b [] ltac:(constructor)) as Hnext;
      destruct (nextBarLoop matrix i n b []) as [nextBarX reads]
  end.
  cbn [snd] in Hnext.
  match goal with
  | |- context [wideBarLoop matrix rowStep i ?nb fuel ?x i reads] =>
      destruct (wideBarLoop_rows matrix rowStep Hvalid Hstep i nb Hi fuel x i reads
                  ltac:(by left) Hnext) as [Hrows Hend];
      destruct (wideBarLoop matrix rowStep i nb fuel x i reads) as [[[x' y']|] reads']
  end; cbn [fst snd] in *.
  - destruct (decide _); cbn [fst snd]; (split; [done|]); [|done].
    intros v' [= <-]. exists x', y'. split; [done|]. by apply (Hend x' y').
  - by split.
Qed.

Lemma wideBar_rows_witness :
  let traced := findWideBarTopBottom (traceFuel rotatedSymbol) rotatedSymbol
                  ([point 72 31; point 72 8; point 3 31; point 3 8;
                    point 55 31; point 55 8; point 21 31; point 21 8]
                   ++ replicate 8 None) 0 0 8 17 1 in
  Forall (rowInside rotatedSymbol) traced.2
  /\ forall v', traced.1 = Return v' ->
       exists x y,
         v' = <[(0 + 8)%nat := point x y]>
                ([point 72 31; point 72 8; point 3 31; point 3 8;
                  point 55 31; point 55 8; point 21 31; point 21 8]
                 ++ replicate 8 None)
         /\ tracedTo rotatedSymbol 1 31 y.
Proof.
  apply (wideBar_rows (traceFuel rotatedSymbol) rotatedSymbol _ 0 0 8 17 1
           (F32.of_int 72) 31).
  - unfold validMatrix; simpl; lia.
  - simpl; lia.
  - by left.
  - reflexivity.
  - simpl; lia.
Defined.

(** * What a detection returns *)

Section Results.
Variable distance : ResultPoint -> ResultPoint -> float.
Variable PerspectiveTransform : Type.
Variable quadrilateralToQuadrilateral : Quad -> Quad -> PerspectiveTransform.
Variable sampleGrid : BitMatrix -> Z -> Z -> PerspectiveTransform -> outcome BitMatrix.
Variable linesSampler : BitMatrix -> Z -> outcome BitMatrix.

Local Abbreviation measureAndSample' :=
  (measureAndSample distance PerspectiveTransform quadrilateralToQuadrilateral
     sampleGrid linesSampler).
Local Abbreviation detect' :=
  (detect distance PerspectiveTransform quadrilateralToQuadrilateral
     sampleGrid linesSampler).

Lemma lift_success {A B : Type} (o : outcome A) (f : A -> Run B) (b : B) :
  (mbind f (lift o)).2 = Return b -> exists a, o = Return a /\ (f a).2 = Return b.
Proof.
  intros H. apply Run_bind_success in H as (a & Ha & Hf & _). by exists a.
Qed.

Lemma measureAndSample_result (image : BinaryBitmap) (v : Vertices)
    (r : DetectorResult) :
  (measureAndSample' image v).2 = Return r ->
  exists dimension yDimension transform linesMatrix,
    17 <= dimension /\ dimension <= yDimension
    /\ sampleGrid (getBlackMatrix image) (to_int (yDimension * 8))
         (to_int (dimension * 4)) transform = Return linesMatrix
    /\ linesSampler linesMatrix dimension = Return (getBits r)
    /\ getPoints r = cornersOf linesMatrix.
Proof.
  unfold measureAndSample. intros H.
  apply lift_success in H as (mw & Hmw & H).
  destruct (F32.ltb mw (F32.of_int 1)); [done|].
  apply lift_success in H as (v12 & H12 & H).
  apply lift_success in H as (v14 & H14 & H).
  apply lift_success in H as (v13 & H13 & H).
  apply lift_success in H as (v15 & H15 & H).
  set (dimension := computeDimension distance v12 v14 v13 v15 mw) in *.
  destruct (Z.ltb_spec dimension 1) as [|Hd]; [done|].
  set (yDimension := Z.max (computeYDimension distance v12 v14 v13 v15 mw) dimension)
    in *.
  apply Run_bind_success in H as (linesMatrix & Hgrid & H & _).
  destruct (sampleLines_ending PerspectiveTransform quadrilateralToQuadrilateral
              sampleGrid image v v12 v13 v14 v15 dimension yDimension
              H12 H13 H14 H15) as [transform Ht].
  rewrite Ht in Hgrid.
  apply Run_bind_success in H as (linesGrid & Hlines & H & _).
  cbn [call snd] in Hlines. injection H as <-.
  exists dimension, yDimension, transform, linesMatrix.
  split.
  { destruct (computeDimension_divides distance v12 v14 v13 v15 mw) as [q Hq].
    fold dimension in Hq. lia. }
  split; [unfold yDimension; lia|]. done.
Qed.

(** X14 (detect, sampleLines): what a successful detection returns. The
    grid sampler was asked for a grid of [8 * yDimension] by
    [4 * dimension] samples, where [dimension] is at least 17 and
    [yDimension], the larger of the computed column dimension and
    [dimension], is at least [dimension]; the bits of the result are what
    the lines sampler made of that grid for [dimension]; and the four points
    of the result are the corners of the sampled grid, (0, height), (0, 0),
    (width, 0), (width, height), not places in the image. *)
Theorem detect_result (image : BinaryBitmap) (r : DetectorResult) :
  (detect' image).2 = Return r ->
  exists dimension yDimension transform linesMatrix,
    17 <= dimension /\ dimension <= yDimension
    /\ sampleGrid (getBlackMatrix image) (to_int (yDimension * 8))
         (to_int (dimension * 4)) transform = Return linesMatrix
    /\ linesSampler linesMatrix dimension = Return (getBits r)
    /\ getPoints r = cornersOf linesMatrix.
Proof.
  unfold detect. intros H.
  apply Run_bind_success in H as (v & _ & H & _).
  destruct (decide (v = [])); [done|].
  by apply measureAndSample_result in H.
Qed.
End Results.

Lemma detect_result_witness :
  exists r dimension yDimension transform linesMatrix,
    (detectWithStandIns uprightSymbol).2 = Return r
    /\ 17 <= dimension /\ dimension <= yDimension
    /\ blankGrid uprightSymbol (to_int (yDimension * 8)) (to_int (dimension * 4))
         transform = Return linesMatrix
    /\ sameLines linesMatrix dimension = Return (getBits r)
    /\ getPoints r = cornersOf linesMatrix.
Proof.
  assert (Hr : exists r, (detectWithStandIns uprightSymbol).2 = Return r)
    by (eexists; vm_compute; reflexivity).
  destruct Hr as [r Hr].
  destruct (detect_result euclidean (Quad * Quad) quadPair blankGrid sameLines
              (mkBinaryBitmap uprightSymbol) r Hr)
    as (dimension & yDimension & transform & linesMatrix & Hrest).
  exists r, dimension, yDimension, transform, linesMatrix.
  split; [exact Hr | exact Hrest].
Defined.

(** * Lines with the same direction *)

Lemma SFmul_comm (prec emax : Z) (x y : float) :
  SFmul prec emax x y = SFmul prec emax y x.
Proof.
  destruct x as [sx|sx| |sx mx ex], y as [sy|sy| |sy my ey]; cbn [SFmul];
    rewrite ?(xorb_comm sx sy); try done.
  by rewrite (Pos.mul_comm mx my), (Z.add_comm ex ey).
Qed.

Lemma SFsub_diag (prec emax : Z) (t : float) :
  finiteValue t = true -> SFsub prec emax t t = S754_zero false.
Proof.
  destruct t as [s|s| |s m e]; cbn [finiteValue SFsub]; try done.
  - intros _. by destruct s.
  - intros _. by rewrite Z.sub_diag.
Qed.

Lemma intersection_same_direction (a b : Line) :
  F32.sub (px (start a)) (px (end_ a)) = F32.sub (px (start b)) (px (end_ b)) ->
  F32.sub (py (start a)) (py (end_ a)) = F32.sub (py (start b)) (py (end_ b)) ->
  finiteValue (F32.mul (F32.sub (px (start a)) (px (end_ a)))
                       (F32.sub (py (start a)) (py (end_ a)))) = true ->
  intersection a b = mkPoint F32.infinity F32.infinity.
Proof.
  intros Hdx Hdy Hfin. unfold intersection. rewrite <- Hdx, <- Hdy.
  set (dx := F32.sub (px (start a)) (px (end_ a))) in *.
  set (dy := F32.sub (py (start a)) (py (end_ a))) in *.
  assert (Hdenom : F32.sub (F32.mul dx dy) (F32.mul dy dx) = S754_zero false).
  { unfold F32.mul at 2. rewrite SFmul_comm. fold (F32.mul dx dy).
    by apply SFsub_diag. }
  rewrite Hdenom. done.
Qed.

(** X15 (intersection, findCrossingPoint): two lines with the same
    direction vector, whose coordinate differences are equal floats with a
    product that does not overflow, have no crossing point: intersection
    returns the point (infinity, infinity) and the crossing-point step fails
    with "cannot find the crossing of parallel lines!", whatever the image. *)
Theorem same_direction_is_parallel (matrix : BitMatrix) (p1 p2 p3 p4 : Point) :
  F32.sub (px p1) (px p2) = F32.sub (px p3) (px p4) ->
  F32.sub (py p1) (py p2) = F32.sub (py p3) (py p4) ->
  finiteValue (F32.mul (F32.sub (px p1) (px p2)) (F32.sub (py p1) (py p2))) = true ->
  intersection (mkLine p1 p2) (mkLine p3 p4) = mkPoint F32.infinity F32.infinity
  /\ crossingOf matrix p1 p2 p3 p4 = Throw parallelLines.
Proof.
  intros Hdx Hdy Hfin.
  pose proof (intersection_same_direction (mkLine p1 p2) (mkLine p3 p4) Hdx Hdy Hfin)
    as Hi.
  split; [exact Hi|]. unfold crossingOf. rewrite Hi. done.
Qed.

Lemma same_direction_is_parallel_witness :
  intersection (mkLine (pt 4 8) (pt 4 31)) (mkLine (pt 21 8) (pt 21 31))
  = mkPoint F32.infinity F32.infinity
  /\ crossingOf uprightSymbol (pt 4 8) (pt 4 31) (pt 21 8) (pt 21 31)
     = Throw parallelLines.
Proof.
  apply (same_direction_is_parallel uprightSymbol (pt 4 8) (pt 4 31) (pt 21 8)
           (pt 21 31)).
  - vm_compute. reflexivity.
  - vm_compute. reflexivity.
  - vm_compute. reflexivity.
Defined.

(** * The leftmost matching window *)

Lemma runsClosed_nonneg (matrix : BitMatrix) (row : Z) (w : list Z) :
  forall x colour, runsClosed matrix row x colour w -> Forall (fun c => 0 <= c) w.
Proof.
  induction w as [|c w IH]; intros x colour; [constructor|].
  cbn [runsClosed]. intros (Hc & _ & _ & Hrest). constructor; [done|]. by eapply IH.
Qed.

Lemma runsClosed_unique (matrix : BitMatrix) (row : Z) (w : list Z) :
  forall w' x colour,
    runsClosed matrix row x colour w -> runsClosed matrix row x colour w' ->
    length w = length w' -> w = w'.
Proof.
  induction w as [|c w IH]; intros [|c' w'] x colour; cbn [length]; try done.
  cbn [runsClosed]. intros (Hc & Hrun & Hclose & Hrest) (Hc' & Hrun' & Hclose' & Hrest') Hlen.
  assert (c = c') as <-.
  { destruct (Z.lt_trichotomy c c') as [Hlt|[->|Hgt]]; [|done|].
    - rewrite Hrun' in Hclose by lia. by destruct colour.
    - rewrite Hrun in Hclose' by lia. by destruct colour. }
  f_equal. eapply IH; [done | done | lia].
Qed.

Lemma runsClosed_of_runsAt (matrix : BitMatrix) (row : Z) (w : list Z) :
  forall x colour,
    runsAt matrix row x colour w ->
    Forall (fun c => 0 <= c) w ->
    Forall (fun c => 1 <= c) (drop 1 w) ->
    get matrix (x + sumZ w) row = xorb colour (Nat.odd (length w)) ->
    runsClosed matrix row x colour w.
Proof.
  induction w as [|c w IH]; intros x colour; [done|].
  cbn [runsAt runsClosed drop length]. rewrite sumZ_cons.
  intros [Hrun Hrest] [Hc Hnn]%Forall_cons Hpos Hend.
  split; [done|]. split; [done|].
  assert (Hend' : get matrix (x + c + sumZ w) row
                  = xorb (negb colour) (Nat.odd (length w))).
  { rewrite <- Z.add_assoc, Hend, Nat.odd_succ, <- Nat.negb_odd.
    by destruct colour, (Nat.odd (length w)). }
  destruct w as [|c1 w1].
  - split; [|done]. cbn in Hend'. by rewrite Z.add_0_r, xorb_false_r in Hend'.
  - apply Forall_cons in Hpos as [Hc1 Hpos1].
    split; [|by apply IH].
    cbn [runsAt] in Hrest. destruct Hrest as [Hrun1 _]. apply Hrun1. lia.
Qed.

Lemma positive_tail (u : list Z) :
  (forall i, (1 <= i < length u)%nat -> 1 <= elem u i) ->
  Forall (fun c => 1 <= c) (drop 1 u).
Proof.
  intros Hpos. apply Forall_lookup. intros i c Hi.
  rewrite lookup_drop in Hi. pose proof (lookup_lt_Some _ _ _ Hi) as Hlt.
  specialize (Hpos (1 + i)%nat ltac:(lia)). unfold elem in Hpos.
  by rewrite Hi in Hpos.
Qed.

(** Closed runs that start where open runs start and close before these end
    are fewer. *)
Lemma closed_prefix_shorter (matrix : BitMatrix) (row : Z) (w' : list Z) :
  forall u x colour,
    runsAt matrix row x colour u ->
    Forall (fun c => 0 <= c) u ->
    Forall (fun c => 1 <= c) (drop 1 u) ->
    runsClosed matrix row x colour w' ->
    sumZ w' < sumZ u ->
    (length w' < length u)%nat.
Proof.
  induction w' as [|r w' IH]; intros u x colour Hu Hnn Hpos Hw Hsum.
  - destruct u; [cbn in Hsum; lia | cbn [length]; lia].
  - pose proof (runsClosed_nonneg _ _ _ _ _ Hw) as Hnn'.
    pose proof (sumZ_nonneg_Forall _ Hnn') as Hs'.
    destruct u as [|c u]; [change (sumZ []) with 0 in Hsum; lia|].
    cbn [runsAt runsClosed drop length] in *. rewrite !sumZ_cons in *.
    destruct Hu as [Hrun Hrest]. destruct Hw as (Hr & Hrun' & Hclose & Hrest').
    apply Forall_cons in Hnn as [Hc Hnn]. apply Forall_cons in Hnn' as [_ Hnn'].
    pose proof (sumZ_nonneg_Forall _ Hnn') as Hs''.
    pose proof (sumZ_nonneg_Forall _ Hnn) as Hsu.
    assert (r = c) as ->.
    { destruct (Z.lt_trichotomy r c) as [Hlt|[->|Hgt]]; [|done|].
      - rewrite Hrun in Hclose by lia. by destruct colour.
      - destruct u as [|c1 u1]; [change (sumZ []) with 0 in Hsum; lia|].
        change (drop 0 (c1 :: u1)) with (c1 :: u1) in Hpos.
        apply Forall_cons in Hpos as [Hc1 _]. cbn [runsAt] in Hrest.
        destruct Hrest as [Hrun1 _].
        specialize (Hrun1 (x + c) ltac:(lia)). rewrite Hrun' in Hrun1 by lia.
        by destruct colour. }
    change (drop 0 u) with u in Hpos.
    apply -> Nat.succ_lt_mono. apply (IH u (x + c) (negb colour)); try done; [|lia].
    destruct u as [|c1 u1]; [constructor|].
    by apply Forall_cons in Hpos as [_ Hpos].
Qed.

(** Closed runs that start at or after the start of open runs, at the start
    of a run of their first colour, and close before the open runs end, are
    fewer. *)
Lemma closed_runs_bound (matrix : BitMatrix) (row : Z) (n : nat) :
  forall u ps colour s' w',
    (length u <= n)%nat ->
    runsAt matrix row ps colour u ->
    Forall (fun c => 0 <= c) u ->
    Forall (fun c => 1 <= c) (drop 1 u) ->
    ps <= s' ->
    s' = ps \/ (get matrix (s' - 1) row = negb colour /\ get matrix s' row = colour) ->
    runsClosed matrix row s' colour w' ->
    s' + sumZ w' < ps + sumZ u ->
    (length w' < length u)%nat.
Proof.
  induction n as [|n IH]; intros u ps colour s' w' Hlen Hu Hnn Hpos Hps Hstart Hw Hsum.
  - pose proof (sumZ_nonneg_Forall _ (runsClosed_nonneg _ _ _ _ _ Hw)).
    destruct u; [change (sumZ []) with 0 in Hsum; lia | cbn [length] in Hlen; lia].
  - pose proof (sumZ_nonneg_Forall _ (runsClosed_nonneg _ _ _ _ _ Hw)) as Hs'.
    destruct (decide (s' = ps)) as [->|Hne].
    { eapply closed_prefix_shorter; [exact Hu | done | done | exact Hw | lia]. }
    destruct Hstart as [|[Hleft Hhere]]; [done|].
    destruct u as [|c0 [|c1 u2]].
    + change (sumZ []) with 0 in Hsum. lia.
    + rewrite sumZ_cons in Hsum. change (sumZ []) with 0 in Hsum.
      cbn [runsAt] in Hu. destruct Hu as [Hrun _].
      rewrite Hrun in Hleft by lia. by destruct colour.
    + rewrite !sumZ_cons in Hsum. cbn [runsAt] in Hu.
      destruct Hu as (Hrun0 & Hrun1 & Hrest).
      apply Forall_cons in Hnn as [Hc0 Hnn]. apply Forall_cons in Hnn as [Hc1' Hnn].
      change (drop 1 (c0 :: c1 :: u2)) with (c1 :: u2) in Hpos.
      apply Forall_cons in Hpos as [Hc1 Hpos].
      destruct (Z.le_gt_cases s' (ps + c0)) as [Hin0|Hout0].
      { rewrite Hrun0 in Hleft by lia. by destruct colour. }
      destruct (Z.lt_ge_cases s' (ps + c0 + c1)) as [Hin1|Hout1].
      { rewrite Hrun1 in Hhere by lia. by destruct colour. }
      rewrite negb_involutive in Hrest.
      assert (Hshort : (length w' < length u2)%nat).
      { cbn [length] in Hlen.
        apply (IH u2 (ps + c0 + c1) colour s' w' ltac:(lia) Hrest Hnn
                 (Forall_drop _ 1 _ Hpos) ltac:(lia)
                 (or_intror (conj Hleft Hhere)) Hw).
        lia. }
      cbn [length]. lia.
Qed.

Lemma runsAt_first_three (matrix : BitMatrix) (row x : Z) (colour : bool) (w : list Z) :
  (3 <= length w)%nat ->
  runsAt matrix row x colour w ->
  (forall k, x <= k < x + elem w 0 -> get matrix k row = colour)
  /\ (forall k, x + elem w 0 <= k < x + elem w 0 + elem w 1 ->
        get matrix k row = negb colour)
  /\ (forall k, x + elem w 0 + elem w 1 <= k < x + elem w 0 + elem w 1 + elem w 2 ->
        get matrix k row = colour).
Proof.
  destruct w as [|c0 [|c1 [|c2 w]]]; cbn [length]; try lia.
  intros _ (H0 & H1 & H2 & _). rewrite negb_involutive in H2. done.
Qed.

Lemma guardStep_leftmost (matrix : BitMatrix) (row : Z) (pattern : list Z)
    (whiteFirst : bool) (column width : Z) (L : nat) (x : Z) (st : GuardScan) :
  (3 <= L)%nat -> 0 <= column -> x < 2 ^ 31 - 1 ->
  scanInv column L x st ->
  runInv matrix row whiteFirst st ->
  noneBefore matrix row column width whiteFirst pattern L (patternStart st) ->
  (patternStart st = column
   \/ (get matrix (patternStart st - 1) row = whiteFirst
       /\ get matrix (patternStart st) row = negb whiteFirst)) ->
  match guardStep matrix row pattern L x st with
  | inl _ => runsClosed matrix row (patternStart st) (negb whiteFirst) (counters st)
  | inr st' =>
      noneBefore matrix row column width whiteFirst pattern L (patternStart st')
      /\ (patternStart st' = column
          \/ (get matrix (patternStart st' - 1) row = whiteFirst
              /\ get matrix (patternStart st') row = negb whiteFirst))
  end.
Proof.
  intros HL Hcol Hx (Hlen & Hcp & Hnn & Hzero & Hps & Hsum) (Hw & Hruns & Hpos)
    Hnone Hstart.
  unfold guardStep.
  destruct (xorb (get matrix x row) (isWhite st)) eqn:Hpix; [done|].
  destruct (Nat.eqb_spec (counterPosition st) (L - 1)) as [Ecp|Ecp]; [|done].
  assert (Hfull : runsAt matrix row (patternStart st) (negb whiteFirst) (counters st)).
  { by rewrite take_ge in Hruns by lia. }
  assert (Hclosed : runsClosed matrix row (patternStart st) (negb whiteFirst)
                      (counters st)).
  { apply runsClosed_of_runsAt; [done | done | |].
    - apply positive_tail. intros i Hi. apply Hpos. lia.
    - rewrite Hsum, Hlen. replace L with (S (L - 1)) at 1 by lia.
      rewrite Nat.odd_succ, <- Nat.negb_odd, <- Ecp.
      rewrite Hw in Hpix. clear -Hpix.
      by destruct (get matrix x row), whiteFirst, (Nat.odd _). }
  destruct (windowMatches (counters st) pattern) eqn:Hm; [done|].
  pose proof (sumZ_nonneg_Forall _ Hnn) as Hs0.
  pose proof (sumZ_two (counters st)) as H2.
  pose proof (elem_nonneg (counters st) 0 Hnn) as Hc0.
  pose proof (elem_nonneg (counters st) 1 Hnn) as Hc1.
  pose proof (sumZ_nonneg_Forall _ (Forall_drop _ 2 _ Hnn)) as Hd.
  pose proof (Hpos 1%nat ltac:(lia)) as Hp1.
  pose proof (Hpos 2%nat ltac:(lia)) as Hp2.
  destruct (runsAt_first_three matrix row (patternStart st) (negb whiteFirst)
              (counters st) ltac:(lia) Hfull) as (Hr0 & Hr1 & Hr2).
  rewrite negb_involutive in Hr1.
  cbn [patternStart].
  rewrite (to_int_small (_ + _)) by lia.
  rewrite (to_size_t_small (elem _ 0 + elem _ 1)) by lia.
  rewrite to_size_t_small by lia.
  set (c0 := elem (counters st) 0) in *. set (c1 := elem (counters st) 1) in *.
  set (c2 := elem (counters st) 2) in *.
  split.
  - intros s' w' Hcand Hlt.
    destruct (Z.lt_trichotomy s' (patternStart st)) as [Hbefore|[->|Hafter]].
    + by apply (Hnone s' w').
    + destruct Hcand as (Hlen' & _ & _ & Hclosed' & _).
      by rewrite (runsClosed_unique _ _ _ _ _ _ Hclosed' Hclosed) by lia.
    + destruct Hcand as (_ & _ & _ & _ & [->|[Hleft Hhere]]); [lia|].
      destruct (Z.le_gt_cases s' (patternStart st + c0)).
      * rewrite Hr0 in Hleft by lia. by destruct whiteFirst.
      * rewrite Hr1 in Hhere by lia. by destruct whiteFirst.
  - right. split; [apply Hr1; lia | apply Hr2; lia].
Qed.

Lemma elem_take (l : list Z) (n i : nat) : (i < n)%nat -> elem (take n l) i = elem l i.
Proof. intros Hi. unfold elem. by rewrite lookup_take_lt. Qed.

Lemma guardLoop_leftmost (matrix : BitMatrix) (row : Z) (pattern : list Z)
    (whiteFirst : bool) (column width : Z) (L : nat) :
  (3 <= L)%nat -> 0 <= column -> column + width <= 2 ^ 31 - 1 ->
  forall (n : nat) (x : Z) (st : GuardScan),
    x + Z.of_nat n = column + width ->
    scanInv column L x st ->
    runInv matrix row whiteFirst st ->
    noneBefore matrix row column width whiteFirst pattern L (patternStart st) ->
    (patternStart st = column
     \/ (get matrix (patternStart st - 1) row = whiteFirst
         /\ get matrix (patternStart st) row = negb whiteFirst)) ->
    match guardLoop matrix row pattern L n x st with
    | (Some (s, e), w) =>
        candidate matrix row column width whiteFirst L s w
        /\ e = s + sumZ w
        /\ windowMatches w pattern = true
        /\ noneBefore matrix row column width whiteFirst pattern L s
    | (None, _) =>
        forall s' w', candidate matrix row column width whiteFirst L s' w' ->
          windowMatches w' pattern = false
    end.
Proof.
  intros HL Hcol Hfit. induction n as [|n IH]; intros x st Hx Hinv Hrun Hnone Hstart.
  - cbn [guardLoop]. intros s' w' Hcand.
    destruct (Z.lt_ge_cases s' (patternStart st)) as [Hlt|Hge];
      [by apply (Hnone s' w')|].
    exfalso.
    destruct Hinv as (Hlen & Hcp & Hnn & Hzero & Hps & Hsum).
    destruct Hrun as (Hw & Hruns & Hpos).
    destruct Hcand as (Hlen' & Hs' & Hend & Hclosed & Hstart').
    set (u := take (S (counterPosition st)) (counters st)) in *.
    assert (Hu : length u = S (counterPosition st))
      by (unfold u; rewrite length_take; lia).
    assert (Hshort : (length w' < length u)%nat).
    { apply (closed_runs_bound matrix row (length u) u (patternStart st)
               (negb whiteFirst) s' w'); try done.
      - unfold u. by apply Forall_take.
      - apply positive_tail. intros i Hi. unfold u. rewrite elem_take by lia.
        apply Hpos. lia.
      - rewrite negb_involutive. destruct Hstart' as [->|?]; [left; lia | by right].
      - unfold u. rewrite sumZ_take_current by done. lia. }
    lia.
  - cbn [guardLoop].
    pose proof (guardStep_inv matrix row pattern column L x st ltac:(lia) Hcol
                  ltac:(lia) Hinv) as Hstep.
    pose proof (guardStep_runs matrix row pattern whiteFirst column L x st ltac:(lia)
                  Hcol ltac:(lia) Hinv Hrun) as Hstep'.
    pose proof (guardStep_leftmost matrix row pattern whiteFirst column width L x st
                  HL Hcol ltac:(lia) Hinv Hrun Hnone Hstart) as Hstep''.
    destruct (guardStep matrix row pattern L x st) as [loc|st'].
    + destruct Hstep as (-> & Hm & Ecp).
      destruct Hinv as (Hlen & Hcp & Hnn & Hzero & Hps & Hsum).
      split; [|split; [lia | done]].
      unfold candidate. split; [done|]. split; [done|]. split; [lia|]. done.
    + destruct Hstep'' as [Hnone' Hstart'].
      apply IH; [lia | done..].
Qed.

(** X16 (findGuardPattern): the scan returns the leftmost matching
    window. Call candidate every window of [L] closed runs that begins with
    the colour the scan counts first, at the first scanned column or at the
    first pixel of a run of that colour, and whose closing pixel is still
    among the scanned columns. When the scan returns a span [(s, e)], its
    counters are the candidate at [s], they pass the variance test, and no
    candidate further left does; when it returns nothing, no candidate of the
    row passes the test. *)
Theorem findGuardPattern_leftmost (matrix : BitMatrix) (column row width : Z)
    (whiteFirst : bool) (pattern : list Z) (L : nat) (cs : list Z) :
  (3 <= L)%nat -> length cs = L ->
  0 <= column -> 0 <= width -> column + width <= 2 ^ 31 - 1 ->
  match findGuardPattern matrix column row width whiteFirst pattern L cs with
  | (Some (s, e), w) =>
      candidate matrix row column width whiteFirst L s w
      /\ e = s + sumZ w
      /\ windowMatches w pattern = true
      /\ forall s' w', candidate matrix row column width whiteFirst L s' w' ->
           s' < s -> windowMatches w' pattern = false
  | (None, _) =>
      forall s' w', candidate matrix row column width whiteFirst L s' w' ->
        windowMatches w' pattern = false
  end.
Proof.
  intros HL Hlen Hcol Hwidth Hfit. unfold findGuardPattern. rewrite Hlen.
  apply (guardLoop_leftmost matrix row pattern whiteFirst column width L HL Hcol Hfit).
  - lia.
  - apply scanInv_start. lia.
  - apply runInv_start.
  - intros s' w' (_ & Hs' & _) Hlt. cbn [patternStart] in Hlt. lia.
  - by left.
Qed.

Lemma findGuardPattern_leftmost_witness :
  findGuardPattern uprightSymbol 0 8 77 false START_PATTERN 8 (replicate 8 0)
  = (Some (4, 21), [8; 1; 1; 1; 1; 1; 1; 3])
  /\ candidate uprightSymbol 8 0 77 false 8 4 [8; 1; 1; 1; 1; 1; 1; 3]
  /\ 21 = 4 + sumZ [8; 1; 1; 1; 1; 1; 1; 3]
  /\ windowMatches [8; 1; 1; 1; 1; 1; 1; 3] START_PATTERN = true
  /\ forall s' w', candidate uprightSymbol 8 0 77 false 8 s' w' ->
       s' < 4 -> windowMatches w' START_PATTERN = false.
Proof.
  assert (E : findGuardPattern uprightSymbol 0 8 77 false START_PATTERN 8
                (replicate 8 0) = (Some (4, 21), [8; 1; 1; 1; 1; 1; 1; 3]))
    by (vm_compute; reflexivity).
  split; [exact E|].
  pose proof (findGuardPattern_leftmost uprightSymbol 0 8 77 false START_PATTERN 8
                (replicate 8 0) ltac:(lia) eq_refl ltac:(lia) ltac:(lia) ltac:(lia))
    as H.
  rewrite E in H. exact H.
Defined.

(** * When the vertex searches find a symbol *)

Section Found.
Variable matrix : BitMatrix.
Variable rowStep : Z.
Hypothesis Hvalid : validMatrix matrix.
Hypothesis Hstep : 0 < rowStep < 2 ^ 31.

Lemma rowsDown_found (column width : Z) (whiteFirst : bool) (pattern : list Z) :
  scanKind (rowsDown matrix (getHeight matrix) rowStep column width whiteFirst pattern
              (length pattern) (scanFuel matrix) (replicate (length pattern) 0) 0)
  = Some None
  /\ (forall i, sampledDown matrix rowStep i ->
        ~ foundIn matrix column width whiteFirst pattern i)
  \/ (exists loc i,
        scanKind (rowsDown matrix (getHeight matrix) rowStep column width whiteFirst
                    pattern (length pattern) (scanFuel matrix)
                    (replicate (length pattern) 0) 0) = Some (Some (loc, i))
        /\ sampledDown matrix rowStep i
        /\ foundIn matrix column width whiteFirst pattern i).
Proof.
  destruct Hvalid as [Hw Hh].
  pose proof (rowsDown_spec matrix (getHeight matrix) rowStep column width whiteFirst
                pattern (length pattern) Hstep (scanFuel matrix) ltac:(lia)
                (replicate (length pattern) 0) 0 ltac:(lia)) as Hspec.
  rewrite length_replicate in Hspec.
  destruct (rowsDown _ _ _ _ _ _ _ _ _ _ _) as [|cs'|loc i cs'].
  - unfold scanFuel in Hspec. lia.
  - left. split; [done|]. destruct Hspec as [_ Hn]. intros i [Hi Hmod] Hfound.
    apply Hfound. unfold foundIn.
    pose proof (Z.div_mod i rowStep ltac:(lia)) as Hdiv.
    pose proof (Z.div_pos i rowStep ltac:(lia) ltac:(lia)).
    replace i with (0 + i / rowStep * rowStep) by lia. apply Hn; lia.
  - right. destruct Hspec as (Hi & Hmod & Hrow & _). rewrite Z.sub_0_r in Hmod.
    exists loc, i. split; [done|]. split; [done|]. unfold foundIn. by rewrite Hrow.
Qed.

Lemma rowsUp_found (conv : Z -> Z) (column width : Z) (whiteFirst : bool)
    (pattern : list Z) :
  (forall z, - 2 ^ 31 <= z < 2 ^ 31 -> conv (to_size_t z) = z) ->
  scanKind (rowsUp matrix rowStep column width whiteFirst pattern (length pattern)
              conv (scanFuel matrix) (replicate (length pattern) 0)
              (getHeight matrix - 1)) = Some None
  /\ (forall i, sampledUp matrix rowStep i ->
        ~ foundIn matrix column width whiteFirst pattern i)
  \/ (exists loc i,
        scanKind (rowsUp matrix rowStep column width whiteFirst pattern
                    (length pattern) conv (scanFuel matrix)
                    (replicate (length pattern) 0) (getHeight matrix - 1))
        = Some (Some (loc, i))
        /\ sampledUp matrix rowStep i
        /\ foundIn matrix column width whiteFirst pattern i).
Proof.
  intros Hconv. destruct Hvalid as [Hw Hh].
  pose proof (rowsUp_spec matrix rowStep column width whiteFirst pattern
                (length pattern) Hstep conv (scanFuel matrix) Hconv
                (replicate (length pattern) 0) (getHeight matrix - 1) ltac:(lia))
    as Hspec.
  rewrite length_replicate in Hspec.
  destruct (rowsUp _ _ _ _ _ _ _ _ _ _ _) as [|cs'|loc i cs'].
  - unfold scanFuel in Hspec. lia.
  - left. split; [done|]. destruct Hspec as [_ Hn]. intros i [Hi Hmod] Hfound.
    apply Hfound. unfold foundIn.
    pose proof (Z.div_mod (getHeight matrix - 1 - i) rowStep ltac:(lia)) as Hdiv.
    pose proof (Z.div_pos (getHeight matrix - 1 - i) rowStep ltac:(lia) ltac:(lia)).
    replace i with (getHeight matrix - 1
                    - (getHeight matrix - 1 - i) / rowStep * rowStep) by lia.
    apply Hn; lia.
  - right. destruct Hspec as (Hi & Hmod & Hrow & _).
    exists loc, i. split; [done|]. split; [split; [lia | done]|].
    unfold foundIn. by rewrite Hrow.
Qed.
End Found.

(** X17 (findVertices, findVertices180): when a search finds a symbol. On
    a valid image findVertices returns eight vertices exactly when the start
    pattern is found in a row sampled top-down and in a row sampled
    bottom-up, and so is the stop pattern, each over the full width; and
    findVertices180 exactly when the reversed start pattern is found, in
    both kinds of rows, in the right half and the reversed stop pattern in
    the left half. Row 0 is never among the rows sampled bottom-up. *)
Theorem vertices_found_iff (matrix : BitMatrix) (rowStep : Z) :
  validMatrix matrix -> 0 < rowStep < 2 ^ 31 ->
  let w := getWidth matrix in
  let half := Z.shiftr (getWidth matrix) 1 in
  (exists v, findVertices (scanFuel matrix) matrix rowStep = Return v
     /\ (v <> [] <->
         (exists i, sampledDown matrix rowStep i
                    /\ foundIn matrix 0 w false START_PATTERN i)
         /\ (exists i, sampledUp matrix rowStep i
                       /\ foundIn matrix 0 w false START_PATTERN i)
         /\ (exists i, sampledDown matrix rowStep i
                       /\ foundIn matrix 0 w false STOP_PATTERN i)
         /\ (exists i, sampledUp matrix rowStep i
                       /\ foundIn matrix 0 w false STOP_PATTERN i)))
  /\ (exists v, findVertices180 (scanFuel matrix) matrix rowStep = Return v
     /\ (v <> [] <->
         (exists i, sampledUp matrix rowStep i
                    /\ foundIn matrix half half true START_PATTERN_REVERSE i)
         /\ (exists i, sampledDown matrix rowStep i
                       /\ foundIn matrix half half true START_PATTERN_REVERSE i)
         /\ (exists i, sampledUp matrix rowStep i
                       /\ foundIn matrix 0 half false STOP_PATTERN_REVERSE i)
         /\ (exists i, sampledDown matrix rowStep i
                       /\ foundIn matrix 0 half false STOP_PATTERN_REVERSE i))).
Proof.
  intros Hvalid Hs w half. subst w half. pose proof Hvalid as [Hw Hh].
  unfold SIZEOF_START_PATTERN, SIZEOF_STOP_PATTERN, SIZEOF_START_PATTERN_REVERSE,
    SIZEOF_STOP_PATTERN_REVERSE in *.
  set (w := getWidth matrix) in *. set (half := Z.shiftr w 1) in *. split.
  - rewrite findVertices_closed.
    unfold topLeftScan, bottomLeftScan, topRightScan, bottomRightScan.
    unfold SIZEOF_START_PATTERN, SIZEOF_STOP_PATTERN.
    fold w.
    rewrite !(to_size_t_small (getHeight matrix)), !(to_size_t_small w) by lia.
    rewrite !to_size_t_small, !to_long_small by lia.
    destruct (rowsDown_found matrix rowStep Hvalid Hs 0 w false START_PATTERN)
      as [[-> N1]|(l1 & i1 & -> & S1 & F1)];
      [eexists; split; [reflexivity|]; split; [done|];
       intros ((i & Hi & Hf) & _); by destruct (N1 i) |].
    destruct (rowsUp_found matrix rowStep Hvalid Hs to_long 0 w false START_PATTERN
                to_long_round_trip)
      as [[-> N2]|(l2 & i2 & -> & S2 & F2)];
      [eexists; split; [reflexivity|]; split; [done|];
       intros (_ & (i & Hi & Hf) & _); by destruct (N2 i) |].
    destruct (rowsDown_found matrix rowStep Hvalid Hs 0 w false STOP_PATTERN)
      as [[-> N3]|(l3 & i3 & -> & S3 & F3)];
      [eexists; split; [reflexivity|]; split; [done|];
       intros (_ & _ & (i & Hi & Hf) & _); by destruct (N3 i) |].
    destruct (rowsUp_found matrix rowStep Hvalid Hs to_long 0 w false STOP_PATTERN
                to_long_round_trip)
      as [[-> N4]|(l4 & i4 & -> & S4 & F4)];
      [eexists; split; [reflexivity|]; split; [done|];
       intros (_ & _ & _ & (i & Hi & Hf)); by destruct (N4 i) |].
    eexists. split; [reflexivity|]. split; [|done]. intros _.
    repeat split; eauto.
  - rewrite findVertices180_closed.
    unfold topLeftScan180, bottomLeftScan180, topRightScan180, bottomRightScan180.
    unfold SIZEOF_START_PATTERN_REVERSE, SIZEOF_STOP_PATTERN_REVERSE.
    fold w.
    rewrite !(to_size_t_small (getHeight matrix)), !(to_size_t_small w) by lia.
    fold half.
    rewrite !to_size_t_small, !to_int_small by lia.
    destruct (rowsUp_found matrix rowStep Hvalid Hs to_int half half true
                START_PATTERN_REVERSE to_int_round_trip)
      as [[-> N1]|(l1 & i1 & -> & S1 & F1)];
      [eexists; split; [reflexivity|]; split; [done|];
       intros ((i & Hi & Hf) & _); by destruct (N1 i) |].
    destruct (rowsDown_found matrix rowStep Hvalid Hs half half true
                START_PATTERN_REVERSE)
      as [[-> N2]|(l2 & i2 & -> & S2 & F2)];
      [eexists; split; [reflexivity|]; split; [done|];
       intros (_ & (i & Hi & Hf) & _); by destruct (N2 i) |].
    destruct (rowsUp_found matrix rowStep Hvalid Hs to_int 0 half false
                STOP_PATTERN_REVERSE to_int_round_trip)
      as [[-> N3]|(l3 & i3 & -> & S3 & F3)];
      [eexists; split; [reflexivity|]; split; [done|];
       intros (_ & _ & (i & Hi & Hf) & _); by destruct (N3 i) |].
    destruct (rowsDown_found matrix rowStep Hvalid Hs 0 half false
                STOP_PATTERN_REVERSE)
      as [[-> N4]|(l4 & i4 & -> & S4 & F4)];
      [eexists; split; [reflexivity|]; split; [done|];
       intros (_ & _ & _ & (i & Hi & Hf)); by destruct (N4 i) |].
    eexists. split; [reflexivity|]. split; [|done]. intros _.
    repeat split; eauto.
Qed.

Lemma vertices_found_iff_witness :
  (exists i, sampledDown uprightSymbol 8 i
             /\ foundIn uprightSymbol 0 77 false START_PATTERN i)
  /\ (exists i, sampledUp uprightSymbol 8 i
                /\ foundIn uprightSymbol 0 77 false START_PATTERN i)
  /\ (exists i, sampledDown uprightSymbol 8 i
                /\ foundIn uprightSymbol 0 77 false STOP_PATTERN i)
  /\ (exists i, sampledUp uprightSymbol 8 i
                /\ foundIn uprightSymbol 0 77 false STOP_PATTERN i).
Proof.
  assert (Hvalid : validMatrix uprightSymbol) by (unfold validMatrix; simpl; lia).
  destruct (vertices_found_iff uprightSymbol 8 Hvalid ltac:(lia))
    as [(v & Hv & Hiff) _].
  apply (proj1 Hiff). intros ->.
  vm_compute in Hv. discriminate Hv.
Defined.

(** * The score of a mirrored window *)

Lemma sumZ_rev (l : list Z) : sumZ (rev l) = sumZ l.
Proof.
  induction l as [|a l IH]; [done|].
  cbn [rev]. rewrite sumZ_app, IH, !sumZ_cons. change (sumZ []) with 0. lia.
Qed.

Lemma forallb_rev {A : Type} (f : A -> bool) (l : list A) :
  forallb f (rev l) = forallb f l.
Proof.
  induction l as [|a l IH]; [done|].
  cbn [rev forallb]. rewrite forallb_app, IH. cbn [forallb].
  by destruct (f a), (forallb f l).
Qed.

Lemma deviations_app (u : Z) (cs1 cs2 ps1 ps2 : list Z) :
  length cs1 = length ps1 ->
  deviations u (cs1 ++ cs2) (ps1 ++ ps2) = deviations u cs1 ps1 ++ deviations u cs2 ps2.
Proof. intros Hlen. unfold deviations. by apply zip_with_app. Qed.

Lemma deviations_rev (u : Z) (cs ps : list Z) :
  length cs = length ps ->
  deviations u (rev cs) (rev ps) = rev (deviations u cs ps).
Proof.
  revert ps. induction cs as [|c cs IH]; intros [|p ps] Hlen; try done.
  cbn [rev]. rewrite deviations_app by (rewrite !length_rev; cbn in Hlen; lia).
  rewrite IH by (cbn in Hlen; lia). done.
Qed.

Lemma wellSized_rev (cs pattern : list Z) :
  wellSized (rev cs) (rev pattern) = wellSized cs pattern.
Proof. unfold wellSized. by rewrite !length_rev, !forallb_rev, !sumZ_rev. Qed.

Lemma score_rev (cs pattern : list Z) (maxIndividualVariance : Z) :
  length pattern = length cs ->
  score (rev cs) (rev pattern) maxIndividualVariance
  = score cs pattern maxIndividualVariance.
Proof.
  intros Hlen. unfold score. rewrite !sumZ_rev.
  rewrite deviations_rev by done. by rewrite forallb_rev, sumZ_rev.
Qed.

(** X18 (patternMatchVariance, findVertices180): the score does not
    change when window and pattern are both mirrored. The reversed guard
    patterns of the rotated search are the mirror images of the upright
    ones, so a window passes the test against a reversed pattern exactly
    when its mirror image passes it against the upright pattern. *)
Theorem score_of_mirrored_window (cs pattern : list Z) :
  wellSized cs pattern = true ->
  patternMatchVariance (rev cs) (rev pattern) MAX_INDIVIDUAL_VARIANCE
  = patternMatchVariance cs pattern MAX_INDIVIDUAL_VARIANCE
  /\ START_PATTERN_REVERSE = rev START_PATTERN
  /\ STOP_PATTERN_REVERSE = rev STOP_PATTERN
  /\ (pattern = START_PATTERN ->
      windowMatches (rev cs) START_PATTERN_REVERSE = windowMatches cs START_PATTERN)
  /\ (pattern = STOP_PATTERN ->
      windowMatches (rev cs) STOP_PATTERN_REVERSE = windowMatches cs STOP_PATTERN).
Proof.
  intros Hsized.
  assert (Hscore : patternMatchVariance (rev cs) (rev pattern) MAX_INDIVIDUAL_VARIANCE
                   = patternMatchVariance cs pattern MAX_INDIVIDUAL_VARIANCE).
  { rewrite !patternMatchVariance_exact;
      [| done | by vm_compute | by rewrite wellSized_rev | by vm_compute].
    apply score_rev. by apply wellSized_facts in Hsized as [? _]. }
  split; [done|]. split; [done|]. split; [done|].
  split; intros ->; unfold windowMatches; by rewrite <- Hscore.
Qed.

Lemma score_of_mirrored_window_witness :
  windowMatches (rev [9; 1; 1; 1; 1; 1; 1; 3]) START_PATTERN_REVERSE
  = windowMatches [9; 1; 1; 1; 1; 1; 1; 3] START_PATTERN.
Proof.
  refine (proj1 (proj2 (proj2 (proj2
    (score_of_mirrored_window [9; 1; 1; 1; 1; 1; 1; 3] START_PATTERN _)))) _);
    reflexivity.
Defined.

(** * The vertices are pixels of the image *)

Lemma point_roundsInside (matrix : BitMatrix) (x y : Z) (p : ResultPoint) :
  getWidth matrix < 2 ^ 23 -> getHeight matrix < 2 ^ 23 ->
  0 <= x < getWidth matrix -> 0 <= y < getHeight matrix ->
  Some (point x y) = Some (Some p) -> roundsInside matrix p.
Proof.
  intros Hw Hh Hx Hy [= <-]. unfold roundsInside, inBounds. cbn [getX getY].
  rewrite !round_of_int by lia.
  replace (x <? 0) with false by lia. replace (y <? 0) with false by lia.
  repeat (apply andb_true_intro; split); lia.
Qed.

(** X19 (findVertices, findVertices180, round): every vertex a search
    returns is a pixel of the image. On a valid image of fewer than [2^23]
    columns and rows, each of the eight points of a non-empty result of
    either search rounds to a position inside the image: the assumption
    under which findWideBarTopBottom is entered always holds. *)
Theorem vertices_are_pixels (fuel : nat) (matrix : BitMatrix) (rowStep : Z)
    (v : Vertices) :
  validMatrix matrix -> getWidth matrix < 2 ^ 23 -> getHeight matrix < 2 ^ 23 ->
  0 < rowStep < 2 ^ 31 ->
  findVertices fuel matrix rowStep = Return v
  \/ findVertices180 fuel matrix rowStep = Return v ->
  forall i p, (i < 8)%nat -> v !! i = Some (Some p) -> roundsInside matrix p.
Proof.
  intros Hvalid Hw Hh Hs Hv i p Hi Hp.
  assert (Hne : v <> []) by (by intros ->).
  pose proof (halfWidth_bounds (getWidth matrix) (proj1 Hvalid)) as [Hh0 Hh2].
  destruct Hv as [Hv|Hv].
  - destruct (findVertices_located fuel matrix rowStep v Hvalid Hs Hv Hne)
      as (loc1 & i1 & loc2 & i2 & loc3 & i3 & loc4 & i4 & -> & [S1 _] & [S2 _]
          & [S3 _] & [S4 _] & P1 & P2 & P3 & P4).
    unfold spanOf in *.
    destruct i as [|[|[|[|[|[|[|[|i]]]]]]]]; try lia;
      cbn [app lookup list_lookup] in Hp;
      eapply point_roundsInside; try exact Hp; lia.
  - destruct (findVertices180_located fuel matrix rowStep v Hvalid Hs Hv Hne)
      as (loc1 & i1 & loc2 & i2 & loc3 & i3 & loc4 & i4 & -> & [S1 _] & [S2 _]
          & [S3 _] & [S4 _] & P1 & P2 & P3 & P4).
    unfold spanOf in *.
    destruct i as [|[|[|[|[|[|[|[|i]]]]]]]]; try lia;
      cbn [app lookup list_lookup] in Hp;
      eapply point_roundsInside; try exact Hp; lia.
Qed.

Lemma vertices_are_pixels_witness :
  exists v,
    findVertices180 (scanFuel rotatedSymbol) rotatedSymbol 8 = Return v
    /\ forall i p, (i < 8)%nat -> v !! i = Some (Some p) ->
         roundsInside rotatedSymbol p.
Proof.
  assert (Hv : exists v, findVertices180 (scanFuel rotatedSymbol) rotatedSymbol 8
                         = Return v)
    by (eexists; vm_compute; reflexivity).
  destruct Hv as [v Hv]. exists v. split; [exact Hv|].
  apply (vertices_are_pixels (scanFuel rotatedSymbol) rotatedSymbol 8 v).
  - unfold validMatrix; simpl; lia.
  - simpl; lia.
  - simpl; lia.
  - lia.
  - right. exact Hv.
Defined.
(** * The variance score and the guard-pattern scan *)

(** ** The acceptance test of findGuardPattern *)

Lemma findGuardPattern_below_cap (matrix : BitMatrix) (column row width : Z)
    (whiteFirst : bool) (pattern : list Z) (counters : list Z) :
  (3 <= length pattern)%nat -> length counters = length pattern ->
  0 <= column -> 0 <= width -> column + width <= 2 ^ 31 - 1 ->
  match findGuardPattern matrix column row width whiteFirst pattern (length pattern)
          counters with
  | (Some (s, e), w) =>
      candidate matrix row column width whiteFirst (length pattern) s w
      /\ e = s + sumZ w
      /\ patternMatchVariance w pattern MAX_INDIVIDUAL_VARIANCE < MAX_AVG_VARIANCE
      /\ forall s' w',
           candidate matrix row column width whiteFirst (length pattern) s' w' ->
           s' < s ->
           MAX_AVG_VARIANCE <= patternMatchVariance w' pattern MAX_INDIVIDUAL_VARIANCE
  | (None, _) =>
      forall s' w',
        candidate matrix row column width whiteFirst (length pattern) s' w' ->
        MAX_AVG_VARIANCE <= patternMatchVariance w' pattern MAX_INDIVIDUAL_VARIANCE
  end.
Proof.
  intros HL Hlen Hcol Hwidth Hfit. unfold findGuardPattern. rewrite Hlen.
  pose proof (guardLoop_leftmost matrix row pattern whiteFirst column width
                (length pattern) HL Hcol Hfit (Z.to_nat width) column
                (mkGuardScan (replicate (length pattern) 0) 0 column whiteFirst)) as H.
  assert (Hfirst : noneBefore matrix row column width whiteFirst pattern
                     (length pattern) column).
  { intros s' w' (_ & Hs' & _) Hlt. lia. }
  specialize (H ltac:(lia) (scanInv_start column (length pattern) whiteFirst
                              ltac:(lia)) (runInv_start matrix row column (length pattern) whiteFirst)
                Hfirst (or_introl eq_refl)).
  destruct (guardLoop _ _ _ _ _ _ _) as [[[s e]|] w].
  - destruct H as (Hcand & He & Hmatch & Hnone).
    split; [exact Hcand|]. split; [exact He|]. split.
    + unfold windowMatches in Hmatch. by apply Z.ltb_lt.
    + intros s' w' Hc Hlt. specialize (Hnone s' w' Hc Hlt).
      unfold windowMatches in Hnone. by apply Z.ltb_ge.
  - intros s' w' Hc. specialize (H s' w' Hc).
    unfold windowMatches in H. by apply Z.ltb_ge.
Qed.

(** C3, as amended. Reading of the claim: the run-length counters and the
    pattern have the same number of elements, and all sizes are in the range
    in which no intermediate value leaves its C++ type ([wellSized]: counters
    non-negative, pattern elements positive, both totals below [2^15]). With
    [u] the module width estimate scaled by 256 and [cap] the per-element cap
    [(204 * u) >> 8]: the score is [INT_MAX] when the observed total is below
    the pattern total; it is [INT_MAX] when some element's deviation
    [|256 c - p u|] exceeds [cap]; otherwise it is the sum of the deviations
    divided by the observed total. And findGuardPattern, scanning [width]
    columns of a row from [column] for a pattern of at least three elements,
    declares a match exactly on that value being below [MAX_AVG_VARIANCE] =
    107: the span it returns is the leftmost candidate window whose value is
    below 107, and it returns nothing only when no candidate window of the
    row has a value below 107. *)
Theorem patternMatchVariance_scoring (cs pattern : list Z) :
  wellSized cs pattern = true ->
  let total := sumZ cs in
  let patternLength := sumZ pattern in
  let u := 256 * total / patternLength in
  let cap := MAX_INDIVIDUAL_VARIANCE * u / 256 in
  let devs := deviations u cs pattern in
  let result := patternMatchVariance cs pattern MAX_INDIVIDUAL_VARIANCE in
  MAX_INDIVIDUAL_VARIANCE = 204 /\ MAX_AVG_VARIANCE = 107
  /\ (total < patternLength -> result = INT_MAX)
  /\ (patternLength <= total -> (exists v, v ∈ devs /\ cap < v) -> result = INT_MAX)
  /\ (patternLength <= total -> (forall v, v ∈ devs -> v <= cap) ->
      result = sumZ devs / total)
  /\ (forall matrix column row width whiteFirst counters,
        (3 <= length pattern)%nat -> length counters = length pattern ->
        0 <= column -> 0 <= width -> column + width <= 2 ^ 31 - 1 ->
        match findGuardPattern matrix column row width whiteFirst pattern
                (length pattern) counters with
        | (Some (s, e), w) =>
            candidate matrix row column width whiteFirst (length pattern) s w
            /\ e = s + sumZ w
            /\ patternMatchVariance w pattern MAX_INDIVIDUAL_VARIANCE
               < MAX_AVG_VARIANCE
            /\ forall s' w',
                 candidate matrix row column width whiteFirst (length pattern) s' w' ->
                 s' < s ->
                 MAX_AVG_VARIANCE
                 <= patternMatchVariance w' pattern MAX_INDIVIDUAL_VARIANCE
        | (None, _) =>
            forall s' w',
              candidate matrix row column width whiteFirst (length pattern) s' w' ->
              MAX_AVG_VARIANCE
              <= patternMatchVariance w' pattern MAX_INDIVIDUAL_VARIANCE
        end).
Proof.
  intros Hw total patternLength u cap devs result.
  destruct constants_value as [E1 E2].
  destruct (score_cases cs pattern Hw) as (H1 & H2 & H3).
  split; [exact E1|]. split; [exact E2|].
  split; [exact H1|]. split; [exact H2|]. split; [exact H3|].
  intros matrix column row width whiteFirst counters.
  apply findGuardPattern_below_cap.
Qed.

Lemma patternMatchVariance_scoring_witness :
  wellSized [9; 1; 1; 1; 1; 1; 1; 3] START_PATTERN = true
  /\ patternMatchVariance [9; 1; 1; 1; 1; 1; 1; 3] START_PATTERN MAX_INDIVIDUAL_VARIANCE
     = sumZ (deviations (256 * 18 / 17) [9; 1; 1; 1; 1; 1; 1; 3] START_PATTERN) / 18
  /\ findGuardPattern uprightSymbol 0 8 77 false START_PATTERN 8 (replicate 8 0)
     = (Some (4, 21), [8; 1; 1; 1; 1; 1; 1; 3])
  /\ patternMatchVariance [8; 1; 1; 1; 1; 1; 1; 3] START_PATTERN MAX_INDIVIDUAL_VARIANCE
     < MAX_AVG_VARIANCE
  /\ forall s' w', candidate uprightSymbol 8 0 77 false 8 s' w' -> s' < 4 ->
       MAX_AVG_VARIANCE <= patternMatchVariance w' START_PATTERN MAX_INDIVIDUAL_VARIANCE.
Proof.
  split; [reflexivity|].
  destruct (patternMatchVariance_scoring [9; 1; 1; 1; 1; 1; 1; 3] START_PATTERN
              eq_refl) as (_ & _ & _ & _ & Hscore & Hfind).
  split.
  - apply Hscore.
    + vm_compute. discriminate.
    + intros v Hv. vm_compute in Hv.
      repeat (apply elem_of_cons in Hv as [->|Hv]; [vm_compute; discriminate|]).
      inversion Hv.
  - assert (E : findGuardPattern uprightSymbol 0 8 77 false START_PATTERN 8
                  (replicate 8 0) = (Some (4, 21), [8; 1; 1; 1; 1; 1; 1; 3]))
      by (vm_compute; reflexivity).
    split; [exact E|].
    pose proof (Hfind uprightSymbol 0 8 77 false (replicate 8 0)
                  ltac:(vm_compute; lia) eq_refl ltac:(lia) ltac:(lia) ltac:(lia))
      as H.
    change (length START_PATTERN) with 8%nat in H. rewrite E in H.
    destruct H as (_ & _ & Hlt & Hnone). split; [exact Hlt | exact Hnone].
Defined.

(** C3 as stated, for every counter vector, fails outside that range: the
    start pattern with every run multiplied by 125000 has a total not below
    the pattern total and every deviation zero, so the claimed value is the
    average 0, a match; the code returns [INT_MAX], because [204 * u] with
    [u = 32000000] does not fit an [int]. *)
Lemma patternMatchVariance_scoring_counterexample :
  let cs := map (Z.mul 125000) START_PATTERN in
  let u := 256 * sumZ cs / sumZ START_PATTERN in
  length cs = length START_PATTERN
  /\ sumZ START_PATTERN <= sumZ cs
  /\ (forall v, v ∈ deviations u cs START_PATTERN ->
        v <= MAX_INDIVIDUAL_VARIANCE * u / 256)
  /\ sumZ (deviations u cs START_PATTERN) / sumZ cs = 0
  /\ score cs START_PATTERN MAX_INDIVIDUAL_VARIANCE = 0
  /\ patternMatchVariance cs START_PATTERN MAX_INDIVIDUAL_VARIANCE = INT_MAX.
Proof.
  intros cs u. split; [reflexivity|]. split; [vm_compute; discriminate|].
  split; [|split; [|split]; vm_compute; reflexivity].
  intros v Hv. vm_compute in Hv.
  repeat (apply elem_of_cons in Hv as [->|Hv]; [vm_compute; discriminate|]).
  inversion Hv.
Qed.

(** ** Stretched and perturbed windows *)

Lemma deviations_elem (u : Z) (cs pattern : list Z) (i : nat) :
  length pattern = length cs -> (i < length cs)%nat ->
  Z.abs (256 * elem cs i - elem pattern i * u) ∈ deviations u cs pattern.
Proof.
  intros Hlen Hi. unfold deviations. apply list_elem_of_lookup. exists i.
  rewrite lookup_zip_with. unfold elem.
  destruct (cs !! i) as [c|] eqn:Hc; [|apply lookup_ge_None in Hc; lia].
  destruct (pattern !! i) as [p|] eqn:Hp; [|apply lookup_ge_None in Hp; lia].
  reflexivity.
Qed.

Lemma elem_pattern_nonneg (pattern : list Z) (i : nat) :
  forallb (fun p => 0 <? p) pattern = true -> 0 <= elem pattern i.
Proof.
  intros Hp. unfold elem. destruct (pattern !! i) as [p|] eqn:E; simpl; [|lia].
  apply list_elem_of_lookup_2, list_elem_of_In in E.
  rewrite forallb_forall in Hp. apply Hp in E. lia.
Qed.

(** A matching window keeps every deviation under the cap. *)
Lemma matching_capped (cs pattern : list Z) (i : nat) :
  wellSized cs pattern = true -> (i < length cs)%nat ->
  patternMatchVariance cs pattern MAX_INDIVIDUAL_VARIANCE < MAX_AVG_VARIANCE ->
  let u := 256 * sumZ cs / sumZ pattern in
  Z.abs (256 * elem cs i - elem pattern i * u) <= MAX_INDIVIDUAL_VARIANCE * u / 256.
Proof.
  intros Hw Hi Hmatch u.
  destruct constants_value as [E1 E2].
  pose proof (wellSized_facts _ _ Hw) as (Hlen & _).
  rewrite patternMatchVariance_exact in Hmatch by (try done; rewrite E1; lia).
  unfold score in Hmatch. fold u in Hmatch.
  destruct (sumZ cs <? sumZ pattern); [rewrite E2 in Hmatch; done|].
  destruct (forallb _ (deviations u cs pattern)) eqn:Hall;
    [|rewrite E2 in Hmatch; done].
  rewrite capped_iff in Hall. apply Hall. by apply deviations_elem.
Qed.

(** How far run [i] must move for its deviation to leave the cap. *)
Lemma perturbed_deviation (P T T' u u' p c c' cap cap' : Z) :
  0 < P -> 0 <= p ->
  u = 256 * T / P -> u' = 256 * T' / P -> T' = T - c + c' ->
  Z.abs (256 * c - p * u) <= cap ->
  (cap + cap' + p) * P < 256 * Z.abs (c' - c) * (P - p) ->
  cap' < Z.abs (256 * c' - p * u').
Proof.
  intros HP Hp Hu Hu' HT HD Hfar.
  pose proof (Z.mul_div_le (256 * T) P HP) as H1.
  pose proof (Z.mul_succ_div_gt (256 * T) P HP) as H2.
  pose proof (Z.mul_div_le (256 * T') P HP) as H3.
  pose proof (Z.mul_succ_div_gt (256 * T') P HP) as H4.
  rewrite <- Hu in H1, H2. rewrite <- Hu' in H3, H4.
  set (d := c' - c) in *.
  assert (HX : 256 * d - P < P * u' - P * u < 256 * d + P) by lia.
  assert (HpX : p * (256 * d - P) <= p * (P * u' - P * u) <= p * (256 * d + P)).
  { split; apply Z.mul_le_mono_nonneg_l; lia. }
  assert (HPD : P * (256 * c' - p * u')
                = P * (256 * c - p * u) + 256 * d * P - p * (P * u' - P * u))
    by (unfold d; ring).
  assert (HDl : - (P * cap) <= P * (256 * c - p * u) <= P * cap) by nia.
  destruct (Z.lt_trichotomy d 0) as [Hd|[Hd|Hd]].
  - rewrite (Z.abs_neq d) in Hfar by lia.
    assert (P * (256 * c' - p * u') < - (P * cap')) by nia.
    assert (256 * c' - p * u' < - cap') by nia. lia.
  - rewrite Hd in Hfar. simpl in Hfar. nia.
  - rewrite (Z.abs_eq d) in Hfar by lia.
    assert (P * cap' < P * (256 * c' - p * u')) by nia.
    assert (cap' < 256 * c' - p * u') by nia. lia.
Qed.

(** C8, as amended. All sequences are in the range in which no intermediate
    value leaves its C++ type ([wellSized]: as many runs as the pattern has
    elements, runs non-negative, totals below [2^15]). (a) When the scaled
    module-width estimate of the stretched sequence is exactly [k] times
    that of the original (as it is whenever the pattern total divides 256
    times the observed total), a sequence that scores under the threshold
    keeps its score when every run is multiplied by [k]. (b) Changing run
    [i] of a matching sequence from [c] to [c'] makes patternMatchVariance
    reject the sequence whenever [256 |c' - c| (P - p) > (cap + cap' + p) P],
    with [P] the pattern total, [p] the pattern element of the run, and
    [cap], [cap'] the caps [(204 * u) >> 8] at the module widths estimated
    before and after the change. *)
Theorem scaling_and_perturbation (cs pattern : list Z) (k : Z) (i : nat) (c' : Z) :
  (0 < k ->
   wellSized (map (Z.mul k) cs) pattern = true ->
   (256 * (k * sumZ cs)) / sumZ pattern = k * ((256 * sumZ cs) / sumZ pattern) ->
   patternMatchVariance cs pattern MAX_INDIVIDUAL_VARIANCE < MAX_AVG_VARIANCE ->
   patternMatchVariance (map (Z.mul k) cs) pattern MAX_INDIVIDUAL_VARIANCE
   = patternMatchVariance cs pattern MAX_INDIVIDUAL_VARIANCE)
  /\ (let cs' := <[i := c']> cs in
      let cap := MAX_INDIVIDUAL_VARIANCE * (256 * sumZ cs / sumZ pattern) / 256 in
      let cap' := MAX_INDIVIDUAL_VARIANCE * (256 * sumZ cs' / sumZ pattern) / 256 in
      wellSized cs pattern = true -> wellSized cs' pattern = true ->
      (i < length cs)%nat ->
      patternMatchVariance cs pattern MAX_INDIVIDUAL_VARIANCE < MAX_AVG_VARIANCE ->
      (cap + cap' + elem pattern i) * sumZ pattern
      < 256 * Z.abs (c' - elem cs i) * (sumZ pattern - elem pattern i) ->
      patternMatchVariance cs' pattern MAX_INDIVIDUAL_VARIANCE = INT_MAX).
Proof.
  destruct constants_value as [E1 E2].
  split.
  - intros Hk Hwk Hexact Hmatch.
    pose proof (wellSized_unscale _ _ _ Hk Hwk) as Hw.
    rewrite patternMatchVariance_exact in Hmatch by (try done; rewrite E1; lia).
    rewrite !patternMatchVariance_exact by (try done; rewrite E1; lia).
    pose proof (wellSized_facts _ _ Hw) as (Hlen & Hc & Hp & HP & HT).
    unfold score in *. rewrite sumZ_scale, Hexact.
    set (T := sumZ cs) in *. set (P := sumZ pattern) in *.
    set (u := 256 * T / P) in *.
    destruct (Z.ltb_spec T P) as [Hlt|Hle]; [rewrite E2 in Hmatch; done|].
    destruct (Z.ltb_spec (k * T) P) as [Hlt'|Hle']; [nia|].
    rewrite deviations_scale by lia.
    destruct (forallb _ (deviations u cs pattern)) eqn:Hall;
      [|rewrite E2 in Hmatch; done].
    rewrite (capped_scale k _ (MAX_INDIVIDUAL_VARIANCE * u / 256) _ Hk).
    + rewrite sumZ_scale. apply Z.div_mul_cancel_l; lia.
    + assert (0 <= u) by (apply Z.div_pos; lia).
      apply Z.div_le_lower_bound; [lia|].
      pose proof (Z.mul_div_le (MAX_INDIVIDUAL_VARIANCE * u) 256 ltac:(lia)). nia.
    + done.
  - intros cs' cap cap' Hw Hw' Hi Hmatch Hfar.
    pose proof (wellSized_facts _ _ Hw) as (Hlen & Hc & Hp & HP & HT).
    destruct (score_cases cs' pattern Hw') as (Hsmall & Hbig & _).
    destruct (Z.lt_ge_cases (sumZ cs') (sumZ pattern)) as [Hlt|Hge]; [auto|].
    apply Hbig; [done|].
    exists (Z.abs (256 * elem cs' i - elem pattern i * (256 * sumZ cs' / sumZ pattern))).
    split.
    + apply deviations_elem; subst cs'; rewrite length_insert; done.
    + subst cs'. rewrite elem_insert by done. rewrite decide_True by done.
      apply (perturbed_deviation (sumZ pattern) (sumZ cs) (sumZ (<[i := c']> cs))
               (256 * sumZ cs / sumZ pattern) _ (elem pattern i) (elem cs i) c' cap cap');
        try done.
      * lia.
      * by apply elem_pattern_nonneg.
      * by apply sumZ_insert.
      * by apply matching_capped.
Qed.

Lemma scaling_and_perturbation_witness :
  patternMatchVariance (map (Z.mul 2) START_PATTERN) START_PATTERN MAX_INDIVIDUAL_VARIANCE
  = patternMatchVariance START_PATTERN START_PATTERN MAX_INDIVIDUAL_VARIANCE
  /\ patternMatchVariance (<[1%nat := 3]> START_PATTERN) START_PATTERN
       MAX_INDIVIDUAL_VARIANCE = INT_MAX.
Proof.
  destruct (scaling_and_perturbation START_PATTERN START_PATTERN 2 1 3) as [Ha Hb].
  split.
  - apply Ha; [lia | reflexivity | reflexivity | reflexivity].
  - apply Hb; [reflexivity | reflexivity | vm_compute; lia | reflexivity | reflexivity].
Defined.

(** C8 as stated fails on both counts: a matching start-pattern window that
    stops matching when every run is doubled, and an exact start-pattern
    window whose first run is lengthened by one pixel (256 in scaled units,
    more than the cap of 204) and still matches. *)
Lemma scaling_and_perturbation_counterexample :
  (patternMatchVariance [86; 3; 3; 3; 21; 21; 21; 45] START_PATTERN
     MAX_INDIVIDUAL_VARIANCE < MAX_AVG_VARIANCE
   /\ ~ patternMatchVariance (map (Z.mul 2) [86; 3; 3; 3; 21; 21; 21; 45])
          START_PATTERN MAX_INDIVIDUAL_VARIANCE < MAX_AVG_VARIANCE)
  /\ (patternMatchVariance [8; 1; 1; 1; 1; 1; 1; 3] START_PATTERN
        MAX_INDIVIDUAL_VARIANCE < MAX_AVG_VARIANCE
      /\ scaledCap MAX_INDIVIDUAL_VARIANCE (unitBarWidth 17 17) < 256 * (9 - 8)
      /\ patternMatchVariance [9; 1; 1; 1; 1; 1; 1; 3] START_PATTERN
           MAX_INDIVIDUAL_VARIANCE < MAX_AVG_VARIANCE).
Proof. vm_compute. repeat split; congruence. Qed.

(** * The separation test of correctVertices *)




(** * round against the nearest integer *)















(** * What detect reads outside the image *)

